(** * TMSi SAGA plotters: window buffer, renderer loop and impedance colours

    A shallow embedding of the sample-windowing code of
    [Python/plotters/plotter.py] (classes [RealTimePlot] and
    [SamplingThread]) and of the colour lookup and polling loop of
    [Python/plotters/impedance_plotter.py], followed by the construction
    of [RealTimePlot] with its channel selection, the time-range and
    show/hide buttons and the axis bookkeeping, and by the layout and the
    legend of [ImpedancePlot].

    Conventions of the embedding:
    - Python [int]s are [Z]; array lengths and positions are [nat].
    - The float64 samples are an abstract type [F] with a distinguished
      value [nan]: the plotter only moves samples around, it never
      computes with them; the impedance plot converts them with [int],
      which can raise.
    - A numpy 2-D array is a list of rows, one row per channel.
    - A Python exception is the [Raise] case of [res]. *)

From Stdlib Require Import ZArith List Lia Bool.
From Stdlib Require Strings.String.
From stdpp Require Import base option list list_numbers.

Open Scope Z_scope.

(** ** Exceptions *)

Inductive exn : Type :=
| ValueError
| IndexError
| TypeError
| OverflowError
| UnboundLocalError.

Inductive res (A : Type) : Type :=
| Ok (a : A)
| Raise (e : exn).

Arguments Ok {A} a.
Arguments Raise {A} e.

#[global] Instance res_ret : MRet res := fun _ a => Ok a.

#[global] Instance res_bind : MBind res := fun _ _ k m =>
  match m with
  | Ok a => k a
  | Raise e => Raise e
  end.

Definition of_option {A : Type} (e : exn) (o : option A) : res A :=
  match o with
  | Some a => Ok a
  | None => Raise e
  end.

Definition is_ok {A : Type} (m : res A) : bool :=
  match m with
  | Ok _ => true
  | Raise _ => false
  end.

(** [mapM] for [res], left to right, stopping at the first exception. *)
Fixpoint traverse {A B : Type} (f : A -> res B) (l : list A) : res (list B) :=
  match l with
  | [] => Ok []
  | a :: l' => b ← f a; bs ← traverse f l'; Ok (b :: bs)
  end.

(** ** The numpy and Python operations the plotter uses *)

Module Np.
Section Arrays.
Context {A : Type}.

(** [a % b] on integer arrays: the sign follows the divisor, and numpy
    yields 0 (with a warning) for a zero divisor. *)
Definition mod_ (a b : Z) : Z := if b =? 0 then 0 else a mod b.

(** [np.arange(lo, hi)]. *)
Definition arange (lo hi : Z) : list Z := seqZ lo (hi - lo).

(** Python slices [l[:j]] and [l[i:]]: a negative bound counts from the
    end, bounds are clamped to the sequence. *)
Definition slice_to (l : list A) (j : Z) : list A :=
  if j <? 0 then take (Z.to_nat (Z.of_nat (length l) + j)) l
  else take (Z.to_nat j) l.

Definition slice_from (l : list A) (i : Z) : list A :=
  if i <? 0 then drop (Z.to_nat (Z.of_nat (length l) + i)) l
  else drop (Z.to_nat i) l.

(** Position addressed by an integer index on an axis of length [len]:
    negative indices count from the end, anything else out of range is
    an [IndexError]. *)
Definition position (len : Z) (i : Z) : res nat :=
  if (0 <=? i) && (i <? len) then Ok (Z.to_nat i)
  else if (- len <=? i) && (i <? 0) then Ok (Z.to_nat (len + i))
  else Raise IndexError.

(** The positions addressed by an integer index array. *)
Definition positions (len : nat) (idx : list Z) : res (list nat) :=
  let n := Z.of_nat len in traverse (position n) idx.

(** [row[idx]] with an integer index array. *)
Definition take_cols (row : list A) (idx : list Z) : res (list A) :=
  ps ← positions (length row) idx;
  traverse (fun p => of_option IndexError (row !! p)) ps.

(** The assignments [row[p] = v] in index order: for a repeated position
    the last value stays. *)
Fixpoint put_all (row : list A) (ps : list nat) (vals : list A) : list A :=
  match ps, vals with
  | p :: ps', v :: vals' => put_all (<[p := v]> row) ps' vals'
  | _, _ => row
  end.

(** [row[idx] = vals] with an integer index array, after the value has
    been broadcast to the shape of the index. *)
Definition put_cols (row : list A) (idx : list Z) (vals : list A) : res (list A) :=
  ps ← positions (length row) idx;
  Ok (put_all row ps vals).

(** Broadcasting of a value row of length [length vals] to [n] columns. *)
Definition broadcast_cols (n : nat) (vals : list A) : res (list A) :=
  if decide (length vals = n) then Ok vals
  else match vals with
       | [v] => Ok (replicate n v)
       | _ => Raise ValueError
       end.

(** Broadcasting of the rows of a 2-D value to [n] rows. *)
Definition broadcast_rows (n : nat) (vals : list (list A)) : res (list (list A)) :=
  if decide (length vals = n) then Ok vals
  else match vals with
       | [r] => Ok (replicate n r)
       | _ => Raise ValueError
       end.

Fixpoint zip_rows (f : list A -> list A -> res (list A))
    (buf vals : list (list A)) : res (list (list A)) :=
  match buf, vals with
  | row :: buf', v :: vals' =>
      r ← f row v; rs ← zip_rows f buf' vals'; Ok (r :: rs)
  | _, _ => Ok []
  end.

(** [buf[:, idx] = vals] for a 2-D value. *)
Definition assign (buf : list (list A)) (idx : list Z) (vals : list (list A))
    : res (list (list A)) :=
  vals1 ← broadcast_rows (length buf) vals;
  vals2 ← traverse (broadcast_cols (length idx)) vals1;
  zip_rows (fun row v => put_cols row idx v) buf vals2.

(** [buf[:, idx] = x] for a scalar. *)
Definition fill (buf : list (list A)) (idx : list Z) (x : A) : res (list (list A)) :=
  traverse (fun row => put_cols row idx (replicate (length idx) x)) buf.

(** [buf[:, idx]]. *)
Definition select (buf : list (list A)) (idx : list Z) : res (list (list A)) :=
  traverse (fun row => take_cols row idx) buf.

(** [np.hstack((a, b))] of two arrays with the same number of rows. *)
Definition hstack (a b : list (list A)) : res (list (list A)) :=
  if decide (length a = length b) then Ok (zip_with app a b)
  else Raise ValueError.

(** [l[::d]] for a positive step: positions 0, d, 2d, ... *)
Fixpoint every (fuel : nat) (d : nat) (l : list A) : list A :=
  match fuel, l with
  | S fuel', x :: _ => x :: every fuel' d (drop d l)
  | _, _ => []
  end.

(** [l[::d]]: a zero step is a [ValueError], a negative step walks the
    sequence from its end. *)
Definition stride (l : list A) (d : Z) : res (list A) :=
  if d =? 0 then Raise ValueError
  else if 0 <? d then Ok (every (length l) (Z.to_nat d) l)
  else Ok (every (length l) (Z.to_nat (- d)) (rev l)).

(** [np.where(cond)[0][0]]: the first position whose element satisfies
    the condition; [IndexError] when there is none. *)
Fixpoint first_where (P : Z -> bool) (l : list Z) : res nat :=
  match l with
  | [] => Raise IndexError
  | x :: l' => if P x then Ok O else (n ← first_where P l'; Ok (S n))
  end.

(** [np.reshape(flat, (rows, cols), order='F')]: the first index runs
    fastest, so entry [(r, c)] is [flat[r + c * rows]]. *)
Definition reshape_F (flat : list A) (rows cols : nat) : res (list (list A)) :=
  if decide (length flat = (rows * cols)%nat) then
    of_option ValueError
      (mapM (fun r => mapM (fun c => flat !! (r + c * rows)%nat) (seq 0 cols))
            (seq 0 rows))
  else Raise ValueError.

End Arrays.
End Np.

(** ** [plotter.py]: the real-time plotter *)

Module Plotter.
Section Samples.
Context {F : Type} (nan : F).

(** The [SampleData] objects taken from the queue: [samples] is the flat
    payload, [num_samples_per_sample_set] the number of channels and
    [num_sample_sets] the number of samples per channel. *)
Record SampleData : Type := {
  num_sample_sets : nat;
  num_samples_per_sample_set : nat;
  samples : list F
}.

(** The attributes of [SamplingThread] that [update_samples] reads and
    writes ([SamplingThread.__init__] copies them from the GUI object). *)
Record SamplingThread : Type := {
  sample_rate : Z;
  window_size : Z;
  window_buffer : list (list F);
  _buffer_size : Z;
  samples_seen : Z;
  _downsampling_factor : Z
}.

(** The attributes of [RealTimePlot] used by the time-range buttons,
    together with the worker the buttons update. *)
Record RealTimePlot : Type := {
  ui_window_size : Z;
  ui_buffer_size : Z;
  worker : SamplingThread
}.

(** [int(sample_rate / 500)]: true division, then truncation towards 0. *)
Definition downsampling_factor (rate : Z) : Z := Z.quot rate 500.

(** The configuration and the buffer that [RealTimePlot.initUI] sets up
    (lines 99-102 and 164-166), as [SamplingThread.__init__] copies them to
    the worker (lines 635-643): a window of 5 s, a buffer of 10 s filled
    with NaN, nothing seen yet.  [np.ones] refuses a negative dimension. *)
Definition init_window_buffer (rate : Z) (active_channels : nat) : res RealTimePlot :=
  let columns := rate * 10 in
  if columns <? 0 then Raise ValueError
  else
    Ok {| ui_window_size := 5;
          ui_buffer_size := 10;
          worker := {| sample_rate := rate;
                       window_size := 5;
                       window_buffer :=
                         replicate active_channels (replicate (Z.to_nat columns) nan);
                       _buffer_size := 10;
                       samples_seen := 0;
                       _downsampling_factor := downsampling_factor rate |} |}.

(** The array [_channel_selection]: its dtype and its entries.  An array
    of dtype [float64] holds whole numbers here, but its entries are not
    accepted as list indices. *)
Inductive dtype : Type :=
| int64
| float64.

Record ndarray : Type := {
  dtype_of : dtype;
  items : list Z
}.

(** [self.device.channels[index]] on the list of the [active_channels]
    channels of the device: the position read, counted from the end for a
    negative index. *)
Definition channel_at (active_channels : nat) (dt : dtype) (index : Z) : res nat :=
  match dt with
  | float64 => Raise TypeError
  | int64 =>
      let n := Z.of_nat active_channels in
      if (0 <=? index) && (index <? n) then Ok (Z.to_nat index)
      else if (- n <=? index) && (index <? 0) then Ok (Z.to_nat (n + index))
      else Raise IndexError
  end.

(** [RealTimePlot.initUI], with the worker that [setupThread] then makes
    of its attributes.  Of lines 104-161 the model keeps what can raise in
    Python itself: [self._plot_diff[-1]] on the empty list when no channel
    is displayed (line 125), and the reads
    [self.device.channels[self._channel_selection[i]]] of the tick labels
    (line 133), in the order of the loop.  The calls into Qt, and the
    attributes [name] and [unit_name] of a channel, are taken not to
    raise. *)
Definition initUI (active_channels : nat) (_channel_selection : ndarray) (rate : Z)
    : res RealTimePlot :=
  let num_channels := length (items _channel_selection) in
  if (num_channels =? 0)%nat then Raise IndexError
  else
    _ ← traverse (channel_at active_channels (dtype_of _channel_selection))
          (items _channel_selection);
    init_window_buffer rate active_channels.

(** [int(np.floor(window_size * sample_rate * 0.04))].  For the integers
    at hand the float product rounds to the exact quotient whenever that
    is an integer, so the floor is the integer quotient by 25. *)
Definition white_out (w : SamplingThread) : Z :=
  (window_size w * sample_rate w * 4) / 100.

(** [sample_rate * _buffer_size], the modulus of the ring. *)
Definition ring_size (w : SamplingThread) : Z := sample_rate w * _buffer_size w.

(** [plot_indices] of a block of [k] samples per channel. *)
Definition plot_indices (w : SamplingThread) (k : Z) : list Z :=
  (fun i => Np.mod_ (samples_seen w + i) (ring_size w))
    <$> Np.arange 0 (k + white_out w).

(** Lines 690-702 of [update_samples]: reshape the block, write it and
    the white-out region into the ring, advance [samples_seen]. *)
Definition write_block (w : SamplingThread) (sd : SampleData) : res SamplingThread :=
  block ← Np.reshape_F (samples sd) (num_samples_per_sample_set sd) (num_sample_sets sd);
  let k := Z.of_nat (num_sample_sets sd) in
  let idx := plot_indices w k in
  buf1 ← Np.assign (window_buffer w) (Np.slice_to idx (- white_out w)) block;
  buf2 ← Np.fill buf1 (Np.slice_from idx (- white_out w)) nan;
  Ok {| sample_rate := sample_rate w;
        window_size := window_size w;
        window_buffer := buf2;
        _buffer_size := _buffer_size w;
        samples_seen := samples_seen w + k;
        _downsampling_factor := _downsampling_factor w |}.

(** [indices] of the frame: the [window_size * sample_rate] logical
    indices that end with the white-out region. *)
Definition indices (w : SamplingThread) : list Z :=
  Np.arange (samples_seen w + white_out w - window_size w * sample_rate w)
            (samples_seen w + white_out w).

Definition scroll_idx (w : SamplingThread) : list Z :=
  (fun i => Np.mod_ i (ring_size w)) <$> indices w.

(** [np.where(indices % (sample_rate * window_size) == 1)[0][0]]. *)
Definition split_idx (w : SamplingThread) : res nat :=
  Np.first_where (fun i => Np.mod_ i (sample_rate w * window_size w) =? 1) (indices w).

(** [plot_data] before decimation: the part of the window from
    [split_idx] on, followed by the part before [split_idx]. *)
Definition window_data (w : SamplingThread) : res (list (list F)) :=
  s ← split_idx w;
  tail ← Np.select (window_buffer w) (Np.slice_from (scroll_idx w) (Z.of_nat s));
  head ← Np.select (window_buffer w) (Np.slice_to (scroll_idx w) (Z.of_nat s));
  Np.hstack tail head.

(** [plot_data[:, ::d]]. *)
Definition decimate (plot_data : list (list F)) (d : Z) : res (list (list F)) :=
  if d =? 0 then Raise ValueError
  else traverse (fun row => Np.stride row d) plot_data.

(** Lines 711-727 of [update_samples]: the frame handed to the plot. *)
Definition render_slice (w : SamplingThread) : res (list (list F)) :=
  plot_data ← window_data w;
  decimate plot_data (_downsampling_factor w).

(** What one turn of the loop does that is visible from outside. *)
Inductive event : Type :=
| Print
| Sleep (milliseconds : Z)
| Emit (plot_data : list (list F)).

(** Lines 677-682: [depth1] is the queue depth read by the [if],
    [depth2] the depth read by the [elif]. *)
Definition update_lag (lag : bool) (depth1 depth2 : Z) : bool :=
  if 10 <? depth1 then true
  else if depth2 <? 6 then false
  else lag.

(** One turn of the inner [while] loop of [update_samples], for the
    block [sd] taken from the queue. *)
Definition update_samples_body (lag : bool) (depth1 depth2 : Z)
    (w : SamplingThread) (sd : SampleData)
    : res (bool * SamplingThread * list event) :=
  let lag' := update_lag lag depth1 depth2 in
  let printed := if 10 <? depth1 then [Print] else [] in
  w' ← write_block w sd;
  if lag' then Ok (lag', w', printed ++ [Sleep 1])
  else
    plot_data ← render_slice w';
    Ok (lag', w', printed ++ [Emit plot_data; Sleep 10]).

(** The inner loop [while not q.empty()] on the blocks that are in the
    queue, when nothing is added meanwhile: both depth readings of a turn
    see the blocks not yet taken. *)
Fixpoint drain (lag : bool) (w : SamplingThread) (q : list SampleData)
    : res (bool * SamplingThread * list event) :=
  match q with
  | [] => Ok (lag, w, [])
  | sd :: q' =>
      let depth := Z.of_nat (length q) in
      '(lag1, w1, ev1) ← update_samples_body lag depth depth w sd;
      '(lag2, w2, ev2) ← drain lag1 w1 q';
      Ok (lag2, w2, ev1 ++ ev2)
  end.

(** One turn of the outer loop [while self.sampling] of [update_samples]:
    nothing but the inner loop. *)
Definition update_samples_turn (sampling : bool) (lag : bool)
    (w : SamplingThread) (q : list SampleData)
    : res (bool * SamplingThread * list event) :=
  if sampling then drain lag w q else Ok (lag, w, []).

(** [RealTimePlot._decrease_time_range]. *)
Definition _decrease_time_range (p : RealTimePlot) : RealTimePlot :=
  if 1 <? ui_window_size p then
    {| ui_window_size := ui_window_size p - 1;
       ui_buffer_size := ui_buffer_size p;
       worker := {| sample_rate := sample_rate (worker p);
                    window_size := window_size (worker p) - 1;
                    window_buffer := window_buffer (worker p);
                    _buffer_size := _buffer_size (worker p);
                    samples_seen := samples_seen (worker p);
                    _downsampling_factor := _downsampling_factor (worker p) |} |}
  else p.

(** [RealTimePlot._increase_time_range]. *)
Definition _increase_time_range (p : RealTimePlot) : RealTimePlot :=
  if ui_window_size p <? ui_buffer_size p then
    {| ui_window_size := ui_window_size p + 1;
       ui_buffer_size := ui_buffer_size p;
       worker := {| sample_rate := sample_rate (worker p);
                    window_size := window_size (worker p) + 1;
                    window_buffer := window_buffer (worker p);
                    _buffer_size := _buffer_size (worker p);
                    samples_seen := samples_seen (worker p);
                    _downsampling_factor := _downsampling_factor (worker p) |} |}
  else p.

(** A run of the inner loop seen from the window buffer only: the
    blocks are written one after the other. *)
Fixpoint write_all (w : SamplingThread) (sds : list SampleData) : res SamplingThread :=
  match sds with
  | [] => Ok w
  | sd :: sds' => w' ← write_block w sd; write_all w' sds'
  end.

(** The operations that touch the window buffer and its window: a block
    written by the worker, a frame rendered by the worker, and the two
    time-range buttons. *)
Inductive op : Type :=
| Write (sd : SampleData)
| Render
| Decrease
| Increase.

Definition with_worker (p : RealTimePlot) (w : SamplingThread) : RealTimePlot :=
  {| ui_window_size := ui_window_size p;
     ui_buffer_size := ui_buffer_size p;
     worker := w |}.

Definition step (p : RealTimePlot) (o : op) : res RealTimePlot :=
  match o with
  | Write sd => w' ← write_block (worker p) sd; Ok (with_worker p w')
  | Render => _ ← render_slice (worker p); Ok p
  | Decrease => Ok (_decrease_time_range p)
  | Increase => Ok (_increase_time_range p)
  end.

Fixpoint run (p : RealTimePlot) (ops : list op) : res RealTimePlot :=
  match ops with
  | [] => Ok p
  | o :: ops' => p' ← step p o; run p' ops'
  end.

End Samples.
End Plotter.

(** ** [impedance_plotter.py]: the impedance plot *)

Module ImpedancePlot.

Inductive QColor : Type := rgb (r g b : Z).

(** [ImpedancePlot._lookup_table]: [color_code] is bound by the branch
    that is taken; when no branch is taken, [return color_code] raises
    [UnboundLocalError]. *)
Definition _lookup_table (value : Z) : res QColor :=
  if value <? 5 then Ok (rgb 0 255 0)
  else if (5 <=? value) && (value <? 10) then Ok (rgb 0 204 0)
  else if (10 <=? value) && (value <? 30) then Ok (rgb 0 153 0)
  else if (30 <=? value) && (value <? 50) then Ok (rgb 0 102 0)
  else if (50 <=? value) && (value <? 100) then Ok (rgb 255 255 0)
  else if (100 <=? value) && (value <? 200) then Ok (rgb 204 128 0)
  else if (200 <=? value) && (value <? 400) then Ok (rgb 255 0 0)
  else if (400 <=? value) && (value <? 500) then Ok (rgb 153 0 0)
  else if value =? 500 then Ok (rgb 102 66 33)
  else if value =? 5000 then Ok (rgb 128 128 128)
  else if value =? 5100 then Ok (rgb 204 0 102)
  else if value =? 5200 then Ok (rgb 0 0 179)
  else Raise UnboundLocalError.

Section Samples.
(** [int] is Python's conversion [int(x)] of a sample: it raises
    [ValueError] on NaN and [OverflowError] on an infinity. *)
Context {F : Type} (int : F -> res Z).

Inductive event : Type :=
| Sleep (milliseconds : Z)
| Emit (impedance_values : list Z).

(** The body of the inner loop of [SamplingThread.update_samples], with
    the local variable [sample_set] made explicit: it is unbound ([None])
    when the method starts, the [for] loop leaves the last sample set of
    the block in it, and a block without sample sets leaves it as the
    previous turn bound it.  Line 354 converts the values one after the
    other and stops at the first that [int] refuses. *)
Definition update_samples_body (sample_set : option (list F))
    (sd : @Plotter.SampleData F) : res (option (list F) * list event) :=
  let n := Plotter.num_samples_per_sample_set sd in
  let sample_set' :=
    match Plotter.num_sample_sets sd with
    | O => sample_set
    | S i => Some (take n (drop (i * n) (Plotter.samples sd)))
    end in
  match sample_set' with
  | None => Raise UnboundLocalError
  | Some values =>
      impedance_values ← traverse int values;
      Ok (sample_set', [Emit impedance_values])
  end.

(** The inner loop [while not q.empty()] on the blocks that are in the
    queue. *)
Fixpoint drain (sample_set : option (list F)) (q : list (@Plotter.SampleData F))
    : res (option (list F) * list event) :=
  match q with
  | [] => Ok (sample_set, [])
  | sd :: q' =>
      '(sample_set1, ev1) ← update_samples_body sample_set sd;
      '(sample_set2, ev2) ← drain sample_set1 q';
      Ok (sample_set2, ev1 ++ ev2)
  end.

(** One turn of the outer loop [while self.sampling]: the inner loop,
    then [time.sleep(1)]. *)
Definition update_samples_turn (sampling : bool) (sample_set : option (list F))
    (q : list (@Plotter.SampleData F)) : res (option (list F) * list event) :=
  if sampling then
    '(sample_set', ev) ← drain sample_set q;
    Ok (sample_set', ev ++ [Sleep 1000])
  else Ok (sample_set, []).

End Samples.
End ImpedancePlot.

(** ** Concrete samples for the scenarios *)

Module Scenario.

(** A sample that carries its logical index, or the gap value. *)
Inductive f64 : Type :=
| val (logical_index : Z)
| NaN.

(** A one-channel block with the samples [start, ..., start + k - 1]. *)
Definition block (start k : Z) : @Plotter.SampleData f64 :=
  {| Plotter.num_sample_sets := Z.to_nat k;
     Plotter.num_samples_per_sample_set := 1;
     Plotter.samples := val <$> seqZ start k |}.

(** [n] consecutive blocks of [k] samples, the first one at [start]. *)
Fixpoint blocks (start k : Z) (n : nat) : list (@Plotter.SampleData f64) :=
  match n with
  | O => []
  | S n' => block start k :: blocks (start + k) k n'
  end.

(** The plot that [init_window_buffer] builds for a device with the
    given sample rate and number of channels. *)
Definition plot (rate : Z) (channels : nat) : @Plotter.RealTimePlot f64 :=
  {| Plotter.ui_window_size := 5;
     Plotter.ui_buffer_size := 10;
     Plotter.worker :=
       {| Plotter.sample_rate := rate;
          Plotter.window_size := 5;
          Plotter.window_buffer := replicate channels (replicate (Z.to_nat (rate * 10)) NaN);
          Plotter._buffer_size := 10;
          Plotter.samples_seen := 0;
          Plotter._downsampling_factor := Plotter.downsampling_factor rate |} |}.

(** The worker with its decimation switched off. *)
Definition no_downsampling (w : @Plotter.SamplingThread f64) : Plotter.SamplingThread :=
  {| Plotter.sample_rate := Plotter.sample_rate w;
     Plotter.window_size := Plotter.window_size w;
     Plotter.window_buffer := Plotter.window_buffer w;
     Plotter._buffer_size := Plotter._buffer_size w;
     Plotter.samples_seen := Plotter.samples_seen w;
     Plotter._downsampling_factor := 1 |}.

(** One channel at 1000 Hz, a 10 s buffer and a 5 s window, after
    12 blocks of 1000 samples. *)
Definition after_12000 : res (@Plotter.SamplingThread f64) :=
  p ← Plotter.init_window_buffer NaN 1000 1;
  Plotter.write_all NaN (Plotter.worker p) (blocks 0 1000 12).

(** The frame of the scenario without decimation, and with the factor 2
    that the plotter uses at 1000 Hz. *)
Definition frame_12000_no_downsampling : res (list (list f64)) :=
  w ← after_12000; Plotter.render_slice (no_downsampling w).

Definition frame_12000 : res (list (list f64)) :=
  w ← after_12000; Plotter.render_slice w.

(** What the spec's scenario expects: the samples 7000 to 11999. *)
Definition expected_7000_11999 : list (list f64) := [val <$> seqZ 7000 5000].

(** What the frame holds without decimation: the samples 10001 to 11999,
    the white-out region of 200 gaps, then the samples 7200 to 10000. *)
Definition sweep_frame : list (list f64) :=
  [(val <$> seqZ 10001 1999) ++ replicate 200 NaN ++ (val <$> seqZ 7200 2801)].

(** Every second entry of it. *)
Definition sweep_frame_decimated : list (list f64) :=
  [(val <$> ((fun i => 10001 + 2 * i) <$> seqZ 0 1000))
     ++ replicate 100 NaN
     ++ (val <$> ((fun i => 7201 + 2 * i) <$> seqZ 0 1400))].

(** One channel at 500 Hz (no decimation), after 6 blocks of 1000
    samples: the ring of 5000 slots has wrapped. *)
Definition after_6000 : res (@Plotter.SamplingThread f64) :=
  Plotter.write_all NaN (Plotter.worker (plot 500 1)) (blocks 0 1000 6).

Definition frame_6000 : res (list (list f64)) :=
  w ← after_6000; Plotter.render_slice w.

(** Entry [i] of the row of channel [c] of a frame. *)
Definition frame_entry (frame : res (list (list f64))) (c i : nat) : res (option f64) :=
  rows ← frame; Ok (rows !! c ≫= fun row => row !! i).

(** A block of two channels and three sample sets whose payload is
    0, 1, 2, 3, 4, 5. *)
Definition block_2x3 : @Plotter.SampleData f64 :=
  {| Plotter.num_sample_sets := 3;
     Plotter.num_samples_per_sample_set := 2;
     Plotter.samples := val <$> seqZ 0 6 |}.

(** Python's [int] on these samples: the gap value is NaN. *)
Definition int (x : f64) : res Z :=
  match x with
  | val z => Ok z
  | NaN => Raise ValueError
  end.

(** A block of two sample sets of two impedance values; the last sample
    set holds a NaN. *)
Definition block_with_nan : @Plotter.SampleData f64 :=
  {| Plotter.num_sample_sets := 2;
     Plotter.num_samples_per_sample_set := 2;
     Plotter.samples := [val 1; val 2; val 3; NaN] |}.

(** Slot [slot] of the ring of channel [c] after a write. *)
Definition written_sample (r : res (@Plotter.SamplingThread f64)) (c slot : nat)
    : res (option f64) :=
  w ← r; Ok (Plotter.window_buffer w !! c ≫= fun row => row !! slot).

End Scenario.

(** ** [plotter.py]: further methods of [RealTimePlot] *)

Module RealTimePlotGui.

(** [list.index(x)]: the position of the first occurrence, [ValueError]
    when there is none. *)
Fixpoint index (x : Z) (l : list Z) : res nat :=
  match l with
  | [] => Raise ValueError
  | y :: l' => if x =? y then Ok O else (n ← index x l'; Ok (S n))
  end.

(** Lines 74-79 of [__init__]: the loop runs over the list the caller
    passed ([todo]), while the name [channel_selection] is rebound to the
    shortened list each time the index of the STATUS channel is met. *)
Fixpoint cut_at_status (status : Z) (todo channel_selection : list Z) : res (list Z) :=
  match todo with
  | [] => Ok channel_selection
  | i :: todo' =>
      if i =? status then
        _idx ← index i channel_selection;
        cut_at_status status todo' (take _idx channel_selection)
      else cut_at_status status todo' channel_selection
  end.

(** Lines 69-80 of [__init__]: [_channel_selection] for a device with
    [channels] channels; [None] and the empty list select everything but
    the COUNTER channel. *)
Definition init_channel_selection (channels : Z) (channel_selection : option (list Z))
    : res (list Z) :=
  match channel_selection with
  | None | Some [] => Ok (Np.arange 0 (channels - 1))
  | Some selection =>
      kept ← cut_at_status (channels - 2) selection selection;
      Ok (kept ++ [channels - 2])
  end.

(** The same lines with the dtype of the array they build: [np.arange]
    makes an integer array, and so does [np.hstack] of a list of integers
    and the index of the STATUS channel, but [np.hstack] takes an empty
    list for a float array and then returns a float array. *)
Definition _channel_selection (channels : Z) (channel_selection : option (list Z))
    : res Plotter.ndarray :=
  match channel_selection with
  | None | Some [] =>
      Ok {| Plotter.dtype_of := Plotter.int64;
            Plotter.items := Np.arange 0 (channels - 1) |}
  | Some selection =>
      kept ← cut_at_status (channels - 2) selection selection;
      Ok {| Plotter.dtype_of :=
              match kept with [] => Plotter.float64 | _ :: _ => Plotter.int64 end;
            Plotter.items := kept ++ [channels - 2] |}
  end.

(** [RealTimePlot.__init__] for a device with [channels] channels and the
    sample rate [rate]: the channel selection, then [initUI] and
    [setupThread]. *)
Definition __init__ {F : Type} (nan : F) (channels : nat)
    (channel_selection : option (list Z)) (rate : Z) : res (@Plotter.RealTimePlot F) :=
  selection ← _channel_selection (Z.of_nat channels) channel_selection;
  Plotter.initUI nan channels selection rate.

(** How the search for the final index of [update_plot] (lines 543-562)
    can end. *)
Inductive error : Type :=
| ZeroDivisionError
| IndexError.

Inductive outcome : Type :=
| Return
| Final (idx_final : Z)
| Fail (e : error).

(** [np.where(con == False)[0]] for the columns [i], [i + 1], ... *)
Fixpoint where_false (i : Z) (con : list bool) : list Z :=
  match con with
  | [] => []
  | b :: con' => if b then where_false (i + 1) con' else i :: where_false (i + 1) con'
  end.

(** [a.any()] on an integer array: whether some element is not 0. *)
Definition any (a : list Z) : bool := existsb (fun i => negb (i =? 0)) a.

(** Lines 547-562 of [update_plot], on the finiteness flags [con0] of the
    first row of the frame.  The quotient [(window_size * sample_rate) / d]
    is a float: [last != W / d - 1] is decided on the integers as
    [(last + 1) * d <> W], [g > 0.9 * W / d] as [9 * W < 10 * g * d] (for a
    positive [d]), and the float [W / d - 1] is recorded as [int] makes it
    when the index is used, truncated towards 0. *)
Definition final_index (con0 : list bool) (window_size sample_rate d : Z) : outcome :=
  let gaps := where_false 0 con0 in
  if negb (any gaps) then Return
  else
    match gaps with
    | [] => Fail IndexError
    | first :: _ =>
        if negb (first =? 0) then Final (first - 1)
        else if d =? 0 then Fail ZeroDivisionError
        else
          let W := window_size * sample_rate in
          if negb ((List.last gaps first + 1) * d =? W) then Final (Z.quot (W - d) d)
          else
            let beyond (g : Z) :=
              if 0 <? d then 9 * W <? 10 * g * d else 10 * g * d <? 9 * W in
            match List.find beyond gaps with
            | Some g => Final (g - 1)
            | None => Fail IndexError
            end
    end.

(** Line 567 of [update_plot]: the ticks of the time axis, as pairs of a
    position and the second they are labelled with. *)
Definition bottom_ticks (t_end window_size : Z) : list (Z * Z) :=
  (fun val => (Np.mod_ val window_size, val))
    <$> Np.arange (t_end - (window_size - 1)) (t_end + 1).

Section Checkboxes.
Context {ChannelType : Type} `{EqDecision ChannelType}.
Context (UNI BIP AUX sensor : ChannelType).

(** The body shared by [_show_all_UNI], [_hide_all_UNI] and the six
    methods for BIP, AUX and sensor channels: [_checkboxes] is the list of
    the check state and the type of every checkbox; the result tells
    whether [_update_channel_display] is called. *)
Definition set_all (type : ChannelType) (state : bool)
    (_checkboxes : list (bool * ChannelType)) : list (bool * ChannelType) * bool :=
  if forallb (fun box => if decide (box.2 = type) then eqb box.1 state else true)
       _checkboxes
  then (_checkboxes, false)
  else ((fun box => if decide (box.2 = type) then (state, box.2) else box)
          <$> _checkboxes, true).

Definition _show_all_UNI := set_all UNI true.
Definition _hide_all_UNI := set_all UNI false.
Definition _show_all_BIP := set_all BIP true.
Definition _hide_all_BIP := set_all BIP false.
Definition _show_all_AUX := set_all AUX true.
Definition _hide_all_AUX := set_all AUX false.
Definition _show_all_DIGI := set_all sensor true.
Definition _hide_all_DIGI := set_all sensor false.

End Checkboxes.
End RealTimePlotGui.

(** ** [impedance_plotter.py]: further methods of [ImpedancePlot] *)

Module ImpedancePlotGui.

(** Lines 181-193 of [initUI], layout ['normal']: the positions of the
    indicators [i], [i + 1], ... of [n] impedance channels. *)
Fixpoint spots_from (n i : Z) (todo : nat) (row_count : Z) : list (Z * Z) :=
  match todo with
  | O => []
  | S todo' =>
      if i =? 0 then (3, 8) :: spots_from n (i + 1) todo' row_count
      else if i =? n - 1 then (4, 8) :: spots_from n (i + 1) todo' row_count
      else if (i - 1) mod 8 =? 0 then
        ((i - 1) mod 8, row_count + 1) :: spots_from n (i + 1) todo' (row_count + 1)
      else ((i - 1) mod 8, row_count) :: spots_from n (i + 1) todo' row_count
  end.

Definition normal_layout (imp_channels : nat) : list (Z * Z) :=
  spots_from (Z.of_nat imp_channels) 0 imp_channels (-1).

Section Legend.
Import String.StringSyntax.
Local Open Scope string_scope.

(** [_generate_legend]: the name and the brush of the twelve legend
    entries, in order. *)
Definition _generate_legend : list (String.string * ImpedancePlot.QColor) :=
  [ ("0 - 5 kΩ", ImpedancePlot.rgb 0 255 0);
    ("5 - 10 kΩ", ImpedancePlot.rgb 0 204 0);
    ("10 - 30 kΩ", ImpedancePlot.rgb 0 153 0);
    ("30 - 50 kΩ", ImpedancePlot.rgb 0 102 0);
    ("50 - 100 kΩ", ImpedancePlot.rgb 255 255 0);
    ("100 - 200 kΩ", ImpedancePlot.rgb 204 128 0);
    ("200 - 400 kΩ", ImpedancePlot.rgb 255 0 0);
    ("400 - 500 kΩ", ImpedancePlot.rgb 153 0 0);
    ("â‰¥ 500 kΩ / Not connected", ImpedancePlot.rgb 102 66 33);
    ("Disabled", ImpedancePlot.rgb 128 128 128);
    ("Odd/Even error", ImpedancePlot.rgb 204 0 102);
    ("PGND disconnected", ImpedancePlot.rgb 0 0 179) ].

End Legend.
End ImpedancePlotGui.

(** * Specification vocabulary *)

Import Plotter.

Section Spec.
Context {F : Type} (nan : F).
Implicit Types (w : @SamplingThread F) (sd : @SampleData F).

Definition rows_ok w : Prop :=
  Forall (fun row => Z.of_nat (length row) = ring_size w) (window_buffer w).

Definition block_ok w sd : Prop :=
  num_samples_per_sample_set sd = length (window_buffer w) /\
  length (samples sd) = (num_samples_per_sample_set sd * num_sample_sets sd)%nat.

Definition same_config w w' : Prop :=
  sample_rate w' = sample_rate w /\
  window_size w' = window_size w /\
  _buffer_size w' = _buffer_size w /\
  _downsampling_factor w' = _downsampling_factor w /\
  length (window_buffer w') = length (window_buffer w).

Definition block_channel sd (c : nat) : list F :=
  match Np.reshape_F (samples sd) (num_samples_per_sample_set sd) (num_sample_sets sd) with
  | Ok block => default [] (block !! c)
  | Raise _ => []
  end.

Definition write_row w (k : Z) (row vals : list F) : list F :=
  Np.put_all row (Z.to_nat <$> plot_indices w k)
    (vals ++ replicate (Z.to_nat (white_out w)) nan).

Definition logical (stream : list F) (t : Z) : F :=
  if t <? 0 then nan else default nan (stream !! Z.to_nat t).

Definition channel_stream (sds : list (@SampleData F)) (c : nat) : list F :=
  concat ((fun sd => block_channel sd c) <$> sds).

Definition total_samples (sds : list (@SampleData F)) : Z :=
  foldr (fun sd n => Z.of_nat (num_sample_sets sd) + n) 0 sds.

Definition ring_holds w (streams : nat -> list F) : Prop :=
  forall (c : nat) (row : list F), window_buffer w !! c = Some row ->
    Z.of_nat (length (streams c)) = samples_seen w /\
    forall t : Z,
      samples_seen w + white_out w - ring_size w <= t < samples_seen w + white_out w ->
      row !! Z.to_nat (t mod ring_size w) = Some (logical (streams c) t).

Definition fresh_buffer w : Prop :=
  samples_seen w = 0 /\
  Forall (fun row => row = replicate (Z.to_nat (ring_size w)) nan) (window_buffer w).

Definition window_len w : Z := sample_rate w * window_size w.

Definition window_start w : Z :=
  samples_seen w + white_out w - window_size w * sample_rate w.

Definition sweep_index w (j : Z) : Z :=
  window_start w + (j + 1 - window_start w) mod window_len w.
(** The window of the GUI is between one second and the buffer, and the
    worker has the same window and buffer as the GUI. *)
Definition window_inv (p : @RealTimePlot F) : Prop :=
  1 <= ui_window_size p <= ui_buffer_size p /\
  window_size (worker p) = ui_window_size p /\
  _buffer_size (worker p) = ui_buffer_size p.

(** The plot with the window of the GUI and of the worker changed by
    [delta] seconds. *)
Definition resized (p : @RealTimePlot F) (delta : Z) : RealTimePlot :=
  {| ui_window_size := ui_window_size p + delta;
     ui_buffer_size := ui_buffer_size p;
     worker := {| sample_rate := sample_rate (worker p);
                  window_size := window_size (worker p) + delta;
                  window_buffer := window_buffer (worker p);
                  _buffer_size := _buffer_size (worker p);
                  samples_seen := samples_seen (worker p);
                  _downsampling_factor := _downsampling_factor (worker p) |} |}.

(** The number of frames among the events of the loop, and the time the
    loop sleeps, in milliseconds. *)
Definition frames (ev : list (@event F)) : Z :=
  foldr (fun e n => match e with Emit _ => 1 + n | _ => n end) 0 ev.

Definition slept (ev : list (@event F)) : Z :=
  foldr (fun e t => match e with Sleep ms => ms + t | _ => t end) 0 ev.

(** Whether the inner loop, entered with the flag [lag] on a queue of [n]
    blocks to which nothing is added, is in lag mode when it handles block
    [i] (counted from 0): more than 5 blocks are left, and the loop was
    lagging or found more than 10 blocks. *)
Definition lagging (lag : bool) (n i : Z) : bool :=
  (5 <? n - i) && (lag || (10 <? n)).

(** The frame of the buffer in which the blocks [sds] have been written. *)
Definition frame_after w (sds : list (@SampleData F)) : list (list F) :=
  match write_all nan w sds ≫= render_slice with
  | Ok frame => frame
  | Raise _ => []
  end.

(** What the loop does for block [i] of the queue [q]: the message when
    more than 10 blocks are left, then 1 ms of sleep in lag mode, and
    otherwise the frame of the blocks up to [i] and 10 ms of sleep. *)
Definition turn_events (lag : bool) w (q : list (@SampleData F)) (i : nat)
    : list (@event F) :=
  let n := Z.of_nat (length q) in
  (if 10 <? n - Z.of_nat i then [Print] else []) ++
  (if lagging lag n (Z.of_nat i) then [Sleep 1]
   else [Emit (frame_after w (take (S i) q)); Sleep 10]).
End Spec.

(** The last sample set of a block of [k] sample sets of [n] values: the
    values [samples[(k - 1) * n + c]]. *)
Definition last_sample_set {F : Type} (sd : @SampleData F) : list F :=
  take (num_samples_per_sample_set sd)
       (drop ((num_sample_sets sd - 1) * num_samples_per_sample_set sd) (samples sd)).

(** [int] converts every value of [values]; [impedance_values] are the
    results. *)
Definition converted {F : Type} (int : F -> res Z) (values : list F)
    (impedance_values : list Z) : Prop :=
  Forall2 (fun x z => int x = Ok z) values impedance_values.

(** [int] converts the values of [values] up to one that it refuses with
    the exception [e]. *)
Definition refused {F : Type} (int : F -> res Z) (values : list F) (e : exn) : Prop :=
  exists (pre : list F) (x : F) (post : list F),
    values = pre ++ x :: post /\
    Forall (fun y => exists z : Z, int y = Ok z) pre /\ int x = Raise e.

(** The indices that a Python list of [n] elements accepts. *)
Definition index_ok (n : nat) (i : Z) : Prop := - Z.of_nat n <= i < Z.of_nat n.

(** The position of indicator [i] among [n], in closed form. *)
Definition spot (n i : Z) : Z * Z :=
  if i =? 0 then (3, 8)
  else if i =? n - 1 then (4, 8)
  else ((i - 1) mod 8, (i - 1) / 8).

(** * Facts about the array operations *)

Lemma bind_Ok {X Y : Type} (a : X) (k : X -> res Y) : (Ok a ≫= k) = k a.
Proof. reflexivity. Qed.

Lemma bind_Ok_inv {X Y : Type} (m : res X) (k : X -> res Y) (y : Y) :
  (m ≫= k) = Ok y -> exists a, m = Ok a /\ k a = Ok y.
Proof. destruct m as [a|e]; [eauto|discriminate]. Qed.

Section TraverseFacts.
Context {X Y : Type} (f : X -> res Y).

Lemma traverse_Ok_Forall2 (l : list X) (l' : list Y) :
  traverse f l = Ok l' <-> Forall2 (fun a b => f a = Ok b) l l'.
Proof.
  revert l'. induction l as [|a l IH]; intros l'; simpl.
  - split.
    + intros [= <-]. constructor.
    + intros H. inversion H. reflexivity.
  - split.
    + destruct (f a) as [b|e] eqn:Hb; simpl; [|discriminate].
      destruct (traverse f l) as [bs|e] eqn:Hbs; simpl; [|discriminate].
      intros [= <-]. constructor; [assumption|]. apply IH. reflexivity.
    + intros H. inversion H as [|? b ? bs Hab Hrest]; subst.
      rewrite Hab. simpl. apply IH in Hrest. rewrite Hrest. reflexivity.
Qed.

Lemma traverse_fmap (g : X -> Y) (l : list X) :
  (forall a, a ∈ l -> f a = Ok (g a)) -> traverse f l = Ok (g <$> l).
Proof.
  intros H. apply traverse_Ok_Forall2. apply Forall2_fmap_r.
  apply Forall_Forall2_diag. apply Forall_forall. exact H.
Qed.

Lemma traverse_length (l : list X) (l' : list Y) :
  traverse f l = Ok l' -> length l' = length l.
Proof.
  intros H. apply traverse_Ok_Forall2 in H. symmetry. eapply Forall2_length, H.
Qed.

Lemma traverse_lookup (l : list X) (l' : list Y) (i : nat) (a : X) :
  traverse f l = Ok l' -> l !! i = Some a -> exists b, l' !! i = Some b /\ f a = Ok b.
Proof.
  intros H Ha. apply traverse_Ok_Forall2 in H.
  destruct (Forall2_lookup_l _ _ _ _ _ H Ha) as (b & Hb & Hf). eauto.
Qed.
End TraverseFacts.

Section ArrayFacts.
Context {A : Type}.
Implicit Types (row vals : list A) (ps : list nat) (idx : list Z).

Lemma mod_pos (a b : Z) : 0 < b -> Np.mod_ a b = a mod b.
Proof. intros Hb. unfold Np.mod_. destruct (Z.eqb_spec b 0); [lia|reflexivity]. Qed.

Lemma position_in_range (len i : Z) :
  0 <= i < len -> Np.position len i = Ok (Z.to_nat i).
Proof.
  intros [H0 H1]. unfold Np.position.
  destruct (Z.leb_spec 0 i); [|lia]. destruct (Z.ltb_spec i len); [|lia].
  reflexivity.
Qed.

Lemma positions_in_range (len : nat) idx :
  Forall (fun i => 0 <= i < Z.of_nat len) idx ->
  Np.positions len idx = Ok (Z.to_nat <$> idx).
Proof.
  intros H. unfold Np.positions. apply traverse_fmap.
  intros i Hi. apply position_in_range.
  rewrite Forall_forall in H. auto.
Qed.

Lemma put_all_length row ps vals : length (Np.put_all row ps vals) = length row.
Proof.
  revert row vals. induction ps as [|p ps IH]; intros row vals; [reflexivity|].
  destruct vals as [|v vals]; [reflexivity|]. simpl.
  rewrite IH. apply length_insert.
Qed.

Lemma put_all_app row ps1 ps2 vals1 vals2 :
  length ps1 = length vals1 ->
  Np.put_all row (ps1 ++ ps2) (vals1 ++ vals2)
  = Np.put_all (Np.put_all row ps1 vals1) ps2 vals2.
Proof.
  revert row vals1. induction ps1 as [|p ps1 IH]; intros row [|v vals1] Hlen;
    simpl in *; try discriminate; [reflexivity|].
  apply IH. lia.
Qed.

Lemma put_all_lookup_other row ps vals (p : nat) :
  p ∉ ps -> Np.put_all row ps vals !! p = row !! p.
Proof.
  revert row vals. induction ps as [|q ps IH]; intros row vals Hp; [reflexivity|].
  destruct vals as [|v vals]; [reflexivity|]. simpl.
  apply not_elem_of_cons in Hp as [Hne Hp].
  rewrite IH by assumption. apply list_lookup_insert_ne. congruence.
Qed.

Lemma put_all_lookup_last row ps vals (n p : nat) (v : A) :
  ps !! n = Some p -> vals !! n = Some v ->
  (forall m q, (n < m)%nat -> ps !! m = Some q -> q <> p) ->
  (p < length row)%nat ->
  Np.put_all row ps vals !! p = Some v.
Proof.
  revert row vals n. induction ps as [|q ps IH]; intros row vals n Hp Hv Hlater Hlen;
    [discriminate|].
  destruct vals as [|v0 vals]; [discriminate|]. simpl.
  destruct n as [|n]; simpl in *.
  - injection Hp as ->. injection Hv as ->.
    rewrite put_all_lookup_other.
    + apply list_lookup_insert_eq. assumption.
    + intros Hin. apply list_elem_of_lookup in Hin as [m Hm].
      apply (Hlater (S m) p); [lia|exact Hm|reflexivity].
  - apply (IH _ _ n); try assumption.
    + intros m q' Hm Hq'. apply (Hlater (S m) q'); [lia|exact Hq'].
    + rewrite length_insert. assumption.
Qed.

Lemma put_cols_in_range row idx vals :
  Forall (fun i => 0 <= i < Z.of_nat (length row)) idx ->
  Np.put_cols row idx vals = Ok (Np.put_all row (Z.to_nat <$> idx) vals).
Proof.
  intros H. unfold Np.put_cols. rewrite positions_in_range by assumption.
  reflexivity.
Qed.

Lemma take_cols_in_range row idx :
  Forall (fun i => 0 <= i < Z.of_nat (length row)) idx ->
  exists out, Np.take_cols row idx = Ok out /\ length out = length idx /\
    forall (j : nat) (i : Z), idx !! j = Some i -> out !! j = row !! Z.to_nat i.
Proof.
  intros H.
  assert (Hex : exists out, traverse (fun p => of_option IndexError (row !! p))
                  (Z.to_nat <$> idx) = Ok out).
  { induction H as [|i idx Hi _ IH]; [eexists; reflexivity|].
    destruct IH as [out IH].
    destruct (lookup_lt_is_Some_2 row (Z.to_nat i)) as [x Hx]; [lia|].
    exists (x :: out). change (Z.to_nat <$> i :: idx) with (Z.to_nat i :: (Z.to_nat <$> idx)).
    cbn [traverse]. rewrite Hx. cbn [of_option]. rewrite bind_Ok, IH. reflexivity. }
  destruct Hex as [out Hout]. exists out.
  unfold Np.take_cols. rewrite positions_in_range, bind_Ok by assumption.
  split; [exact Hout|]. split.
  - apply traverse_length in Hout. rewrite Hout. apply length_fmap.
  - intros j i Hj.
    destruct (traverse_lookup _ _ _ j (Z.to_nat i) Hout) as (b & Hb & Hf).
    { rewrite list_lookup_fmap, Hj. reflexivity. }
    rewrite Hb. destruct (row !! Z.to_nat i); [|discriminate].
    simpl in Hf. congruence.
Qed.

Lemma every_lookup (fuel d : nat) (l : list A) (i : nat) :
  (0 < d)%nat -> (length l <= fuel)%nat ->
  Np.every fuel d l !! i = l !! (i * d)%nat.
Proof.
  intros Hd. revert l i. induction fuel as [|fuel IH]; intros l i Hlen.
  - destruct l; [|simpl in Hlen; lia]. reflexivity.
  - destruct l as [|x l]; [reflexivity|]. cbn [Np.every].
    destruct i as [|i]; [reflexivity|].
    cbn [lookup list_lookup]. fold (@lookup nat A (list A) _).
    rewrite IH.
    + rewrite lookup_drop. reflexivity.
    + rewrite length_drop. simpl in *. lia.
Qed.

Lemma every_length (fuel d : nat) (l : list A) :
  (0 < d)%nat -> (length l <= fuel)%nat ->
  Z.of_nat (length (Np.every fuel d l))
  = (Z.of_nat (length l) + Z.of_nat d - 1) / Z.of_nat d.
Proof.
  intros Hd Hlen.
  set (n := length (Np.every fuel d l)).
  assert (Hchar : forall i : nat, (i < n)%nat <-> (i * d < length l)%nat).
  { intros i. unfold n. rewrite <- !lookup_lt_is_Some.
    rewrite every_lookup by assumption. reflexivity. }
  assert (Hup : (length l <= n * d)%nat).
  { destruct (Nat.le_gt_cases (length l) (n * d)) as [|Hlt]; [assumption|].
    apply Hchar in Hlt. lia. }
  assert (Hlow : n = O \/ ((n - 1) * d < length l)%nat).
  { destruct n as [|m]; [left; reflexivity|right].
    apply Hchar. lia. }
  apply (Z.div_unique _ _ _ (Z.of_nat (length l) + Z.of_nat d - 1 - Z.of_nat n * Z.of_nat d));
    [|lia].
  left. destruct Hlow as [Hz|Hlow]; [rewrite Hz in *; simpl in *; lia|].
  destruct n as [|m]; [lia|]. nia.
Qed.

Lemma stride_positive (l : list A) (d : Z) :
  0 < d ->
  exists out, Np.stride l d = Ok out /\
    Z.of_nat (length out) = (Z.of_nat (length l) + d - 1) / d /\
    forall i : nat, out !! i = l !! (i * Z.to_nat d)%nat.
Proof.
  intros Hd. unfold Np.stride.
  destruct (Z.eqb_spec d 0); [lia|]. destruct (Z.ltb_spec 0 d); [|lia].
  eexists. split; [reflexivity|]. split.
  - rewrite every_length by lia. rewrite Z2Nat.id by lia. reflexivity.
  - intros i. apply every_lookup; lia.
Qed.

Lemma slice_from_nat (l : list A) (s : nat) : Np.slice_from l (Z.of_nat s) = drop s l.
Proof.
  unfold Np.slice_from. destruct (Z.ltb_spec (Z.of_nat s) 0); [lia|].
  rewrite Nat2Z.id. reflexivity.
Qed.

Lemma slice_to_nat (l : list A) (s : nat) : Np.slice_to l (Z.of_nat s) = take s l.
Proof.
  unfold Np.slice_to. destruct (Z.ltb_spec (Z.of_nat s) 0); [lia|].
  rewrite Nat2Z.id. reflexivity.
Qed.

Lemma slice_to_neg (l : list A) (n : Z) :
  0 < n -> Np.slice_to l (- n) = take (Z.to_nat (Z.of_nat (length l) - n)) l.
Proof.
  intros Hn. unfold Np.slice_to. destruct (Z.ltb_spec (- n) 0); [|lia].
  f_equal.
Qed.

Lemma slice_from_neg (l : list A) (n : Z) :
  0 < n -> Np.slice_from l (- n) = drop (Z.to_nat (Z.of_nat (length l) - n)) l.
Proof.
  intros Hn. unfold Np.slice_from. destruct (Z.ltb_spec (- n) 0); [|lia].
  f_equal.
Qed.

Lemma first_where_spec (P : Z -> bool) (l : list Z) (n : nat) (x : Z) :
  l !! n = Some x -> P x = true ->
  (forall (m : nat) (y : Z), (m < n)%nat -> l !! m = Some y -> P y = false) ->
  Np.first_where P l = Ok n.
Proof.
  revert n. induction l as [|y l IH]; intros n Hn Hx Hbefore; [discriminate|].
  destruct n as [|n]; simpl in *.
  - injection Hn as ->. rewrite Hx. reflexivity.
  - rewrite (Hbefore O y) by (reflexivity || lia).
    rewrite (IH n); [reflexivity|assumption|assumption|].
    intros m z Hm Hz. apply (Hbefore (S m) z); [lia|exact Hz].
Qed.

Lemma first_where_none (P : Z -> bool) (l : list Z) :
  (forall y, y ∈ l -> P y = false) -> Np.first_where P l = Raise IndexError.
Proof.
  induction l as [|y l IH]; intros H; [reflexivity|]. simpl.
  rewrite (H y) by (left). rewrite IH; [reflexivity|].
  intros z Hz. apply H. right. exact Hz.
Qed.

Lemma reshape_F_spec (flat : list A) (rows cols : nat) :
  length flat = (rows * cols)%nat ->
  exists block, Np.reshape_F flat rows cols = Ok block /\
    length block = rows /\
    forall (r : nat) (row : list A), block !! r = Some row ->
      length row = cols /\
      forall c : nat, (c < cols)%nat -> row !! c = flat !! (r + c * rows)%nat.
Proof.
  intros Hlen. unfold Np.reshape_F. destruct (decide _) as [_|]; [|contradiction].
  destruct (mapM (fun r => mapM (fun c => flat !! (r + c * rows)%nat) (seq 0 cols))
              (seq 0 rows)) as [block|] eqn:Hblock.
  - exists block. split; [reflexivity|]. apply mapM_Some in Hblock.
    split.
    + apply Forall2_length in Hblock. rewrite length_seq in Hblock. congruence.
    + intros r row Hrow.
      destruct (Forall2_lookup_r _ _ _ _ _ Hblock Hrow) as (r' & Hr' & Hmap).
      apply lookup_seq in Hr' as [-> Hr]. simpl in Hmap.
      apply mapM_Some in Hmap. split.
      * apply Forall2_length in Hmap. rewrite length_seq in Hmap. congruence.
      * intros c Hc.
        destruct (Forall2_lookup_l _ _ _ c c Hmap) as (x & Hx & Hflat).
        { apply lookup_seq. lia. }
        rewrite Hx. symmetry. exact Hflat.
  - exfalso. apply mapM_None in Hblock. apply Exists_exists in Hblock.
    destruct Hblock as (r & Hr & Hnone).
    apply elem_of_seq in Hr.
    apply mapM_None in Hnone. apply Exists_exists in Hnone.
    destruct Hnone as (c & Hc & Hnone). apply elem_of_seq in Hc.
    apply lookup_ge_None in Hnone. nia.
Qed.
End ArrayFacts.

(** * Facts about writing blocks *)

Section WriteFacts.
Context {F : Type} (nan : F).
Implicit Types (w : @SamplingThread F) (sd : @SampleData F).

Lemma mod_window_inj (B u t : Z) :
  0 < B -> u mod B = t mod B -> - B < u - t < B -> u = t.
Proof.
  intros HB Heq Hwin.
  pose proof (Z.div_mod u B ltac:(lia)) as Hu.
  pose proof (Z.div_mod t B ltac:(lia)) as Ht.
  assert (u / B = t / B) by nia. nia.
Qed.

Lemma zip_rows_ok (f : list F -> list F -> res (list F)) (g : list F -> list F -> list F)
    (buf vals : list (list F)) :
  (forall row v, row ∈ buf -> f row v = Ok (g row v)) ->
  Np.zip_rows f buf vals = Ok (zip_with g buf vals).
Proof.
  revert vals. induction buf as [|row buf IH]; intros vals H; [reflexivity|].
  destruct vals as [|v vals]; [reflexivity|]. cbn [Np.zip_rows zip_with].
  rewrite H by left. rewrite bind_Ok, IH, bind_Ok; [reflexivity|].
  intros row' v' Hin. apply H. right. exact Hin.
Qed.

Lemma plot_indices_length w (k : Z) :
  length (plot_indices w k) = Z.to_nat (k + white_out w).
Proof.
  unfold plot_indices, Np.arange. rewrite length_fmap, length_seqZ. f_equal. lia.
Qed.

Lemma plot_indices_lookup w (k : Z) (i : nat) :
  0 < ring_size w -> Z.of_nat i < k + white_out w ->
  plot_indices w k !! i = Some ((samples_seen w + Z.of_nat i) mod ring_size w).
Proof.
  intros HB Hi. unfold plot_indices, Np.arange.
  rewrite list_lookup_fmap, lookup_seqZ_lt by lia. simpl.
  rewrite mod_pos by assumption. do 2 f_equal.
Qed.

Lemma plot_indices_range w (k : Z) :
  0 < ring_size w ->
  Forall (fun i => 0 <= i < ring_size w) (plot_indices w k).
Proof.
  intros HB. unfold plot_indices. apply Forall_fmap, Forall_forall.
  intros i _. simpl. rewrite mod_pos by assumption. apply Z.mod_pos_bound. assumption.
Qed.

Lemma write_block_rows w sd :
  0 < ring_size w -> 0 < white_out w -> rows_ok w -> block_ok w sd ->
  exists block,
    Np.reshape_F (samples sd) (num_samples_per_sample_set sd) (num_sample_sets sd)
      = Ok block /\
    write_block nan w sd =
      Ok {| sample_rate := sample_rate w;
            window_size := window_size w;
            window_buffer :=
              zip_with (write_row nan w (Z.of_nat (num_sample_sets sd)))
                (window_buffer w) block;
            _buffer_size := _buffer_size w;
            samples_seen := samples_seen w + Z.of_nat (num_sample_sets sd);
            _downsampling_factor := _downsampling_factor w |}.
Proof.
  intros HB Hwo Hrows [Hchan Hlen].
  destruct (reshape_F_spec _ _ _ Hlen) as (block & Hblock & Hnrows & Hrow).
  exists block. split; [exact Hblock|].
  unfold write_block. rewrite Hblock, bind_Ok.
  set (k := Z.of_nat (num_sample_sets sd)).
  set (idx := plot_indices w k).
  assert (Hidxlen : length idx = (num_sample_sets sd + Z.to_nat (white_out w))%nat).
  { unfold idx. rewrite plot_indices_length. unfold k. lia. }
  assert (Hrange : Forall (fun i => 0 <= i < ring_size w) idx)
    by (apply plot_indices_range; assumption).
  rewrite slice_to_neg, slice_from_neg by assumption.
  replace (Z.to_nat (Z.of_nat (length idx) - white_out w))
    with (num_sample_sets sd) by lia.
  (* first assignment *)
  unfold Np.assign.
  assert (Hbr : Np.broadcast_rows (length (window_buffer w)) block = Ok block).
  { unfold Np.broadcast_rows. destruct (decide _) as [|Hne]; [reflexivity|].
    exfalso. apply Hne. congruence. }
  rewrite Hbr, bind_Ok.
  assert (Hbc : traverse (Np.broadcast_cols (length (take (num_sample_sets sd) idx))) block
                = Ok block).
  { rewrite <- (list_fmap_id block) at 2. apply traverse_fmap.
    intros v Hv. apply list_elem_of_lookup in Hv as [r Hr].
    destruct (Hrow r v Hr) as [Hvlen _].
    unfold Np.broadcast_cols. rewrite length_take_le by lia.
    destruct (decide _) as [|Hne]; [reflexivity|]. contradiction. }
  rewrite Hbc, bind_Ok.
  rewrite (zip_rows_ok _
    (fun row v => Np.put_all row (Z.to_nat <$> take (num_sample_sets sd) idx) v)).
  2:{ intros row v Hin. apply put_cols_in_range.
      unfold rows_ok in Hrows. rewrite Forall_forall in Hrows.
      rewrite (Hrows row Hin). apply Forall_take. exact Hrange. }
  rewrite bind_Ok.
  (* second assignment *)
  unfold Np.fill.
  rewrite (traverse_fmap _
    (fun row => Np.put_all row (Z.to_nat <$> drop (num_sample_sets sd) idx)
                  (replicate (length (drop (num_sample_sets sd) idx)) nan))).
  2:{ intros row Hin. apply put_cols_in_range.
      apply list_elem_of_lookup in Hin as [r Hr].
      apply lookup_zip_with_Some in Hr as (row0 & v & -> & Hrow0 & Hv).
      rewrite put_all_length.
      unfold rows_ok in Hrows. rewrite Forall_forall in Hrows.
      rewrite (Hrows row0) by (eapply list_elem_of_lookup_2; exact Hrow0).
      apply Forall_drop. exact Hrange. }
  rewrite bind_Ok. do 2 f_equal.
  (* the two assignments, row by row *)
  apply list_eq. intros r.
  rewrite list_lookup_fmap, !lookup_zip_with.
  destruct (window_buffer w !! r) as [row|] eqn:Hr; [|reflexivity]. simpl.
  destruct (block !! r) as [v|] eqn:Hv; [|reflexivity]. simpl. f_equal.
  destruct (Hrow r v Hv) as [Hvlen _].
  unfold write_row. fold k. fold idx.
  transitivity (Np.put_all row
    ((Z.to_nat <$> take (num_sample_sets sd) idx)
       ++ (Z.to_nat <$> drop (num_sample_sets sd) idx))
    (v ++ replicate (Z.to_nat (white_out w)) nan)).
  - rewrite put_all_app.
    + rewrite length_drop, Hidxlen. do 2 f_equal. lia.
    + rewrite length_fmap, length_take_le by lia. congruence.
  - rewrite <- fmap_app, take_drop. reflexivity.
Qed.

Lemma write_row_length w (k : Z) (row vals : list F) :
  length (write_row nan w k row vals) = length row.
Proof. apply put_all_length. Qed.

Lemma write_row_new w (k : Z) (row vals : list F) (i : Z) :
  0 < ring_size w -> 0 <= white_out w ->
  Z.of_nat (length row) = ring_size w -> Z.of_nat (length vals) = k ->
  0 <= i < k + white_out w -> k + white_out w <= i + ring_size w ->
  write_row nan w k row vals !! Z.to_nat ((samples_seen w + i) mod ring_size w)
  = Some (if i <? k then default nan (vals !! Z.to_nat i) else nan).
Proof.
  intros HB Hwo Hrow Hvals Hi Hlast. unfold write_row.
  pose proof (Z.mod_pos_bound (samples_seen w + i) (ring_size w) HB) as Hp.
  apply (put_all_lookup_last _ _ _ (Z.to_nat i)).
  - rewrite list_lookup_fmap, plot_indices_lookup by lia.
    simpl. do 3 f_equal. lia.
  - destruct (Z.ltb_spec i k).
    + rewrite lookup_app_l by lia.
      destruct (lookup_lt_is_Some_2 vals (Z.to_nat i)) as [x Hx]; [lia|].
      rewrite Hx. reflexivity.
    + rewrite lookup_app_r by lia. apply lookup_replicate_2. lia.
  - intros m q Hm Hq Heq.
    rewrite list_lookup_fmap in Hq.
    destruct (plot_indices w k !! m) as [z|] eqn:Hz; [|discriminate].
    injection Hq as <-.
    assert (Hmlt : Z.of_nat m < k + white_out w).
    { apply lookup_lt_Some in Hz. rewrite plot_indices_length in Hz. lia. }
    rewrite plot_indices_lookup in Hz by lia. injection Hz as <-.
    pose proof (Z.mod_pos_bound (samples_seen w + Z.of_nat m) (ring_size w) HB).
    apply Z2Nat.inj in Heq; [|lia|lia].
    apply mod_window_inj in Heq; lia.
  - lia.
Qed.

Lemma write_row_other w (k : Z) (row vals : list F) (p : nat) :
  0 < ring_size w ->
  (forall i, 0 <= i < k + white_out w ->
             (samples_seen w + i) mod ring_size w <> Z.of_nat p) ->
  write_row nan w k row vals !! p = row !! p.
Proof.
  intros HB Hfree. unfold write_row. apply put_all_lookup_other.
  intros Hin. apply list_elem_of_lookup in Hin as [m Hm].
  rewrite list_lookup_fmap in Hm.
  destruct (plot_indices w k !! m) as [z|] eqn:Hz; [|discriminate].
  injection Hm as <-.
  assert (Hmlt : Z.of_nat m < k + white_out w).
  { apply lookup_lt_Some in Hz. rewrite plot_indices_length in Hz. lia. }
  rewrite plot_indices_lookup in Hz by lia. injection Hz as <-.
  pose proof (Z.mod_pos_bound (samples_seen w + Z.of_nat m) (ring_size w) HB).
  apply (Hfree (Z.of_nat m)); lia.
Qed.

Lemma write_row_old w (k : Z) (row vals : list F) (t : Z) :
  0 < ring_size w ->
  samples_seen w + k + white_out w - ring_size w <= t < samples_seen w ->
  write_row nan w k row vals !! Z.to_nat (t mod ring_size w)
  = row !! Z.to_nat (t mod ring_size w).
Proof.
  intros HB Ht. apply write_row_other; [assumption|].
  intros i Hi Heq.
  pose proof (Z.mod_pos_bound t (ring_size w) HB).
  rewrite Z2Nat.id in Heq by lia.
  apply mod_window_inj in Heq; lia.
Qed.

Lemma logical_app_old (stream vals : list F) (t : Z) :
  t < Z.of_nat (length stream) -> logical nan (stream ++ vals) t = logical nan stream t.
Proof.
  intros Ht. unfold logical. destruct (Z.ltb_spec t 0); [reflexivity|].
  rewrite lookup_app_l by lia. reflexivity.
Qed.

Lemma logical_app_new (stream vals : list F) (i : Z) :
  0 <= i ->
  logical nan (stream ++ vals) (Z.of_nat (length stream) + i)
  = if i <? Z.of_nat (length vals) then default nan (vals !! Z.to_nat i) else nan.
Proof.
  intros Hi. unfold logical.
  destruct (Z.ltb_spec (Z.of_nat (length stream) + i) 0); [lia|].
  rewrite lookup_app_r by lia.
  replace (Z.to_nat (Z.of_nat (length stream) + i) - length stream)%nat
    with (Z.to_nat i) by lia.
  destruct (Z.ltb_spec i (Z.of_nat (length vals))); [reflexivity|].
  rewrite lookup_ge_None_2 by lia. reflexivity.
Qed.

Lemma block_ok_same_config w w' sd :
  same_config w w' -> block_ok w sd -> block_ok w' sd.
Proof. intros (_ & _ & _ & _ & Hlen) [H1 H2]. split; congruence. Qed.

Lemma same_config_trans w1 w2 w3 :
  same_config w1 w2 -> same_config w2 w3 -> same_config w1 w3.
Proof. unfold same_config. intuition congruence. Qed.

Lemma write_block_inv w sd (streams : nat -> list F) :
  0 < ring_size w -> 0 < white_out w -> rows_ok w -> block_ok w sd ->
  ring_holds nan w streams ->
  exists w', write_block nan w sd = Ok w' /\
    same_config w w' /\ rows_ok w' /\
    samples_seen w' = samples_seen w + Z.of_nat (num_sample_sets sd) /\
    ring_holds nan w' (fun c => streams c ++ block_channel sd c).
Proof.
  intros HB Hwo Hrows Hblk Hinv.
  destruct (write_block_rows w sd HB Hwo Hrows Hblk) as (block & Hblock & Hw).
  destruct Hblk as [Hchan Hlen].
  destruct (reshape_F_spec _ _ _ Hlen) as (block' & Hblock' & Hnrows & Hrow).
  rewrite Hblock in Hblock'. injection Hblock' as <-.
  eexists. split; [exact Hw|].
  unfold rows_ok in Hrows. rewrite Forall_forall in Hrows.
  split; [|split; [|split; [reflexivity|]]].
  - unfold same_config. simpl. repeat split.
    rewrite length_zip_with. lia.
  - unfold rows_ok. apply Forall_forall. intros row' Hin.
    apply list_elem_of_lookup in Hin as [c Hc]. simpl in Hc.
    apply lookup_zip_with_Some in Hc as (row & v & -> & Hr & Hv).
    rewrite write_row_length. unfold ring_size. simpl.
    apply (Hrows row). eapply list_elem_of_lookup_2. exact Hr.
  - intros c row' Hc. simpl in Hc.
    apply lookup_zip_with_Some in Hc as (row & v & -> & Hr & Hv).
    destruct (Hinv c row Hr) as [Hslen Hold].
    destruct (Hrow c v Hv) as [Hvlen _].
    assert (Hbc : block_channel sd c = v).
    { unfold block_channel. rewrite Hblock, Hv. reflexivity. }
    rewrite Hbc. cbn [samples_seen]. split.
    { rewrite length_app. lia. }
    change (white_out _) with (white_out w). change (ring_size _) with (ring_size w).
    intros t Ht.
    assert (Hrlen : Z.of_nat (length row) = ring_size w).
    { apply Hrows. eapply list_elem_of_lookup_2. exact Hr. }
    destruct (Z.lt_ge_cases t (samples_seen w)) as [Hlt|Hge].
    + rewrite write_row_old by lia.
      rewrite Hold by lia. rewrite logical_app_old by lia. reflexivity.
    + replace t with (samples_seen w + (t - samples_seen w)) at 1 by lia.
      rewrite write_row_new by lia.
      replace t with (Z.of_nat (length (streams c)) + (t - samples_seen w)) at 3 by lia.
      rewrite logical_app_new by lia. rewrite Hvlen. reflexivity.
Qed.

Lemma write_all_inv (sds : list (@SampleData F)) : forall w (streams : nat -> list F),
  0 < ring_size w -> 0 < white_out w -> rows_ok w ->
  Forall (block_ok w) sds ->
  ring_holds nan w streams ->
  exists w', write_all nan w sds = Ok w' /\
    same_config w w' /\ rows_ok w' /\
    samples_seen w' = samples_seen w + total_samples sds /\
    ring_holds nan w' (fun c => streams c ++ channel_stream sds c).
Proof.
  induction sds as [|sd sds IH]; intros w streams HB Hwo Hrows Hblks Hinv.
  - exists w. split; [reflexivity|]. split; [repeat split|]. split; [assumption|].
    split; [simpl; lia|].
    intros c row Hc. destruct (Hinv c row Hc) as [H1 H2].
    unfold channel_stream. simpl. rewrite app_nil_r. split; assumption.
  - apply Forall_cons in Hblks as [Hblk Hblks].
    destruct (write_block_inv w sd streams HB Hwo Hrows Hblk Hinv)
      as (w1 & Hw1 & Hcfg1 & Hrows1 & Hseen1 & Hinv1).
    pose proof Hcfg1 as (Hsr & Hws & Hbs & Hd & Hlen).
    assert (HB1 : ring_size w1 = ring_size w) by (unfold ring_size; congruence).
    assert (Hwo1 : white_out w1 = white_out w) by (unfold white_out; congruence).
    destruct (IH w1 (fun c => streams c ++ block_channel sd c))
      as (w2 & Hw2 & Hcfg2 & Hrows2 & Hseen2 & Hinv2); try assumption; try lia.
    { eapply Forall_impl; [exact Hblks|]. intros sd'. apply block_ok_same_config.
      exact Hcfg1. }
    exists w2. cbn [write_all]. rewrite Hw1, bind_Ok. split; [exact Hw2|].
    split; [eapply same_config_trans; eassumption|]. split; [assumption|].
    split; [simpl; lia|].
    intros c row Hc. destruct (Hinv2 c row Hc) as [H1 H2].
    unfold channel_stream in *. simpl. rewrite app_assoc. split; assumption.
Qed.

Lemma fresh_ring_holds w :
  0 < ring_size w -> fresh_buffer nan w -> ring_holds nan w (fun _ => []).
Proof.
  intros HB [Hseen Hrows] c row Hc. split; [simpl; lia|].
  intros t Ht. rewrite Forall_forall in Hrows.
  rewrite (Hrows row) by (eapply list_elem_of_lookup_2; exact Hc).
  pose proof (Z.mod_pos_bound t (ring_size w) HB).
  rewrite lookup_replicate_2 by lia.
  unfold logical. destruct (t <? 0); [reflexivity|].
  rewrite lookup_nil. reflexivity.
Qed.

Lemma fresh_rows_ok w : 0 < ring_size w -> fresh_buffer nan w -> rows_ok w.
Proof.
  intros HB [_ Hrows]. unfold rows_ok. eapply Forall_impl; [exact Hrows|].
  intros row ->. rewrite length_replicate. lia.
Qed.
End WriteFacts.

(** * Facts about rendering frames *)

Section RenderFacts.
Context {F : Type} (nan : F).
Implicit Types (w : @SamplingThread F).

Lemma traverse_exists {X Y : Type} (f : X -> res Y) (l : list X) :
  (forall a, a ∈ l -> exists b, f a = Ok b) -> exists l', traverse f l = Ok l'.
Proof.
  induction l as [|a l IH]; intros H; [eexists; reflexivity|].
  destruct (H a) as [b Hb]; [left|].
  destruct IH as [bs Hbs]; [intros a' Ha'; apply H; right; exact Ha'|].
  exists (b :: bs). cbn [traverse]. rewrite Hb, bind_Ok, Hbs. reflexivity.
Qed.

Lemma select_in_range (buf : list (list F)) (idx : list Z) (B : Z) :
  Forall (fun row => Z.of_nat (length row) = B) buf ->
  Forall (fun i => 0 <= i < B) idx ->
  exists sel, Np.select buf idx = Ok sel /\ length sel = length buf /\
    forall (c : nat) (row : list F), buf !! c = Some row ->
      exists out, sel !! c = Some out /\ length out = length idx /\
        forall (j : nat) (i : Z), idx !! j = Some i -> out !! j = row !! Z.to_nat i.
Proof.
  intros Hrows Hidx. rewrite Forall_forall in Hrows.
  assert (Hone : forall row, row ∈ buf ->
    exists out, Np.take_cols row idx = Ok out /\ length out = length idx /\
      forall (j : nat) (i : Z), idx !! j = Some i -> out !! j = row !! Z.to_nat i).
  { intros row Hin. apply take_cols_in_range. rewrite (Hrows row Hin). exact Hidx. }
  destruct (traverse_exists (fun row => Np.take_cols row idx) buf) as [sel Hsel].
  { intros row Hin. destruct (Hone row Hin) as (out & Hout & _). eauto. }
  exists sel. split; [exact Hsel|]. split; [eapply traverse_length; exact Hsel|].
  intros c row Hc.
  destruct (traverse_lookup _ _ _ c row Hsel Hc) as (out & Hout & Htake).
  destruct (Hone row) as (out' & Htake' & Hlen & Hget);
    [eapply list_elem_of_lookup_2; exact Hc|].
  rewrite Htake in Htake'. injection Htake' as <-. eauto.
Qed.

Lemma indices_length w : length (indices w) = Z.to_nat (window_len w).
Proof.
  unfold indices, Np.arange, window_len. rewrite length_seqZ. f_equal. lia.
Qed.

Lemma indices_lookup w (n : nat) :
  Z.of_nat n < window_len w -> indices w !! n = Some (window_start w + Z.of_nat n).
Proof.
  intros Hn. unfold indices, Np.arange, window_start, window_len in *.
  rewrite lookup_seqZ_lt by lia. reflexivity.
Qed.

Lemma scroll_idx_lookup w (n : nat) :
  0 < ring_size w -> Z.of_nat n < window_len w ->
  scroll_idx w !! n = Some ((window_start w + Z.of_nat n) mod ring_size w).
Proof.
  intros HB Hn. unfold scroll_idx.
  rewrite list_lookup_fmap, indices_lookup by assumption. simpl.
  rewrite mod_pos by assumption. reflexivity.
Qed.

Lemma scroll_idx_range w :
  0 < ring_size w -> Forall (fun i => 0 <= i < ring_size w) (scroll_idx w).
Proof.
  intros HB. unfold scroll_idx. apply Forall_fmap, Forall_forall.
  intros i _. simpl. rewrite mod_pos by assumption. apply Z.mod_pos_bound. assumption.
Qed.

Lemma split_idx_spec w :
  2 <= window_len w ->
  split_idx w = Ok (Z.to_nat ((1 - window_start w) mod window_len w)).
Proof.
  intros HW. unfold split_idx. fold (window_len w).
  pose proof (Z.mod_pos_bound (1 - window_start w) (window_len w) ltac:(lia)) as Hs.
  apply (first_where_spec _ _ _
    (window_start w + (1 - window_start w) mod window_len w)).
  - rewrite indices_lookup by lia. rewrite Z2Nat.id by lia. reflexivity.
  - rewrite mod_pos by lia. rewrite Z.add_mod_idemp_r by lia.
    replace (window_start w + (1 - window_start w)) with 1 by lia.
    rewrite Z.mod_small by lia. reflexivity.
  - intros m y Hm Hy. rewrite indices_lookup in Hy by lia. injection Hy as <-.
    rewrite mod_pos by lia. apply Z.eqb_neq. intros Heq.
    assert (Heq' : (window_start w + Z.of_nat m) mod window_len w
                   = (window_start w + (1 - window_start w) mod window_len w)
                       mod window_len w).
    { rewrite Heq. rewrite Z.add_mod_idemp_r by lia.
      replace (window_start w + (1 - window_start w)) with 1 by lia.
      rewrite Z.mod_small by lia. reflexivity. }
    apply mod_window_inj in Heq'; lia.
Qed.

Lemma sweep_index_cases w (j : Z) :
  2 <= window_len w -> 0 <= j < window_len w ->
  let s := (1 - window_start w) mod window_len w in
  sweep_index w j =
    if j + s <? window_len w then window_start w + s + j
    else window_start w + s + j - window_len w.
Proof.
  intros HW Hj s. unfold sweep_index.
  pose proof (Z.mod_pos_bound (1 - window_start w) (window_len w) ltac:(lia)) as Hs.
  fold s in Hs.
  replace (j + 1 - window_start w) with (j + (1 - window_start w)) by lia.
  rewrite <- Z.add_mod_idemp_r by lia. fold s.
  destruct (Z.ltb_spec (j + s) (window_len w)).
  - rewrite Z.mod_small by lia. lia.
  - rewrite <- (Z.mod_unique (j + s) (window_len w) 1 (j + s - window_len w)); lia.
Qed.

Lemma sweep_index_congruent w (j : Z) :
  2 <= window_len w ->
  sweep_index w j mod window_len w = (j + 1) mod window_len w.
Proof.
  intros HW. unfold sweep_index. rewrite Z.add_mod_idemp_r by lia.
  f_equal. lia.
Qed.

Lemma sweep_index_range w (j : Z) :
  2 <= window_len w ->
  window_start w <= sweep_index w j < window_start w + window_len w.
Proof.
  intros HW. unfold sweep_index.
  pose proof (Z.mod_pos_bound (j + 1 - window_start w) (window_len w) ltac:(lia)).
  lia.
Qed.

Lemma window_data_spec w :
  0 < ring_size w -> 2 <= window_len w -> rows_ok w ->
  exists frame, window_data w = Ok frame /\
    length frame = length (window_buffer w) /\
    forall (c : nat) (row : list F), window_buffer w !! c = Some row ->
      exists out, frame !! c = Some out /\
        Z.of_nat (length out) = window_len w /\
        forall j : Z, 0 <= j < window_len w ->
          out !! Z.to_nat j = row !! Z.to_nat (sweep_index w j mod ring_size w).
Proof.
  intros HB HW Hrows. unfold window_data.
  rewrite split_idx_spec, bind_Ok by assumption.
  set (s := (1 - window_start w) mod window_len w).
  pose proof (Z.mod_pos_bound (1 - window_start w) (window_len w) ltac:(lia)) as Hs.
  fold s in Hs.
  rewrite slice_from_nat, slice_to_nat.
  pose proof (scroll_idx_range w HB) as Hrange.
  assert (Hlen : length (scroll_idx w) = Z.to_nat (window_len w)).
  { unfold scroll_idx. rewrite length_fmap. apply indices_length. }
  destruct (select_in_range (window_buffer w) (drop (Z.to_nat s) (scroll_idx w))
              (ring_size w) Hrows (Forall_drop _ _ _ Hrange))
    as (tl & Htl & Htllen & Htlrow).
  destruct (select_in_range (window_buffer w) (take (Z.to_nat s) (scroll_idx w))
              (ring_size w) Hrows (Forall_take _ _ _ Hrange))
    as (hd & Hhd & Hhdlen & Hhdrow).
  rewrite Htl, bind_Ok, Hhd, bind_Ok. unfold Np.hstack.
  destruct (decide _) as [_|Hne]; [|exfalso; apply Hne; congruence].
  eexists. split; [reflexivity|]. split.
  { rewrite length_zip_with. lia. }
  intros c row Hc.
  destruct (Htlrow c row Hc) as (o1 & Ho1 & Hl1 & Hg1).
  destruct (Hhdrow c row Hc) as (o2 & Ho2 & Hl2 & Hg2).
  exists (o1 ++ o2). split.
  { rewrite lookup_zip_with, Ho1. simpl. rewrite Ho2. reflexivity. }
  rewrite length_drop in Hl1. rewrite length_take in Hl2.
  split. { rewrite length_app. lia. }
  intros j Hj. rewrite (sweep_index_cases w j HW Hj). fold s.
  destruct (Z.ltb_spec (j + s) (window_len w)).
  - rewrite lookup_app_l by lia.
    apply Hg1. rewrite lookup_drop, scroll_idx_lookup by lia.
    do 2 f_equal. lia.
  - rewrite lookup_app_r by lia.
    apply Hg2. rewrite lookup_take_lt by lia.
    rewrite scroll_idx_lookup by lia. do 2 f_equal. lia.
Qed.
End RenderFacts.

Section RenderFacts2.
Context {F : Type} (nan : F).
Implicit Types (w : @SamplingThread F).

Lemma decimate_spec (data : list (list F)) (d : Z) :
  0 < d ->
  exists frame, decimate data d = Ok frame /\ length frame = length data /\
    forall (c : nat) (raw : list F), data !! c = Some raw ->
      exists out, frame !! c = Some out /\
        Z.of_nat (length out) = (Z.of_nat (length raw) + d - 1) / d /\
        forall i : nat, out !! i = raw !! (i * Z.to_nat d)%nat.
Proof.
  intros Hd. unfold decimate. destruct (Z.eqb_spec d 0); [lia|].
  destruct (traverse_exists (fun row => Np.stride row d) data) as [frame Hframe].
  { intros raw _. destruct (stride_positive raw d Hd) as (out & Hout & _). eauto. }
  exists frame. split; [exact Hframe|]. split; [eapply traverse_length; exact Hframe|].
  intros c raw Hc.
  destruct (traverse_lookup _ _ _ c raw Hframe Hc) as (out & Hout & Hstride).
  destruct (stride_positive raw d Hd) as (out' & Hstride' & Hlen & Hget).
  rewrite Hstride in Hstride'. injection Hstride' as <-. eauto.
Qed.

Lemma render_slice_spec w :
  0 < ring_size w -> 2 <= window_len w -> 0 < _downsampling_factor w -> rows_ok w ->
  exists frame, render_slice w = Ok frame /\
    length frame = length (window_buffer w) /\
    forall (c : nat) (row : list F), window_buffer w !! c = Some row ->
      exists out, frame !! c = Some out /\
        Z.of_nat (length out)
          = (window_len w + _downsampling_factor w - 1) / _downsampling_factor w /\
        forall i : Z, 0 <= i -> i * _downsampling_factor w < window_len w ->
          out !! Z.to_nat i
          = row !! Z.to_nat (sweep_index w (i * _downsampling_factor w) mod ring_size w).
Proof.
  intros HB HW Hd Hrows.
  destruct (window_data_spec w HB HW Hrows) as (data & Hdata & Hdlen & Hdrow).
  destruct (decimate_spec data _ Hd) as (frame & Hframe & Hflen & Hfrow).
  exists frame. unfold render_slice. rewrite Hdata, bind_Ok.
  split; [exact Hframe|]. split; [congruence|].
  intros c row Hc.
  destruct (Hdrow c row Hc) as (raw & Hraw & Hrawlen & Hrawget).
  destruct (Hfrow c raw Hraw) as (out & Hout & Hlen & Hget).
  exists out. split; [exact Hout|]. split; [rewrite Hlen, Hrawlen; reflexivity|].
  intros i Hi Hlt. rewrite Hget, <- Hrawget by nia. f_equal. nia.
Qed.

Lemma ceil_div_exact (n d : Z) : 0 < d -> (d | n) -> (n + d - 1) / d = n / d.
Proof.
  intros Hd [q ->]. rewrite Z.div_mul by lia.
  symmetry. apply (Z.div_unique _ _ _ (d - 1)); lia.
Qed.
End RenderFacts2.

(** * The window size and the time-range buttons *)

Section WindowFacts.
Context {F : Type} (nan : F).
Implicit Types (w : @SamplingThread F) (p : @RealTimePlot F).

Lemma write_block_keeps_config w sd w' :
  write_block nan w sd = Ok w' ->
  sample_rate w' = sample_rate w /\ window_size w' = window_size w /\
  _buffer_size w' = _buffer_size w /\ _downsampling_factor w' = _downsampling_factor w /\
  samples_seen w' = samples_seen w + Z.of_nat (num_sample_sets sd).
Proof.
  unfold write_block. intros H.
  apply bind_Ok_inv in H as (block & _ & H).
  apply bind_Ok_inv in H as (buf1 & _ & H).
  apply bind_Ok_inv in H as (buf2 & _ & H).
  injection H as <-. repeat split.
Qed.

Lemma decrease_resized p :
  _decrease_time_range p = if 1 <=? ui_window_size p - 1 then resized p (-1) else p.
Proof.
  unfold _decrease_time_range, resized.
  destruct (Z.ltb_spec 1 (ui_window_size p)), (Z.leb_spec 1 (ui_window_size p - 1));
    try lia; reflexivity.
Qed.

Lemma increase_resized p :
  _increase_time_range p
  = if ui_window_size p + 1 <=? ui_buffer_size p then resized p 1 else p.
Proof.
  unfold _increase_time_range, resized.
  destruct (Z.ltb_spec (ui_window_size p) (ui_buffer_size p)),
           (Z.leb_spec (ui_window_size p + 1) (ui_buffer_size p));
    try lia; reflexivity.
Qed.

Lemma decrease_window_inv p : window_inv p -> window_inv (_decrease_time_range p).
Proof.
  intros (Hr & Hw & Hb). rewrite decrease_resized.
  destruct (Z.leb_spec 1 (ui_window_size p - 1)); [|repeat split; assumption || lia].
  unfold window_inv, resized. simpl. lia.
Qed.

Lemma increase_window_inv p : window_inv p -> window_inv (_increase_time_range p).
Proof.
  intros (Hr & Hw & Hb). rewrite increase_resized.
  destruct (Z.leb_spec (ui_window_size p + 1) (ui_buffer_size p));
    [|repeat split; assumption || lia].
  unfold window_inv, resized. simpl. lia.
Qed.

Lemma step_window_inv p o p' : window_inv p -> step nan p o = Ok p' -> window_inv p'.
Proof.
  intros Hinv Hstep. destruct o as [sd| | |]; simpl in Hstep.
  - apply bind_Ok_inv in Hstep as (w' & Hw' & Hstep). injection Hstep as <-.
    apply write_block_keeps_config in Hw' as (_ & Hws & Hbs & _).
    destruct Hinv as (Hr & Hw & Hb). unfold window_inv, with_worker. simpl.
    repeat split; lia.
  - apply bind_Ok_inv in Hstep as (frame & _ & Hstep). injection Hstep as <-. assumption.
  - injection Hstep as <-. apply decrease_window_inv. assumption.
  - injection Hstep as <-. apply increase_window_inv. assumption.
Qed.

Lemma run_window_inv ops : forall p p',
  window_inv p -> run nan p ops = Ok p' -> window_inv p'.
Proof.
  induction ops as [|o ops IH]; intros p p' Hinv Hrun; simpl in Hrun.
  - injection Hrun as <-. assumption.
  - apply bind_Ok_inv in Hrun as (p1 & Hstep & Hrun).
    apply (IH p1); [|assumption]. eapply step_window_inv; eassumption.
Qed.

Lemma init_window_buffer_inv (rate : Z) (channels : nat) p :
  init_window_buffer nan rate channels = Ok p -> window_inv p.
Proof.
  unfold init_window_buffer. destruct (rate * 10 <? 0); [discriminate|].
  intros [= <-]. unfold window_inv. simpl. lia.
Qed.

(** C5: in every state that the plot reaches from its initial state by
    writes, renders and clicks on the two time-range buttons, the window is
    between 1 s and the buffer duration; a click that would leave this
    range changes nothing, and any other click changes the window (of the
    GUI and of the worker) by exactly one second in the direction asked. *)
Theorem window_size_stays_in_range (rate : Z) (channels : nat) (ops : list op)
    (p0 p : @RealTimePlot F) :
  init_window_buffer nan rate channels = Ok p0 ->
  run nan p0 ops = Ok p ->
  window_inv p /\
  _decrease_time_range p = (if 1 <=? ui_window_size p - 1 then resized p (-1) else p) /\
  _increase_time_range p
    = (if ui_window_size p + 1 <=? ui_buffer_size p then resized p 1 else p) /\
  window_inv (_decrease_time_range p) /\
  window_inv (_increase_time_range p).
Proof.
  intros Hinit Hrun.
  assert (Hinv : window_inv p).
  { eapply run_window_inv; [|exact Hrun]. eapply init_window_buffer_inv. exact Hinit. }
  split; [exact Hinv|]. split; [apply decrease_resized|].
  split; [apply increase_resized|].
  split; [apply decrease_window_inv|apply increase_window_inv]; exact Hinv.
Qed.

(** * The stride of the decimation *)

(** C10: for a positive sample rate below 500 the downsampling factor is
    0; the frame is then assembled, and taking every 0-th column of it
    raises [ValueError].  For a sample rate of at least 500 the factor is
    positive and the frame is produced. *)
Theorem stride_zero_below_500 (w : @SamplingThread F) :
  0 < sample_rate w -> 0 < _buffer_size w -> 2 <= window_len w -> rows_ok w ->
  _downsampling_factor w = downsampling_factor (sample_rate w) ->
  (sample_rate w < 500 ->
     _downsampling_factor w = 0 /\
     (exists plot_data, window_data w = Ok plot_data /\
                        decimate plot_data (_downsampling_factor w) = Raise ValueError) /\
     render_slice w = Raise ValueError) /\
  (500 <= sample_rate w ->
     0 < _downsampling_factor w /\
     exists frame, render_slice w = Ok frame).
Proof.
  intros Hsr Hbs HW Hrows Hd.
  assert (HB : 0 < ring_size w) by (unfold ring_size; lia).
  split.
  - intros Hlow.
    assert (Hzero : _downsampling_factor w = 0).
    { rewrite Hd. unfold downsampling_factor. apply Z.quot_small. lia. }
    split; [exact Hzero|].
    destruct (window_data_spec w HB HW Hrows) as (data & Hdata & _).
    split.
    + exists data. split; [exact Hdata|]. rewrite Hzero. reflexivity.
    + unfold render_slice. rewrite Hdata, bind_Ok, Hzero. reflexivity.
  - intros Hhigh.
    assert (Hpos : 0 < _downsampling_factor w).
    { rewrite Hd. unfold downsampling_factor. apply Z.quot_str_pos. lia. }
    split; [exact Hpos|].
    destruct (render_slice_spec w HB HW Hpos Hrows) as (frame & Hframe & _).
    exists frame. exact Hframe.
Qed.
End WindowFacts.

(** * The polling loops *)

(** C7: with an empty queue and no stop requested, a turn of the outer
    loop of the real-time plotter does nothing at all, in particular it
    does not sleep; the same turn of the impedance plotter sleeps for one
    second. *)
Theorem empty_queue_turn_does_not_sleep {F : Type} (nan : F) (int : F -> res Z)
    (lag : bool) (w : @SamplingThread F) (sample_set : option (list F)) :
  update_samples_turn nan true lag w [] = Ok (lag, w, []) /\
  ImpedancePlot.update_samples_turn int true sample_set []
    = Ok (sample_set, [ImpedancePlot.Sleep 1000]).
Proof. split; reflexivity. Qed.

(** * The claims about writing *)

Section WriteClaims.
Context {F : Type} (nan : F).
Implicit Types (w : @SamplingThread F) (sd : @SampleData F).

Lemma total_samples_nonneg (sds : list (@SampleData F)) : 0 <= total_samples sds.
Proof. induction sds as [|sd sds IH]; simpl; lia. Qed.

Lemma white_out_quotient w : white_out w = (window_size w * sample_rate w) / 25.
Proof.
  unfold white_out. change 100 with (25 * 4).
  rewrite Z.div_mul_cancel_r by lia. reflexivity.
Qed.

Lemma same_config_sizes w w' :
  same_config w w' ->
  ring_size w' = ring_size w /\ white_out w' = white_out w /\
  window_len w' = window_len w.
Proof.
  intros (Hsr & Hws & Hbs & _). unfold ring_size, white_out, window_len.
  rewrite Hsr, Hws, Hbs. repeat split.
Qed.

Lemma block_channel_lookup w sd (c : nat) :
  block_ok w sd -> (c < num_samples_per_sample_set sd)%nat ->
  length (block_channel sd c) = num_sample_sets sd /\
  forall s : nat, (s < num_sample_sets sd)%nat ->
    block_channel sd c !! s = samples sd !! (c + s * num_samples_per_sample_set sd)%nat.
Proof.
  intros [_ Hlen] Hc.
  destruct (reshape_F_spec _ _ _ Hlen) as (block & Hblock & Hnrows & Hrow).
  unfold block_channel. rewrite Hblock.
  destruct (lookup_lt_is_Some_2 block c) as [row Hr]; [lia|].
  rewrite Hr. simpl. apply (Hrow c row Hr).
Qed.

Lemma write_block_ok w sd :
  0 < ring_size w -> 0 < white_out w -> rows_ok w -> block_ok w sd ->
  exists w', write_block nan w sd = Ok w' /\
    same_config w w' /\ rows_ok w' /\
    samples_seen w' = samples_seen w + Z.of_nat (num_sample_sets sd) /\
    forall (c : nat) (row : list F), window_buffer w !! c = Some row ->
      window_buffer w' !! c
      = Some (write_row nan w (Z.of_nat (num_sample_sets sd)) row (block_channel sd c)).
Proof.
  intros HB Hwo Hrows Hblk.
  destruct (write_block_rows nan w sd HB Hwo Hrows Hblk) as (block & Hblock & Hw).
  destruct Hblk as [Hchan Hlen].
  destruct (reshape_F_spec _ _ _ Hlen) as (block' & Hblock' & Hnrows & Hrow).
  rewrite Hblock in Hblock'. injection Hblock' as <-.
  eexists. split; [exact Hw|].
  unfold rows_ok in Hrows. rewrite Forall_forall in Hrows.
  split; [|split; [|split; [reflexivity|]]].
  - unfold same_config. simpl. repeat split.
    rewrite length_zip_with. lia.
  - unfold rows_ok. apply Forall_forall. intros row' Hin.
    apply list_elem_of_lookup in Hin as [c Hc]. simpl in Hc.
    apply lookup_zip_with_Some in Hc as (row & v & -> & Hr & Hv).
    rewrite write_row_length. unfold ring_size. simpl.
    apply (Hrows row). eapply list_elem_of_lookup_2. exact Hr.
  - intros c row Hc. simpl. rewrite lookup_zip_with, Hc. simpl.
    destruct (lookup_lt_is_Some_2 block c) as [v Hv].
    { apply lookup_lt_Some in Hc. lia. }
    rewrite Hv. simpl. unfold block_channel. rewrite Hblock, Hv. reflexivity.
Qed.

Lemma write_all_ok (sds : list (@SampleData F)) : forall w,
  0 < ring_size w -> 0 < white_out w -> rows_ok w -> Forall (block_ok w) sds ->
  exists w', write_all nan w sds = Ok w' /\
    same_config w w' /\ rows_ok w' /\
    samples_seen w' = samples_seen w + total_samples sds.
Proof.
  induction sds as [|sd sds IH]; intros w HB Hwo Hrows Hblks.
  - exists w. split; [reflexivity|]. split; [repeat split|]. split; [assumption|].
    simpl. lia.
  - apply Forall_cons in Hblks as [Hblk Hblks].
    destruct (write_block_ok w sd HB Hwo Hrows Hblk)
      as (w1 & Hw1 & Hcfg1 & Hrows1 & Hseen1 & _).
    destruct (same_config_sizes _ _ Hcfg1) as (HB1 & Hwo1 & _).
    destruct (IH w1) as (w2 & Hw2 & Hcfg2 & Hrows2 & Hseen2); try lia; try assumption.
    { eapply Forall_impl; [exact Hblks|]. intros sd'.
      apply block_ok_same_config. exact Hcfg1. }
    exists w2. cbn [write_all]. rewrite Hw1, bind_Ok. split; [exact Hw2|].
    split; [eapply same_config_trans; eassumption|]. split; [assumption|].
    simpl. lia.
Qed.

(** C3: a block of [k] samples per channel is written at the ring
    indices [(samples_seen + i) mod ring_size] for [i] in [0, k + w), where
    [w] is the white-out width: the first [k] slots receive the samples of
    the block, the last [w] slots the gap value, every other slot is left
    as it was, and [samples_seen] grows by exactly [k]; over a whole
    sequence of blocks it grows by the total number of samples and never
    decreases. *)
Theorem write_block_spec w sd :
  0 < ring_size w -> 0 < white_out w -> rows_ok w -> block_ok w sd ->
  let k := Z.of_nat (num_sample_sets sd) in
  white_out w = (window_size w * sample_rate w) / 25 /\
  plot_indices w k
    = (fun i => (samples_seen w + i) mod ring_size w) <$> seqZ 0 (k + white_out w) /\
  (exists w', write_block nan w sd = Ok w' /\
     samples_seen w' = samples_seen w + k /\
     same_config w w' /\ rows_ok w' /\
     forall (c : nat) (row : list F), window_buffer w !! c = Some row ->
       exists row', window_buffer w' !! c = Some row' /\
         (forall i : Z, 0 <= i < k + white_out w -> k + white_out w <= i + ring_size w ->
            row' !! Z.to_nat ((samples_seen w + i) mod ring_size w)
            = if i <? k then block_channel sd c !! Z.to_nat i else Some nan) /\
         (forall p : nat,
            (forall i : Z, 0 <= i < k + white_out w ->
                           (samples_seen w + i) mod ring_size w <> Z.of_nat p) ->
            row' !! p = row !! p)) /\
  (forall sds, Forall (block_ok w) sds ->
     exists w', write_all nan w sds = Ok w' /\
       samples_seen w' = samples_seen w + total_samples sds /\
       samples_seen w <= samples_seen w').
Proof.
  intros HB Hwo Hrows Hblk k.
  split; [apply white_out_quotient|]. split.
  { unfold plot_indices, Np.arange. replace (k + white_out w - 0) with (k + white_out w) by lia.
    apply list_fmap_ext. intros _ i _. apply mod_pos. assumption. }
  split.
  - destruct (write_block_ok w sd HB Hwo Hrows Hblk)
      as (w' & Hw' & Hcfg & Hrows' & Hseen & Hbuf).
    exists w'. split; [exact Hw'|]. split; [exact Hseen|]. split; [exact Hcfg|].
    split; [exact Hrows'|].
    intros c row Hc. eexists. split; [apply Hbuf; exact Hc|].
    assert (Hrlen : Z.of_nat (length row) = ring_size w).
    { unfold rows_ok in Hrows. rewrite Forall_forall in Hrows.
      apply Hrows. eapply list_elem_of_lookup_2. exact Hc. }
    assert (Hcc : (c < num_samples_per_sample_set sd)%nat).
    { destruct Hblk as [-> _]. eapply lookup_lt_Some. exact Hc. }
    destruct (block_channel_lookup w sd c Hblk Hcc) as [Hvlen _].
    split.
    + intros i Hi Hlast. rewrite write_row_new by (fold k; lia). fold k.
      destruct (Z.ltb_spec i k); [|reflexivity].
      destruct (lookup_lt_is_Some_2 (block_channel sd c) (Z.to_nat i)) as [x Hx]; [lia|].
      rewrite Hx. reflexivity.
    + intros p Hfree. apply write_row_other; assumption.
  - intros sds Hblks.
    destruct (write_all_ok sds w HB Hwo Hrows Hblks) as (w' & Hw' & _ & _ & Hseen).
    exists w'. split; [exact Hw'|]. split; [exact Hseen|].
    pose proof (total_samples_nonneg sds). lia.
Qed.

(** C8 (as the code has it): the payload is laid out sample set by sample
    set, so the sample written for channel [c] at in-block position [s] is
    [samples[s * num_channels + c]], where [num_channels] is
    [num_samples_per_sample_set]. *)
Theorem write_block_payload_layout w sd :
  0 < ring_size w -> 0 < white_out w -> rows_ok w -> block_ok w sd ->
  exists w', write_block nan w sd = Ok w' /\
    forall c s : nat,
      (c < num_samples_per_sample_set sd)%nat -> (s < num_sample_sets sd)%nat ->
      Z.of_nat (num_sample_sets sd) + white_out w <= Z.of_nat s + ring_size w ->
      exists row', window_buffer w' !! c = Some row' /\
        row' !! Z.to_nat ((samples_seen w + Z.of_nat s) mod ring_size w)
        = samples sd !! (s * num_samples_per_sample_set sd + c)%nat.
Proof.
  intros HB Hwo Hrows Hblk.
  destruct (write_block_ok w sd HB Hwo Hrows Hblk)
    as (w' & Hw' & Hcfg & Hrows' & Hseen & Hbuf).
  exists w'. split; [exact Hw'|]. intros c s Hc Hs Hlast.
  destruct (lookup_lt_is_Some_2 (window_buffer w) c) as [row Hr].
  { destruct Hblk as [<- _]. exact Hc. }
  eexists. split; [apply Hbuf; exact Hr|].
  assert (Hrlen : Z.of_nat (length row) = ring_size w).
  { unfold rows_ok in Hrows. rewrite Forall_forall in Hrows.
    apply Hrows. eapply list_elem_of_lookup_2. exact Hr. }
  destruct (block_channel_lookup w sd c Hblk Hc) as [Hvlen Hget].
  rewrite write_row_new by lia.
  destruct (Z.ltb_spec (Z.of_nat s) (Z.of_nat (num_sample_sets sd))); [|lia].
  rewrite Nat2Z.id. rewrite <- (Nat.add_comm c), <- Hget by assumption.
  destruct (lookup_lt_is_Some_2 (block_channel sd c) s) as [x Hx]; [lia|].
  rewrite Hx. reflexivity.
Qed.
End WriteClaims.

(** * Lag mode *)

Section LagMode.
Context {F : Type} (nan : F).
Implicit Types (w : @SamplingThread F) (sd : @SampleData F).

Lemma write_block_samples_seen w sd w' :
  write_block nan w sd = Ok w' ->
  samples_seen w' = samples_seen w + Z.of_nat (num_sample_sets sd).
Proof.
  unfold write_block. intros H.
  apply bind_Ok_inv in H as (block & _ & H).
  apply bind_Ok_inv in H as (buf1 & _ & H).
  apply bind_Ok_inv in H as (buf2 & _ & H).
  injection H as <-. reflexivity.
Qed.

Lemma write_all_samples_seen (sds : list (@SampleData F)) : forall w w',
  write_all nan w sds = Ok w' -> samples_seen w' = samples_seen w + total_samples sds.
Proof.
  induction sds as [|sd sds IH]; intros w w' H; cbn [write_all] in H.
  - injection H as <-. simpl. lia.
  - apply bind_Ok_inv in H as (w1 & Hw1 & H).
    rewrite (IH _ _ H), (write_block_samples_seen _ _ _ Hw1).
    cbn [total_samples foldr]. fold (total_samples sds). lia.
Qed.

(** What a successful write leaves in the ring of every channel. *)
Lemma write_block_holds_block w sd w' :
  0 < ring_size w -> 0 < white_out w -> rows_ok w -> block_ok w sd ->
  write_block nan w sd = Ok w' ->
  let k := Z.of_nat (num_sample_sets sd) in
  same_config w w' /\ rows_ok w' /\
  forall (c : nat) (row : list F), window_buffer w !! c = Some row ->
    exists row', window_buffer w' !! c = Some row' /\
      (forall i : Z, 0 <= i < k + white_out w -> k + white_out w <= i + ring_size w ->
         row' !! Z.to_nat ((samples_seen w + i) mod ring_size w)
         = if i <? k then block_channel sd c !! Z.to_nat i else Some nan) /\
      (forall p : nat,
         (forall i : Z, 0 <= i < k + white_out w ->
                        (samples_seen w + i) mod ring_size w <> Z.of_nat p) ->
         row' !! p = row !! p).
Proof.
  intros HB Hwo Hrows Hblk Hw k.
  destruct (write_block_ok nan w sd HB Hwo Hrows Hblk)
    as (w1 & Hw1 & Hcfg & Hrows' & _ & Hbuf).
  rewrite Hw in Hw1. injection Hw1 as <-.
  split; [exact Hcfg|]. split; [exact Hrows'|].
  intros c row Hc. eexists. split; [apply Hbuf; exact Hc|].
  assert (Hrlen : Z.of_nat (length row) = ring_size w).
  { unfold rows_ok in Hrows. rewrite Forall_forall in Hrows.
    apply Hrows. eapply list_elem_of_lookup_2. exact Hc. }
  assert (Hcc : (c < num_samples_per_sample_set sd)%nat).
  { destruct Hblk as [-> _]. eapply lookup_lt_Some. exact Hc. }
  destruct (block_channel_lookup w sd c Hblk Hcc) as [Hvlen _].
  split.
  - intros i Hi Hlast. rewrite write_row_new by (fold k; lia). fold k.
    destruct (Z.ltb_spec i k); [|reflexivity].
    destruct (lookup_lt_is_Some_2 (block_channel sd c) (Z.to_nat i)) as [x Hx]; [lia|].
    rewrite Hx. reflexivity.
  - intros p Hfree. apply write_row_other; assumption.
Qed.

Lemma update_samples_body_lag (lag : bool) (depth1 depth2 : Z) w sd w' :
  update_lag lag depth1 depth2 = true ->
  write_block nan w sd = Ok w' ->
  exists ev, update_samples_body nan lag depth1 depth2 w sd = Ok (true, w', ev) /\
             forall frame, Emit frame ∉ ev.
Proof.
  intros Hlag Hw'. unfold update_samples_body. rewrite Hw', bind_Ok, Hlag.
  eexists. split; [reflexivity|].
  intros frame Hin. apply elem_of_app in Hin as [Hin|Hin].
  - destruct (10 <? depth1); [|inversion Hin].
    apply list_elem_of_singleton in Hin. discriminate.
  - apply list_elem_of_singleton in Hin. discriminate.
Qed.

Lemma drain_writes_all (q : list (@SampleData F)) : forall lag w lag' w' ev,
  drain nan lag w q = Ok (lag', w', ev) -> write_all nan w q = Ok w'.
Proof.
  induction q as [|sd q IH]; intros lag w lag' w' ev H.
  - injection H as <- <- <-. reflexivity.
  - cbn [drain] in H.
    apply bind_Ok_inv in H as ([[lag1 w1] ev1] & Hbody & H).
    apply bind_Ok_inv in H as ([[lag2 w2] ev2] & Hrest & H).
    injection H as <- <- <-.
    unfold update_samples_body in Hbody.
    apply bind_Ok_inv in Hbody as (w1' & Hw1 & Hbody).
    assert (w1' = w1) as ->.
    { destruct (update_lag _ _ _).
      - injection Hbody as _ ->. reflexivity.
      - apply bind_Ok_inv in Hbody as (plot & _ & Hbody).
        injection Hbody as _ ->. reflexivity. }
    cbn [write_all]. rewrite Hw1, bind_Ok. eapply IH. exact Hrest.
Qed.

(** C6: lag mode is entered exactly when the first depth reading exceeds
    10 and is left exactly when the readings are at most 10 and below 6.
    A turn of the loop always writes the block it took from the queue and
    advances [samples_seen] by the length of the block; in lag mode it
    emits no frame and cannot fail on rendering; outside lag mode it emits
    the rendered frame.  In lag mode, on a well-formed buffer and block,
    the turn returns and the ring of every channel then holds the samples
    of the block at the slots [(samples_seen + i) mod ring_size], followed
    by the white-out, with every other slot as before.  The inner loop
    writes every block of the queue, whatever the mode, and advances
    [samples_seen] by the total number of samples. *)
Theorem lag_mode_hysteresis (lag : bool) (depth1 depth2 : Z)
    (w : @SamplingThread F) (sd : @SampleData F) :
  (update_lag false depth1 depth2 = true <-> 10 < depth1) /\
  (update_lag true depth1 depth2 = false <-> depth1 <= 10 /\ depth2 < 6) /\
  (forall lag' w' ev,
      update_samples_body nan lag depth1 depth2 w sd = Ok (lag', w', ev) ->
      lag' = update_lag lag depth1 depth2 /\
      write_block nan w sd = Ok w' /\
      samples_seen w' = samples_seen w + Z.of_nat (num_sample_sets sd) /\
      (lag' = true -> forall frame, Emit frame ∉ ev) /\
      (lag' = false -> exists frame, render_slice w' = Ok frame /\ Emit frame ∈ ev)) /\
  (forall w', update_lag lag depth1 depth2 = true ->
      write_block nan w sd = Ok w' ->
      exists ev, update_samples_body nan lag depth1 depth2 w sd = Ok (true, w', ev)) /\
  (0 < ring_size w -> 0 < white_out w -> rows_ok w -> block_ok w sd ->
   update_lag lag depth1 depth2 = true ->
   let k := Z.of_nat (num_sample_sets sd) in
   exists w' ev,
     update_samples_body nan lag depth1 depth2 w sd = Ok (true, w', ev) /\
     (forall frame, Emit frame ∉ ev) /\
     samples_seen w' = samples_seen w + k /\
     same_config w w' /\ rows_ok w' /\
     forall (c : nat) (row : list F), window_buffer w !! c = Some row ->
       exists row', window_buffer w' !! c = Some row' /\
         (forall i : Z, 0 <= i < k + white_out w -> k + white_out w <= i + ring_size w ->
            row' !! Z.to_nat ((samples_seen w + i) mod ring_size w)
            = if i <? k then block_channel sd c !! Z.to_nat i else Some nan) /\
         (forall p : nat,
            (forall i : Z, 0 <= i < k + white_out w ->
                           (samples_seen w + i) mod ring_size w <> Z.of_nat p) ->
            row' !! p = row !! p)) /\
  (forall q lag' w' ev,
      drain nan lag w q = Ok (lag', w', ev) ->
      write_all nan w q = Ok w' /\
      samples_seen w' = samples_seen w + total_samples q).
Proof.
  split; [|split; [|split; [|split; [|split]]]].
  - unfold update_lag. destruct (Z.ltb_spec 10 depth1), (Z.ltb_spec depth2 6);
      split; intros; try lia; try reflexivity; discriminate.
  - unfold update_lag. destruct (Z.ltb_spec 10 depth1), (Z.ltb_spec depth2 6);
      split; intros; try lia; try reflexivity; discriminate.
  - intros lag' w' ev H. unfold update_samples_body in H.
    apply bind_Ok_inv in H as (w1 & Hw1 & H).
    pose proof (write_block_samples_seen _ _ _ Hw1) as Hseen.
    destruct (update_lag lag depth1 depth2) eqn:Hlag.
    + injection H as <- <- <-. split; [reflexivity|]. split; [assumption|].
      split; [assumption|]. split; [|discriminate].
      intros _ frame Hin. apply elem_of_app in Hin as [Hin|Hin].
      * destruct (10 <? depth1); [|inversion Hin].
        apply list_elem_of_singleton in Hin. discriminate.
      * apply list_elem_of_singleton in Hin. discriminate.
    + apply bind_Ok_inv in H as (plot & Hplot & H).
      injection H as <- <- <-. split; [reflexivity|]. split; [assumption|].
      split; [assumption|].
      split; [discriminate|]. intros _. exists plot. split; [assumption|].
      apply elem_of_app. right. left.
  - intros w' Hlag Hw'.
    destruct (update_samples_body_lag lag depth1 depth2 w sd w' Hlag Hw') as (ev & Hev & _).
    exists ev. exact Hev.
  - intros HB Hwo Hrows Hblk Hlag k.
    destruct (write_block_ok nan w sd HB Hwo Hrows Hblk) as (w' & Hw' & _).
    destruct (update_samples_body_lag lag depth1 depth2 w sd w' Hlag Hw') as (ev & Hev & Hno).
    destruct (write_block_holds_block w sd w' HB Hwo Hrows Hblk Hw')
      as (Hcfg & Hrows' & Hbuf).
    exists w', ev. split; [exact Hev|]. split; [exact Hno|].
    split; [apply write_block_samples_seen; exact Hw'|].
    split; [exact Hcfg|]. split; [exact Hrows'|]. exact Hbuf.
  - intros q lag' w' ev H.
    pose proof (drain_writes_all q _ _ _ _ _ H) as Hall.
    split; [exact Hall|]. apply write_all_samples_seen. exact Hall.
Qed.
End LagMode.

(** * The claims about rendering *)

Section RenderClaims.
Context {F : Type} (nan : F).
Implicit Types (w : @SamplingThread F) (sd : @SampleData F).

Lemma sweep_index_inj w (j j' : Z) :
  2 <= window_len w -> 0 <= j < window_len w -> 0 <= j' < window_len w ->
  sweep_index w j = sweep_index w j' -> j = j'.
Proof.
  intros HW Hj Hj' Heq.
  assert (Hmod : (j + 1) mod window_len w = (j' + 1) mod window_len w).
  { rewrite <- !sweep_index_congruent by assumption. rewrite Heq. reflexivity. }
  apply mod_window_inj in Hmod; lia.
Qed.

Lemma sweep_index_succ w (j : Z) :
  2 <= window_len w -> 0 <= j -> j + 1 < window_len w ->
  sweep_index w (j + 1) =
    if sweep_index w j =? window_start w + window_len w - 1 then window_start w
    else sweep_index w j + 1.
Proof.
  intros HW Hj Hj1.
  rewrite (sweep_index_cases w j) by lia.
  rewrite (sweep_index_cases w (j + 1)) by lia.
  pose proof (Z.mod_pos_bound (1 - window_start w) (window_len w) ltac:(lia)) as Hs.
  set (s := (1 - window_start w) mod window_len w) in *.
  destruct (Z.ltb_spec (j + s) (window_len w)), (Z.ltb_spec (j + 1 + s) (window_len w));
    try lia.
  - destruct (Z.eqb_spec (window_start w + s + j) (window_start w + window_len w - 1)); lia.
  - destruct (Z.eqb_spec (window_start w + s + j) (window_start w + window_len w - 1)); lia.
  - destruct (Z.eqb_spec (window_start w + s + j - window_len w)
                (window_start w + window_len w - 1)); lia.
Qed.

(** After any sequence of blocks written into a fresh buffer, the ring
    holds, for every logical index of the last [ring_size] ones up to the
    end of the white-out region, the sample with that index, or the gap
    value where there is none. *)
Lemma ring_after_writes w0 (sds : list (@SampleData F)) :
  fresh_buffer nan w0 -> 0 < ring_size w0 -> 0 < white_out w0 ->
  Forall (block_ok w0) sds ->
  exists w, write_all nan w0 sds = Ok w /\ same_config w0 w /\ rows_ok w /\
    samples_seen w = total_samples sds /\
    ring_holds nan w (channel_stream sds).
Proof.
  intros Hfresh HB Hwo Hblks.
  destruct (write_all_inv nan sds w0 (fun _ => []) HB Hwo
              (fresh_rows_ok nan w0 HB Hfresh) Hblks (fresh_ring_holds nan w0 HB Hfresh))
    as (w & Hw & Hcfg & Hrows & Hseen & Hinv).
  exists w. split; [exact Hw|]. split; [exact Hcfg|]. split; [exact Hrows|].
  destruct Hfresh as [Hzero _]. split; [lia|]. exact Hinv.
Qed.

Lemma ring_holds_window w (streams : nat -> list F) (c : nat) (row : list F) (j : Z) :
  ring_holds nan w streams -> 2 <= window_len w <= ring_size w ->
  window_buffer w !! c = Some row ->
  row !! Z.to_nat (sweep_index w j mod ring_size w)
  = Some (logical nan (streams c) (sweep_index w j)).
Proof.
  intros Hinv HW Hc. destruct (Hinv c row Hc) as [_ Hget]. apply Hget.
  pose proof (sweep_index_range w j ltac:(lia)) as Hr.
  unfold window_start, window_len in *. lia.
Qed.

(** C4: whatever the buffer holds, the frame has one row per channel and
    every row has the same length, the window length divided by the
    downsampling factor (rounded up when the division is not exact); every
    entry of the frame is an entry of the ring buffer, copied as it is; and
    in a buffer that was fresh before the blocks were written, the entries
    whose logical index is before the first sample or after the last one
    are the gap value. *)
Theorem render_slice_fixed_length w :
  0 < ring_size w -> 2 <= window_len w -> 0 < _downsampling_factor w -> rows_ok w ->
  exists frame, render_slice w = Ok frame /\
    length frame = length (window_buffer w) /\
    (forall (c : nat) (row : list F), window_buffer w !! c = Some row ->
       exists out, frame !! c = Some out /\
         Z.of_nat (length out)
           = (window_len w + _downsampling_factor w - 1) / _downsampling_factor w /\
         ((_downsampling_factor w | window_len w) ->
            Z.of_nat (length out) = window_len w / _downsampling_factor w) /\
         forall i : Z, 0 <= i -> i * _downsampling_factor w < window_len w ->
           out !! Z.to_nat i
           = row !! Z.to_nat (sweep_index w (i * _downsampling_factor w) mod ring_size w)) /\
    (forall w0 sds, fresh_buffer nan w0 -> 0 < white_out w0 -> window_len w0 <= ring_size w0 ->
       Forall (block_ok w0) sds -> write_all nan w0 sds = Ok w ->
       forall (c : nat) (out : list F) (i : Z), frame !! c = Some out ->
         0 <= i -> i * _downsampling_factor w < window_len w ->
         sweep_index w (i * _downsampling_factor w) < 0 \/
           samples_seen w <= sweep_index w (i * _downsampling_factor w) ->
         out !! Z.to_nat i = Some nan).
Proof.
  intros HB HW Hd Hrows.
  destruct (render_slice_spec w HB HW Hd Hrows) as (frame & Hframe & Hflen & Hfrow).
  exists frame. split; [exact Hframe|]. split; [exact Hflen|]. split.
  - intros c row Hc. destruct (Hfrow c row Hc) as (out & Hout & Hlen & Hget).
    exists out. split; [exact Hout|]. split; [exact Hlen|]. split; [|exact Hget].
    intros Hdiv. rewrite Hlen. apply ceil_div_exact; assumption.
  - intros w0 sds Hfresh Hwo0 HWB Hblks Hw c out i Hout Hi Hlt Hgap.
    assert (HB0 : 0 < ring_size w0).
    { destruct (Z.lt_ge_cases 0 (ring_size w0)) as [|Hle]; [assumption|].
      exfalso. destruct sds as [|sd sds].
      - injection Hw as ->. lia.
      - apply Forall_cons in Hblks as [_ _]. cbn [write_all] in Hw.
        apply bind_Ok_inv in Hw as (w1 & Hw1 & Hw).
        pose proof (write_block_keeps_config nan _ _ _ Hw1) as (Hsr & Hws & Hbs & _).
        assert (Hcfg : forall (q : list SampleData) (wa wb : @SamplingThread F),
                   write_all nan wa q = Ok wb -> ring_size wb = ring_size wa).
        { induction q as [|sd' q IHq]; intros wa wb Hq.
          - injection Hq as ->. reflexivity.
          - cbn [write_all] in Hq. apply bind_Ok_inv in Hq as (wc & Hwc & Hq).
            pose proof (write_block_keeps_config nan _ _ _ Hwc) as (Hsr' & _ & Hbs' & _).
            rewrite (IHq _ _ Hq). unfold ring_size. congruence. }
        apply Hcfg in Hw. unfold ring_size in *. rewrite Hw, Hsr, Hbs in HB. lia. }
    destruct (ring_after_writes w0 sds Hfresh HB0 Hwo0 Hblks)
      as (w' & Hw' & Hcfg & _ & Hseen & Hinv).
    rewrite Hw in Hw'. injection Hw' as <-.
    destruct (lookup_lt_is_Some_2 (window_buffer w) c) as [row Hc].
    { rewrite <- Hflen. eapply lookup_lt_Some. exact Hout. }
    destruct (Hfrow c row Hc) as (out' & Hout' & _ & Hget).
    rewrite Hout in Hout'. injection Hout' as <-.
    rewrite Hget by assumption.
    destruct (same_config_sizes _ _ Hcfg) as (HBeq & _ & HWeq).
    rewrite (ring_holds_window w (channel_stream sds) c row) by (assumption || lia).
    f_equal. destruct (Hinv c row Hc) as [Hslen _].
    unfold logical. destruct (Z.ltb_spec (sweep_index w (i * _downsampling_factor w)) 0);
      [reflexivity|].
    destruct Hgap as [Hneg|Hlate]; [lia|].
    rewrite lookup_ge_None_2 by lia. reflexivity.
Qed.

(** C1 (as the code has it): after any sequence of blocks written into a
    fresh buffer, the window data of every channel has one entry for each
    logical index of the window, which ends with the white-out region;
    entry [j] is the sample whose logical index is [sweep_index w j], the
    index of the window congruent to [j + 1] modulo the window length, or
    the gap value where there is no sample.  No index of the window appears
    twice, and consecutive entries hold consecutive logical indices except
    at one seam, where the last index of the window is followed by its
    first one.  The frame takes every [d]-th entry of the window data. *)
Theorem render_slice_after_writes w0 (sds : list (@SampleData F)) :
  fresh_buffer nan w0 -> 0 < white_out w0 -> 2 <= window_len w0 <= ring_size w0 ->
  0 < _downsampling_factor w0 -> Forall (block_ok w0) sds ->
  exists w plot_data frame,
    write_all nan w0 sds = Ok w /\
    samples_seen w = total_samples sds /\
    window_start w = samples_seen w + white_out w - window_len w /\
    window_data w = Ok plot_data /\
    decimate plot_data (_downsampling_factor w) = Ok frame /\
    render_slice w = Ok frame /\
    (forall c : nat, (c < length (window_buffer w0))%nat ->
       exists raw out, plot_data !! c = Some raw /\ frame !! c = Some out /\
         Z.of_nat (length raw) = window_len w /\
         (forall j : Z, 0 <= j < window_len w ->
            raw !! Z.to_nat j
            = Some (logical nan (channel_stream sds c) (sweep_index w j))) /\
         (forall i : nat, out !! i = raw !! (i * Z.to_nat (_downsampling_factor w))%nat)) /\
    (forall j : Z, 0 <= j < window_len w ->
       window_start w <= sweep_index w j < window_start w + window_len w /\
       sweep_index w j mod window_len w = (j + 1) mod window_len w) /\
    (forall j j' : Z, 0 <= j < window_len w -> 0 <= j' < window_len w ->
       sweep_index w j = sweep_index w j' -> j = j') /\
    (forall j : Z, 0 <= j -> j + 1 < window_len w ->
       sweep_index w (j + 1) =
         if sweep_index w j =? window_start w + window_len w - 1 then window_start w
         else sweep_index w j + 1).
Proof.
  intros Hfresh Hwo0 HW0 Hd0 Hblks.
  assert (HB0 : 0 < ring_size w0) by lia.
  destruct (ring_after_writes w0 sds Hfresh HB0 Hwo0 Hblks)
    as (w & Hw & Hcfg & Hrows & Hseen & Hinv).
  destruct (same_config_sizes _ _ Hcfg) as (HBeq & Hwoeq & HWeq).
  pose proof Hcfg as (_ & _ & _ & Hdeq & Hchan).
  assert (HB : 0 < ring_size w) by lia.
  assert (HW : 2 <= window_len w <= ring_size w) by lia.
  assert (Hd : 0 < _downsampling_factor w) by lia.
  destruct (window_data_spec w HB (proj1 HW) Hrows) as (data & Hdata & Hdlen & Hdrow).
  destruct (decimate_spec data _ Hd) as (frame & Hframe & Hflen & Hfrow).
  exists w, data, frame.
  split; [exact Hw|]. split; [exact Hseen|].
  split; [unfold window_start, window_len; lia|].
  split; [exact Hdata|]. split; [exact Hframe|].
  split; [unfold render_slice; rewrite Hdata, bind_Ok; exact Hframe|].
  split; [|split; [|split]].
  - intros c Hc.
    destruct (lookup_lt_is_Some_2 (window_buffer w) c) as [row Hr]; [lia|].
    destruct (Hdrow c row Hr) as (raw & Hraw & Hrawlen & Hrawget).
    destruct (Hfrow c raw Hraw) as (out & Hout & _ & Hget).
    exists raw, out. split; [exact Hraw|]. split; [exact Hout|].
    split; [exact Hrawlen|]. split; [|exact Hget].
    intros j Hj. rewrite Hrawget by assumption.
    apply ring_holds_window; assumption.
  - intros j Hj. split; [apply sweep_index_range|apply sweep_index_congruent]; lia.
  - intros j j' Hj Hj'. apply sweep_index_inj; lia.
  - intros j Hj Hj1. apply sweep_index_succ; lia.
Qed.
End RenderClaims.

(** * The impedance colour table *)

Ltac branch_on_test :=
  match goal with
  | |- context [if ?a <? ?b then _ else _] => destruct (Z.ltb_spec a b)
  | |- context [if (?a <=? ?b) && _ then _ else _] =>
      destruct (Z.leb_spec a b); cbn [andb]
  | |- context [if ?a =? ?b then _ else _] => destruct (Z.eqb_spec a b)
  end.

Ltac settle_lookup :=
  split; split;
  [ intros Heq; try discriminate Heq; lia
  | intros Hcase; try reflexivity; exfalso; lia
  | intros [color Heq]; try discriminate Heq; lia
  | intros Hcase; try (eexists; reflexivity); exfalso; lia ].

(** C9: the colour lookup is partial.  It raises [UnboundLocalError]
    exactly for the values strictly between 500 and 5000, strictly between
    5000 and 5100, strictly between 5100 and 5200 and above 5200, and it
    returns a colour exactly for the values below 500 and for 500, 5000,
    5100 and 5200. *)
Theorem lookup_table_partial (value : Z) :
  (ImpedancePlot._lookup_table value = Raise UnboundLocalError <->
     500 < value < 5000 \/ 5000 < value < 5100 \/ 5100 < value < 5200 \/ 5200 < value) /\
  ((exists color, ImpedancePlot._lookup_table value = Ok color) <->
     value < 500 \/ value = 500 \/ value = 5000 \/ value = 5100 \/ value = 5200).
Proof.
  unfold ImpedancePlot._lookup_table.
  repeat (branch_on_test; [solve [settle_lookup] | ]).
  all: try solve [settle_lookup].
  all: repeat (branch_on_test; try solve [settle_lookup]).
Qed.

(** * The frame in closed form *)

Section ClosedForm.
Context {F : Type} (nan : F).
Implicit Types (w : @SamplingThread F).

(** The frame of a buffer that holds the streams [streams]: entry [i] of
    channel [c] is the sample of the stream with the logical index
    [sweep_index w (i * d)]. *)
Lemma render_of_ring w (streams : nat -> list F) :
  0 < ring_size w -> 2 <= window_len w <= ring_size w ->
  0 < _downsampling_factor w -> rows_ok w -> ring_holds nan w streams ->
  render_slice w =
    Ok ((fun c : nat =>
           (fun i => logical nan (streams c) (sweep_index w (i * _downsampling_factor w)))
             <$> seqZ 0 ((window_len w + _downsampling_factor w - 1)
                           / _downsampling_factor w))
          <$> seq 0 (length (window_buffer w))).
Proof.
  intros HB HW Hd Hrows Hinv.
  destruct (render_slice_spec w HB (proj1 HW) Hd Hrows) as (frame & Hframe & Hflen & Hfrow).
  rewrite Hframe. f_equal. apply list_eq. intros c.
  rewrite list_lookup_fmap.
  destruct (Nat.lt_ge_cases c (length (window_buffer w))) as [Hc|Hc].
  - rewrite lookup_seq_lt by assumption. simpl.
    destruct (lookup_lt_is_Some_2 (window_buffer w) c Hc) as [row Hr].
    destruct (Hfrow c row Hr) as (out & Hout & Hlen & Hget).
    rewrite Hout. f_equal. apply list_eq. intros i.
    rewrite list_lookup_fmap.
    set (L := (window_len w + _downsampling_factor w - 1) / _downsampling_factor w) in *.
    assert (HL : forall j : Z, 0 <= j -> (j < L <-> j * _downsampling_factor w < window_len w)).
    { intros j Hj.
      pose proof (Z.mul_div_le (window_len w + _downsampling_factor w - 1)
                    (_downsampling_factor w) Hd) as Hlow.
      pose proof (Z.mul_succ_div_gt (window_len w + _downsampling_factor w - 1)
                    (_downsampling_factor w) Hd) as Hup.
      fold L in Hlow, Hup. split; intros Hlt; nia. }
    destruct (Z.lt_ge_cases (Z.of_nat i) L) as [Hi|Hi].
    + rewrite lookup_seqZ_lt by lia. simpl.
      rewrite <- (Nat2Z.id i) at 1. rewrite Hget by (try apply HL; lia).
      apply (ring_holds_window nan w streams c row); assumption.
    + rewrite lookup_seqZ_ge by lia. simpl. apply lookup_ge_None. lia.
  - rewrite lookup_ge_None_2 by (rewrite Hflen; lia).
    rewrite lookup_ge_None_2 by (rewrite length_seq; lia). reflexivity.
Qed.
End ClosedForm.

(** * The scenarios *)

Lemma init_window_buffer_plot (rate : Z) (channels : nat) :
  0 <= rate ->
  init_window_buffer Scenario.NaN rate channels = Ok (Scenario.plot rate channels).
Proof.
  intros Hrate. unfold init_window_buffer. destruct (Z.ltb_spec (rate * 10) 0); [lia|]. reflexivity.
Qed.

Lemma logical_val_seqZ (n t : Z) :
  logical Scenario.NaN (Scenario.val <$> seqZ 0 n) t
  = if (0 <=? t) && (t <? n) then Scenario.val t else Scenario.NaN.
Proof.
  unfold logical. destruct (Z.ltb_spec t 0), (Z.leb_spec 0 t); try lia; [reflexivity|].
  cbn [andb]. rewrite list_lookup_fmap. destruct (Z.ltb_spec t n).
  - rewrite lookup_seqZ_lt by lia. simpl. f_equal. lia.
  - rewrite lookup_seqZ_ge by lia. reflexivity.
Qed.

Lemma block_one_channel (w : @SamplingThread Scenario.f64) (start k : Z) :
  length (window_buffer w) = 1%nat ->
  block_ok w (Scenario.block start k) /\
  block_channel (Scenario.block start k) 0 = Scenario.val <$> seqZ start k.
Proof.
  intros Hone.
  assert (Hok : block_ok w (Scenario.block start k)).
  { split; [symmetry; exact Hone|]. cbn [Scenario.block samples num_samples_per_sample_set
      num_sample_sets]. rewrite length_fmap, length_seqZ. lia. }
  split; [exact Hok|].
  destruct (block_channel_lookup w (Scenario.block start k) 0 Hok) as [Hlen Hget].
  { cbn [Scenario.block num_samples_per_sample_set]. lia. }
  cbn [Scenario.block samples num_samples_per_sample_set num_sample_sets] in Hlen, Hget.
  apply list_eq. intros s.
  destruct (Nat.lt_ge_cases s (Z.to_nat k)) as [Hs|Hs].
  - rewrite Hget by assumption. f_equal. lia.
  - rewrite !lookup_ge_None_2; [reflexivity| |lia].
    rewrite length_fmap, length_seqZ. lia.
Qed.

Lemma blocks_one_channel (w : @SamplingThread Scenario.f64) (k : Z) (n : nat) :
  forall start : Z,
  0 <= k -> length (window_buffer w) = 1%nat ->
  Forall (block_ok w) (Scenario.blocks start k n) /\
  channel_stream (Scenario.blocks start k n) 0
    = Scenario.val <$> seqZ start (k * Z.of_nat n) /\
  total_samples (Scenario.blocks start k n) = k * Z.of_nat n.
Proof.
  induction n as [|n IH]; intros start Hk Hone.
  - split; [constructor|]. split; [|simpl; lia].
    rewrite seqZ_nil by lia. reflexivity.
  - destruct (IH (start + k) Hk Hone) as (Hok & Hstream & Htotal).
    destruct (block_one_channel w start k Hone) as [Hb Hc].
    cbn [Scenario.blocks]. split; [constructor; assumption|]. split.
    + unfold channel_stream in *. cbn [fmap list_fmap concat].
      fold (@fmap list _ _ _ (fun sd => block_channel sd 0) (Scenario.blocks (start + k) k n)).
      rewrite Hc, Hstream, <- fmap_app. f_equal.
      replace (k * Z.of_nat (S n)) with (k + k * Z.of_nat n) by lia.
      rewrite seqZ_app by nia. reflexivity.
    + cbn [total_samples foldr] in *. fold (total_samples (Scenario.blocks (start + k) k n)).
      rewrite Htotal. cbn [Scenario.block num_sample_sets]. lia.
Qed.

(** One channel at [rate] Hz after [n] blocks of [k] samples: the ring
    holds the stream 0, 1, ..., [k * n - 1]. *)
Lemma one_channel_ring (rate k : Z) (n : nat) :
  5 <= rate -> 0 <= k ->
  exists w,
    write_all Scenario.NaN (worker (Scenario.plot rate 1)) (Scenario.blocks 0 k n) = Ok w /\
    sample_rate w = rate /\ window_size w = 5 /\ _buffer_size w = 10 /\
    _downsampling_factor w = downsampling_factor rate /\
    samples_seen w = k * Z.of_nat n /\
    length (window_buffer w) = 1%nat /\ rows_ok w /\
    ring_holds Scenario.NaN w (fun _ => Scenario.val <$> seqZ 0 (k * Z.of_nat n)).
Proof.
  intros Hrate Hk.
  set (w0 := worker (Scenario.plot rate 1)).
  assert (Hone : length (window_buffer w0) = 1%nat) by reflexivity.
  destruct (blocks_one_channel w0 k n 0 Hk Hone) as (Hok & Hstream & Htotal).
  assert (Hfresh : fresh_buffer Scenario.NaN w0).
  { split; [reflexivity|]. repeat constructor. }
  assert (HB : 0 < ring_size w0).
  { unfold ring_size, w0, Scenario.plot. cbn [worker sample_rate _buffer_size]. lia. }
  assert (Hwo : 0 < white_out w0).
  { unfold white_out, w0, Scenario.plot. cbn [worker sample_rate window_size].
    apply Z.div_str_pos. lia. }
  destruct (ring_after_writes Scenario.NaN w0 _ Hfresh HB Hwo Hok)
    as (w & Hw & Hcfg & Hrows & Hseen & Hinv).
  exists w. split; [exact Hw|].
  destruct Hcfg as (Hsr & Hws & Hbs & Hd & Hlen).
  split; [rewrite Hsr; reflexivity|]. split; [rewrite Hws; reflexivity|].
  split; [rewrite Hbs; reflexivity|]. split; [rewrite Hd; reflexivity|].
  split; [rewrite Hseen, Htotal; reflexivity|].
  split; [rewrite Hlen; exact Hone|]. split; [exact Hrows|].
  intros c row Hc.
  assert (c = 0%nat) as ->.
  { apply lookup_lt_Some in Hc. rewrite Hlen, Hone in Hc. lia. }
  rewrite <- Hstream. apply Hinv. exact Hc.
Qed.

(** The frame of that ring for a downsampling factor [d]. *)
Lemma one_channel_frame (rate k : Z) (n : nat) (w w' : @SamplingThread Scenario.f64) (d : Z) :
  1 <= rate -> 0 < d ->
  sample_rate w = rate -> window_size w = 5 -> _buffer_size w = 10 ->
  length (window_buffer w) = 1%nat -> rows_ok w ->
  ring_holds Scenario.NaN w (fun _ => Scenario.val <$> seqZ 0 (k * Z.of_nat n)) ->
  sample_rate w' = sample_rate w -> window_size w' = window_size w ->
  _buffer_size w' = _buffer_size w -> window_buffer w' = window_buffer w ->
  samples_seen w' = samples_seen w -> _downsampling_factor w' = d ->
  samples_seen w = k * Z.of_nat n ->
  render_slice w' =
    Ok [(fun i =>
           let a := k * Z.of_nat n + (5 * rate * 4) / 100 - 5 * rate in
           let t := a + (i * d + 1 - a) mod (rate * 5) in
           if (0 <=? t) && (t <? k * Z.of_nat n) then Scenario.val t else Scenario.NaN)
          <$> seqZ 0 ((rate * 5 + d - 1) / d)].
Proof.
  intros Hrate Hd Hsr Hws Hbs Hone Hrows Hinv Hsr' Hws' Hbs' Hbuf' Hseen' Hd' Hseen.
  assert (HB : ring_size w' = rate * 10) by (unfold ring_size; congruence).
  assert (HW : window_len w' = rate * 5) by (unfold window_len; congruence).
  assert (Hrows' : rows_ok w').
  { unfold rows_ok in *. rewrite Hbuf'. unfold ring_size in *. rewrite Hsr', Hbs'. exact Hrows. }
  assert (Hinv' : ring_holds Scenario.NaN w'
                    (fun _ => Scenario.val <$> seqZ 0 (k * Z.of_nat n))).
  { unfold ring_holds in *. rewrite Hbuf', Hseen'. unfold white_out, ring_size in *.
    rewrite Hsr', Hws', Hbs'. exact Hinv. }
  rewrite (render_of_ring Scenario.NaN w' _) by (try eassumption; lia).
  rewrite Hbuf', Hone, HW, Hd'. cbn [seq fmap list_fmap]. do 2 f_equal.
  apply list_fmap_ext. intros _ i _.
  rewrite logical_val_seqZ. unfold sweep_index, window_start, white_out.
  rewrite HW, Hseen', Hseen, Hsr', Hws', Hsr, Hws.
  replace (5 * rate) with (rate * 5) by lia. reflexivity.
Qed.

Lemma frame_12000_no_downsampling_eval :
  Scenario.frame_12000_no_downsampling = Ok Scenario.sweep_frame.
Proof.
  destruct (one_channel_ring 1000 1000 12)
    as (w & Hw & Hsr & Hws & Hbs & Hd & Hseen & Hone & Hrows & Hinv); [lia|lia|].
  unfold Scenario.frame_12000_no_downsampling, Scenario.after_12000.
  rewrite init_window_buffer_plot by lia. rewrite bind_Ok, Hw, bind_Ok.
  rewrite (one_channel_frame 1000 1000 12 w (Scenario.no_downsampling w) 1
             ltac:(lia) ltac:(lia) Hsr Hws Hbs Hone Hrows Hinv
             eq_refl eq_refl eq_refl eq_refl eq_refl eq_refl Hseen).
  vm_compute. reflexivity.
Qed.

Lemma frame_12000_eval : Scenario.frame_12000 = Ok Scenario.sweep_frame_decimated.
Proof.
  destruct (one_channel_ring 1000 1000 12)
    as (w & Hw & Hsr & Hws & Hbs & Hd & Hseen & Hone & Hrows & Hinv); [lia|lia|].
  unfold Scenario.frame_12000, Scenario.after_12000.
  rewrite init_window_buffer_plot by lia. rewrite bind_Ok, Hw, bind_Ok.
  rewrite (one_channel_frame 1000 1000 12 w w 2
             ltac:(lia) ltac:(lia) Hsr Hws Hbs Hone Hrows Hinv
             eq_refl eq_refl eq_refl eq_refl eq_refl Hd Hseen).
  vm_compute. reflexivity.
Qed.

Lemma frame_6000_eval :
  Scenario.frame_6000 =
  Ok [(Scenario.val <$> seqZ 5001 999) ++ replicate 100 Scenario.NaN
        ++ (Scenario.val <$> seqZ 3600 1401)].
Proof.
  destruct (one_channel_ring 500 1000 6)
    as (w & Hw & Hsr & Hws & Hbs & Hd & Hseen & Hone & Hrows & Hinv); [lia|lia|].
  unfold Scenario.frame_6000, Scenario.after_6000.
  rewrite Hw, bind_Ok.
  rewrite (one_channel_frame 500 1000 6 w w 1
             ltac:(lia) ltac:(lia) Hsr Hws Hbs Hone Hrows Hinv
             eq_refl eq_refl eq_refl eq_refl eq_refl Hd Hseen).
  vm_compute. reflexivity.
Qed.

(** C2 (as the code has it): in the scenario, without decimation, the
    frame holds the samples 10001 to 11999, then 200 gap values (the
    white-out region, logical indices 12000 to 12199), then the samples
    7200 to 10000; with the factor 2 that the plotter uses at 1000 Hz the
    frame holds every second entry of that. *)
Theorem scenario_frame :
  Scenario.frame_12000_no_downsampling = Ok Scenario.sweep_frame /\
  Scenario.frame_12000 = Ok Scenario.sweep_frame_decimated.
Proof. split; [exact frame_12000_no_downsampling_eval|exact frame_12000_eval]. Qed.

(** C2 fails as stated: the frame of the scenario is not the samples 7000
    to 11999; its first entry is the sample 10001. *)
Lemma scenario_frame_is_not_7000_11999 :
  Scenario.frame_12000_no_downsampling <> Ok Scenario.expected_7000_11999 /\
  Scenario.frame_entry Scenario.frame_12000_no_downsampling 0 0
    = Ok (Some (Scenario.val 10001)).
Proof.
  rewrite frame_12000_no_downsampling_eval. split; [|reflexivity].
  intros H. apply (f_equal (fun r => Scenario.frame_entry r 0 0)) in H.
  vm_compute in H. discriminate H.
Qed.

(** C1 fails as stated: at 500 Hz, after 6000 samples in a ring of 5000,
    the frame is not the last 2500 samples in arrival order; it starts
    with the sample 5001, holds gap values from entry 999 on, and holds the
    older sample 3600 at the later entry 1099. *)
Lemma wrapped_frame_is_not_in_time_order :
  Scenario.frame_6000 <> Ok [Scenario.val <$> seqZ 3500 2500] /\
  Scenario.frame_entry Scenario.frame_6000 0 0 = Ok (Some (Scenario.val 5001)) /\
  Scenario.frame_entry Scenario.frame_6000 0 999 = Ok (Some Scenario.NaN) /\
  Scenario.frame_entry Scenario.frame_6000 0 1099 = Ok (Some (Scenario.val 3600)).
Proof.
  rewrite frame_6000_eval. split; [|repeat split; vm_compute; reflexivity].
  intros H. apply (f_equal (fun r => Scenario.frame_entry r 0 0)) in H.
  vm_compute in H. discriminate H.
Qed.

(** C8 fails as stated: for a block of two channels and three sample
    sets, the second sample written for channel 0 is [samples[2]], not
    [samples[0 * 3 + 1]]. *)
Lemma payload_is_not_channel_major :
  let written :=
    Scenario.written_sample
      (write_block Scenario.NaN (worker (Scenario.plot 500 2)) Scenario.block_2x3) 0 1 in
  written = Ok (samples Scenario.block_2x3 !! 2%nat) /\
  written <> Ok (samples Scenario.block_2x3 !! (0 * 3 + 1)%nat).
Proof.
  assert (H : Scenario.written_sample
      (write_block Scenario.NaN (worker (Scenario.plot 500 2)) Scenario.block_2x3) 0 1
      = Ok (Some (Scenario.val 2))) by (vm_compute; reflexivity).
  cbv zeta. rewrite H. split; [reflexivity|]. vm_compute. discriminate.
Qed.

(** * The theorems at concrete inputs *)

Lemma plot_500_rows_ok : rows_ok (worker (Scenario.plot 500 1)).
Proof. repeat constructor. Defined.

Lemma plot_500_fresh : fresh_buffer Scenario.NaN (worker (Scenario.plot 500 1)).
Proof. split; [reflexivity|]. repeat constructor. Defined.

Lemma block_3_ok : block_ok (worker (Scenario.plot 500 1)) (Scenario.block 0 3).
Proof. split; reflexivity. Defined.

Lemma render_slice_after_writes_witness :
  exists w frame,
    write_all Scenario.NaN (worker (Scenario.plot 500 1)) [Scenario.block 0 3] = Ok w /\
    render_slice w = Ok frame.
Proof.
  destruct (render_slice_after_writes Scenario.NaN (worker (Scenario.plot 500 1))
              [Scenario.block 0 3])
    as (w & plot_data & frame & Hw & _ & _ & _ & _ & Hframe & _).
  - exact plot_500_fresh.
  - vm_compute. reflexivity.
  - vm_compute. split; discriminate.
  - vm_compute. reflexivity.
  - constructor; [exact block_3_ok|constructor].
  - exists w, frame. split; assumption.
Defined.

Lemma write_block_spec_witness :
  exists w', write_block Scenario.NaN (worker (Scenario.plot 500 1)) (Scenario.block 0 3)
             = Ok w' /\ samples_seen w' = 3.
Proof.
  destruct (write_block_spec Scenario.NaN (worker (Scenario.plot 500 1)) (Scenario.block 0 3))
    as (_ & _ & (w' & Hw' & Hseen & _) & _).
  - vm_compute. reflexivity.
  - vm_compute. reflexivity.
  - exact plot_500_rows_ok.
  - exact block_3_ok.
  - exists w'. split; assumption.
Defined.

Lemma plot_500_2_rows_ok : rows_ok (worker (Scenario.plot 500 2)).
Proof. repeat constructor. Defined.

Lemma block_2x3_ok : block_ok (worker (Scenario.plot 500 2)) Scenario.block_2x3.
Proof. split; reflexivity. Defined.

Lemma write_block_payload_layout_witness :
  exists w' row0 row1,
    write_block Scenario.NaN (worker (Scenario.plot 500 2)) Scenario.block_2x3 = Ok w' /\
    window_buffer w' !! 0%nat = Some row0 /\ window_buffer w' !! 1%nat = Some row1 /\
    row0 !! 1%nat = samples Scenario.block_2x3 !! (1 * 2 + 0)%nat /\
    row1 !! 2%nat = samples Scenario.block_2x3 !! (2 * 2 + 1)%nat /\
    samples Scenario.block_2x3 !! (1 * 2 + 0)%nat = Some (Scenario.val 2) /\
    samples Scenario.block_2x3 !! (2 * 2 + 1)%nat = Some (Scenario.val 5).
Proof.
  destruct (write_block_payload_layout Scenario.NaN (worker (Scenario.plot 500 2))
              Scenario.block_2x3) as (w' & Hw' & Hlayout).
  - vm_compute. reflexivity.
  - vm_compute. reflexivity.
  - exact plot_500_2_rows_ok.
  - exact block_2x3_ok.
  - destruct (Hlayout 0%nat 1%nat) as (row0 & Hrow0 & Hget0);
      [simpl; lia|simpl; lia|vm_compute; discriminate|].
    destruct (Hlayout 1%nat 2%nat) as (row1 & Hrow1 & Hget1);
      [simpl; lia|simpl; lia|vm_compute; discriminate|].
    exists w', row0, row1.
    split; [exact Hw'|]. split; [exact Hrow0|]. split; [exact Hrow1|].
    split; [exact Hget0|]. split; [exact Hget1|]. split; reflexivity.
Defined.

Lemma lag_mode_hysteresis_witness :
  exists w' ev row1,
    update_samples_body Scenario.NaN false 11 11 (worker (Scenario.plot 500 2))
      Scenario.block_2x3 = Ok (true, w', ev) /\
    (forall frame, Emit frame ∉ ev) /\
    samples_seen w' = 3 /\
    window_buffer w' !! 1%nat = Some row1 /\
    row1 !! 2%nat = Some (Scenario.val 5) /\
    row1 !! 3%nat = Some Scenario.NaN.
Proof.
  destruct (lag_mode_hysteresis Scenario.NaN false 11 11 (worker (Scenario.plot 500 2))
              Scenario.block_2x3) as (_ & _ & _ & _ & Hturn & _).
  destruct Hturn as (w' & ev & Hbody & Hno & Hseen & _ & _ & Hbuf).
  - vm_compute. reflexivity.
  - vm_compute. reflexivity.
  - exact plot_500_2_rows_ok.
  - exact block_2x3_ok.
  - reflexivity.
  - destruct (Hbuf 1%nat (replicate 5000 Scenario.NaN) eq_refl) as (row1 & Hrow1 & Hnew & _).
    exists w', ev, row1.
    split; [exact Hbody|]. split; [exact Hno|]. split; [exact Hseen|].
    split; [exact Hrow1|]. split.
    + assert (H := Hnew 2). cbv zeta in H.
      change (Z.of_nat (num_sample_sets Scenario.block_2x3)) with 3 in H.
      change (white_out (worker (Scenario.plot 500 2))) with 100 in H.
      change (ring_size (worker (Scenario.plot 500 2))) with 5000 in H.
      change (samples_seen (worker (Scenario.plot 500 2))) with 0 in H.
      change (Z.to_nat ((0 + 2) mod 5000)) with 2%nat in H.
      change (2 <? 3) with true in H. cbv iota in H.
      change (block_channel Scenario.block_2x3 1 !! Z.to_nat 2)
        with (Some (Scenario.val 5)) in H.
      apply H; lia.
    + assert (H := Hnew 3). cbv zeta in H.
      change (Z.of_nat (num_sample_sets Scenario.block_2x3)) with 3 in H.
      change (white_out (worker (Scenario.plot 500 2))) with 100 in H.
      change (ring_size (worker (Scenario.plot 500 2))) with 5000 in H.
      change (samples_seen (worker (Scenario.plot 500 2))) with 0 in H.
      change (Z.to_nat ((0 + 3) mod 5000)) with 3%nat in H.
      change (3 <? 3) with false in H. cbv iota in H.
      apply H; lia.
Defined.

Lemma render_slice_fixed_length_witness :
  exists frame, render_slice (worker (Scenario.plot 500 1)) = Ok frame /\
                length frame = 1%nat.
Proof.
  destruct (render_slice_fixed_length Scenario.NaN (worker (Scenario.plot 500 1)))
    as (frame & Hframe & Hlen & _).
  - vm_compute. reflexivity.
  - vm_compute. discriminate.
  - vm_compute. reflexivity.
  - exact plot_500_rows_ok.
  - exists frame. split; assumption.
Defined.

Lemma window_size_stays_in_range_witness :
  window_inv (_increase_time_range (_decrease_time_range (Scenario.plot 500 1))).
Proof.
  refine (proj1 (window_size_stays_in_range Scenario.NaN 500 1 [Decrease; Increase]
                   (Scenario.plot 500 1)
                   (_increase_time_range (_decrease_time_range (Scenario.plot 500 1)))
                   _ _)).
  - apply init_window_buffer_plot. lia.
  - reflexivity.
Defined.

Lemma stride_zero_below_500_witness :
  render_slice (worker (Scenario.plot 250 1)) = Raise ValueError.
Proof.
  apply (stride_zero_below_500 (worker (Scenario.plot 250 1))).
  - vm_compute. reflexivity.
  - vm_compute. reflexivity.
  - vm_compute. discriminate.
  - repeat constructor.
  - reflexivity.
  - vm_compute. reflexivity.
Defined.

(** * Further properties of the window buffer *)

Section BufferShape.
Context {F : Type} (nan : F).
Implicit Types (w : @SamplingThread F) (sd : @SampleData F).

Lemma put_cols_length (row : list F) (idx : list Z) (vals row' : list F) :
  Np.put_cols row idx vals = Ok row' -> length row' = length row.
Proof.
  unfold Np.put_cols. intros H. apply bind_Ok_inv in H as (ps & _ & H).
  injection H as <-. apply put_all_length.
Qed.

Lemma zip_rows_shape (f : list F -> list F -> res (list F)) (buf : list (list F)) :
  (forall row v r, f row v = Ok r -> length r = length row) ->
  forall vals out, length vals = length buf -> Np.zip_rows f buf vals = Ok out ->
  Forall2 (fun row r => length r = length row) buf out.
Proof.
  intros Hf. induction buf as [|row buf IH]; intros vals out Hlen H.
  - destruct vals; injection H as <-; constructor.
  - destruct vals as [|v vals]; [discriminate Hlen|]. cbn [Np.zip_rows] in H.
    apply bind_Ok_inv in H as (r & Hr & H). apply bind_Ok_inv in H as (rs & Hrs & H).
    injection H as <-. constructor; [eapply Hf; exact Hr|].
    eapply IH; [|exact Hrs]. simpl in Hlen. lia.
Qed.

Lemma broadcast_rows_length (n : nat) (vals vals1 : list (list F)) :
  Np.broadcast_rows n vals = Ok vals1 -> length vals1 = n.
Proof.
  unfold Np.broadcast_rows. destruct (decide _) as [Heq|_].
  - intros [= <-]. exact Heq.
  - destruct vals as [|r [|? ?]]; try discriminate. intros [= <-]. apply length_replicate.
Qed.

Lemma assign_shape (buf : list (list F)) (idx : list Z) (vals out : list (list F)) :
  Np.assign buf idx vals = Ok out ->
  Forall2 (fun row r => length r = length row) buf out.
Proof.
  unfold Np.assign. intros H.
  apply bind_Ok_inv in H as (vals1 & H1 & H). apply bind_Ok_inv in H as (vals2 & H2 & H).
  eapply zip_rows_shape; [| |exact H].
  - intros row v r. apply put_cols_length.
  - apply traverse_length in H2. apply broadcast_rows_length in H1. lia.
Qed.

Lemma fill_shape (buf : list (list F)) (idx : list Z) (x : F) (out : list (list F)) :
  Np.fill buf idx x = Ok out ->
  Forall2 (fun row r => length r = length row) buf out.
Proof.
  unfold Np.fill. intros H. apply traverse_Ok_Forall2 in H.
  eapply Forall2_impl; [exact H|]. intros row r. apply put_cols_length.
Qed.

Lemma shape_trans (a b c : list (list F)) :
  Forall2 (fun row r => length r = length row) a b ->
  Forall2 (fun row r => length r = length row) b c ->
  Forall2 (fun row r => length r = length row) a c.
Proof.
  intros Hab. revert c. induction Hab as [|x y a b Hxy _ IH]; intros c Hbc;
    inversion Hbc; subst; constructor; [congruence|auto].
Qed.

Lemma write_block_shape w sd w' :
  write_block nan w sd = Ok w' ->
  Forall2 (fun row row' => length row' = length row) (window_buffer w) (window_buffer w').
Proof.
  unfold write_block. intros H.
  apply bind_Ok_inv in H as (block & _ & H).
  apply bind_Ok_inv in H as (buf1 & H1 & H).
  apply bind_Ok_inv in H as (buf2 & H2 & H).
  injection H as <-. cbn [window_buffer].
  apply assign_shape in H1. apply fill_shape in H2.
  eapply shape_trans; eassumption.
Qed.

(** X1: whenever a sequence of writes succeeds, whatever the blocks are, the
    buffer keeps its channels and every row keeps its length, and the
    configuration of the worker is unchanged; so a buffer whose rows have
    the length of the ring keeps such rows. *)
Theorem write_all_keeps_shape (sds : list (@SampleData F)) w w' :
  write_all nan w sds = Ok w' ->
  Forall2 (fun row row' => length row' = length row) (window_buffer w) (window_buffer w') /\
  same_config w w' /\
  (rows_ok w -> rows_ok w').
Proof.
  revert w. induction sds as [|sd sds IH]; intros w H.
  - injection H as <-. split; [apply Forall_Forall2_diag, Forall_forall; reflexivity|].
    split; [repeat split|]. trivial.
  - cbn [write_all] in H. apply bind_Ok_inv in H as (w1 & H1 & H).
    destruct (IH _ H) as (Hshape & Hcfg & Hrows).
    pose proof (write_block_shape _ _ _ H1) as Hshape1.
    pose proof (write_block_keeps_config nan _ _ _ H1) as (Hsr & Hws & Hbs & Hd & _).
    assert (Hcfg1 : same_config w w1).
    { repeat split; try assumption. symmetry. eapply Forall2_length. exact Hshape1. }
    assert (Hall : Forall2 (fun row row' => length row' = length row)
                     (window_buffer w) (window_buffer w')).
    { eapply shape_trans; eassumption. }
    split; [exact Hall|]. split; [eapply same_config_trans; eassumption|].
    intros Hok. unfold rows_ok in *.
    destruct (same_config_sizes _ _ (same_config_trans _ _ _ Hcfg1 Hcfg)) as (HB & _).
    rewrite HB. clear -Hall Hok. induction Hall; [constructor|].
    apply Forall_cons in Hok as [Hx Hok]. constructor; [lia|auto].
Qed.

(** X4: a frame needs a window of at least two samples: for a shorter window
    no index of the window is congruent to 1 modulo its length, and the
    search for the split point raises [IndexError]. *)
Theorem render_slice_short_window w :
  window_len w <= 1 -> render_slice w = Raise IndexError.
Proof.
  intros HW. unfold render_slice, window_data, split_idx.
  rewrite first_where_none; [reflexivity|].
  intros y Hy. apply Z.eqb_neq. unfold indices, Np.arange in Hy.
  apply elem_of_seqZ in Hy. fold (window_len w).
  assert (window_len w = 1) as -> by (unfold window_len in *; lia).
  unfold Np.mod_. simpl. rewrite Z.mod_1_r. discriminate.
Qed.

(** X2: a block whose payload does not have [channels * samples] entries, or
    whose number of channels is neither that of the buffer nor 1, is
    refused with [ValueError]. *)
Theorem write_block_malformed w sd :
  (length (samples sd) <> (num_samples_per_sample_set sd * num_sample_sets sd)%nat ->
   write_block nan w sd = Raise ValueError) /\
  (length (samples sd) = (num_samples_per_sample_set sd * num_sample_sets sd)%nat ->
   num_samples_per_sample_set sd <> length (window_buffer w) ->
   num_samples_per_sample_set sd <> 1%nat ->
   write_block nan w sd = Raise ValueError).
Proof.
  split.
  - intros Hlen. unfold write_block, Np.reshape_F.
    destruct (decide _); [contradiction|reflexivity].
  - intros Hlen Hchan Hone.
    destruct (reshape_F_spec _ _ _ Hlen) as (block & Hblock & Hrows & _).
    unfold write_block. rewrite Hblock, bind_Ok. unfold Np.assign, Np.broadcast_rows.
    destruct (decide _) as [Heq|_]; [exfalso; apply Hchan; congruence|].
    destruct block as [|r [|r' block]]; [reflexivity| |reflexivity].
    exfalso. apply Hone. rewrite <- Hrows. reflexivity.
Qed.
End BufferShape.

Section BufferEdges.
Context {F : Type} (nan : F).
Implicit Types (w : @SamplingThread F) (sd : @SampleData F) (p : @RealTimePlot F).

Lemma zip_with_first (buf vals : list (list F)) :
  length vals = length buf -> zip_with (fun row _ => row) buf vals = buf.
Proof.
  revert vals. induction buf as [|row buf IH]; intros [|v vals] Hlen;
    try discriminate; [reflexivity|]. simpl. f_equal. apply IH. simpl in Hlen. lia.
Qed.

(** X3: with a white-out width of 0 (a window of fewer than 25 samples) the
    two slices of the index array are the empty one and the whole one: a
    block of two or more samples per channel is refused with
    [ValueError], and a block of one sample per channel is accepted,
    counted, and overwritten by the gap value. *)
Theorem write_block_without_white_out w sd :
  white_out w = 0 -> 0 < ring_size w -> rows_ok w -> block_ok w sd ->
  window_buffer w <> [] ->
  ((2 <= num_sample_sets sd)%nat -> write_block nan w sd = Raise ValueError) /\
  (num_sample_sets sd = 1%nat ->
   exists w', write_block nan w sd = Ok w' /\
     samples_seen w' = samples_seen w + 1 /\
     forall (c : nat) (row : list F), window_buffer w !! c = Some row ->
       window_buffer w' !! c
       = Some (<[Z.to_nat (samples_seen w mod ring_size w) := nan]> row)).
Proof.
  intros Hwo HB Hrows [Hchan Hlen] Hbuf.
  destruct (reshape_F_spec _ _ _ Hlen) as (block & Hblock & Hnrows & Hrow).
  unfold write_block. rewrite Hblock. rewrite bind_Ok, Hwo.
  change (- 0) with 0. unfold Np.slice_to, Np.slice_from.
  change (0 <? 0) with false. cbv iota. change (Z.to_nat 0) with O.
  rewrite take_0, drop_0.
  assert (Hbr : Np.broadcast_rows (length (window_buffer w)) block = Ok block).
  { unfold Np.broadcast_rows. destruct (decide _) as [|Hne]; [reflexivity|].
    exfalso. apply Hne. congruence. }
  unfold Np.assign. rewrite Hbr, bind_Ok. cbn [length].
  split.
  - intros Hk. destruct block as [|r block].
    { exfalso. apply Hbuf. destruct (window_buffer w); [reflexivity|].
      simpl in Hnrows, Hchan. lia. }
    destruct (Hrow O r eq_refl) as [Hrlen _].
    assert (Hbad : Np.broadcast_cols 0 r = Raise ValueError).
    { unfold Np.broadcast_cols. destruct (decide (length r = 0%nat)) as [Hz|_]; [lia|].
      destruct r as [|x [|y r]]; [reflexivity|simpl in Hrlen; lia|reflexivity]. }
    cbn [traverse]. rewrite Hbad. reflexivity.
  - intros Hk.
    assert (Hbc : traverse (Np.broadcast_cols 0) block = Ok ((fun _ => []) <$> block)).
    { apply traverse_fmap. intros r Hr. apply list_elem_of_lookup in Hr as [c Hc].
      destruct (Hrow c r Hc) as [Hrlen _]. unfold Np.broadcast_cols.
      destruct (decide (length r = 0%nat)) as [Hz|_]; [lia|].
      destruct r as [|x [|y r]]; simpl in Hrlen; try lia. reflexivity. }
    rewrite Hbc, bind_Ok.
    rewrite (zip_rows_ok _ (fun row _ => row)).
    2:{ intros row v _. reflexivity. }
    rewrite bind_Ok, zip_with_first by (rewrite length_fmap; lia).
    assert (Hidx : plot_indices w (Z.of_nat (num_sample_sets sd))
                   = [samples_seen w mod ring_size w]).
    { unfold plot_indices, Np.arange. rewrite Hk, Hwo.
      change (Z.of_nat 1 + 0 - 0) with 1. rewrite (seqZ_cons 0 1), seqZ_nil by lia.
      cbn [fmap list_fmap]. rewrite mod_pos, Z.add_0_r by assumption. reflexivity. }
    rewrite Hidx. unfold Np.fill. cbn [length replicate].
    pose proof (Z.mod_pos_bound (samples_seen w) (ring_size w) HB) as Hp.
    rewrite (traverse_fmap _
      (fun row => <[Z.to_nat (samples_seen w mod ring_size w) := nan]> row)).
    2:{ intros row Hin. rewrite put_cols_in_range; [reflexivity|].
        unfold rows_ok in Hrows. rewrite Forall_forall in Hrows.
        rewrite (Hrows row Hin). repeat constructor; lia. }
    rewrite bind_Ok. eexists. split; [reflexivity|]. cbn [samples_seen window_buffer].
    split; [lia|]. intros c row Hc. rewrite list_lookup_fmap, Hc. reflexivity.
Qed.

(** X5: for a sample rate of at least 500 the downsampling factor keeps
    between 500 and 999 points per second of window in every row of the
    frame. *)
Theorem render_slice_density w :
  500 <= sample_rate w -> 1 <= window_size w -> 0 < _buffer_size w -> rows_ok w ->
  _downsampling_factor w = downsampling_factor (sample_rate w) ->
  exists frame, render_slice w = Ok frame /\
    length frame = length (window_buffer w) /\
    forall out, out ∈ frame ->
      500 * window_size w <= Z.of_nat (length out) <= 999 * window_size w.
Proof.
  intros Hsr Hws Hbs Hrows Hd.
  assert (HB : 0 < ring_size w) by (unfold ring_size; lia).
  assert (HW : 2 <= window_len w) by (unfold window_len; nia).
  pose proof (Z.quot_rem' (sample_rate w) 500) as Hqr.
  pose proof (Z.rem_bound_pos (sample_rate w) 500 ltac:(lia) ltac:(lia)) as Hrem.
  assert (Hdpos : 0 < _downsampling_factor w).
  { rewrite Hd. unfold downsampling_factor. apply Z.quot_str_pos. lia. }
  destruct (render_slice_spec w HB HW Hdpos Hrows) as (frame & Hframe & Hflen & Hfrow).
  exists frame. split; [exact Hframe|]. split; [exact Hflen|].
  intros out Hout. apply list_elem_of_lookup in Hout as [c Hc].
  destruct (lookup_lt_is_Some_2 (window_buffer w) c) as [row Hr].
  { rewrite <- Hflen. eapply lookup_lt_Some. exact Hc. }
  destruct (Hfrow c row Hr) as (out' & Hout' & Hlen & _).
  rewrite Hc in Hout'. injection Hout' as <-. rewrite Hlen.
  rewrite Hd in *. unfold downsampling_factor in *. unfold window_len.
  set (d := Z.quot (sample_rate w) 500) in *.
  split.
  - apply Z.div_le_lower_bound; [lia|]. nia.
  - apply Z.div_le_upper_bound; [lia|]. nia.
Qed.

(** X8: the two time-range buttons undo each other: a click on one of them
    that changes the window, followed by a click on the other one, gives
    back the plot as it was. *)
Theorem time_range_buttons_round_trip p :
  (1 < ui_window_size p <= ui_buffer_size p ->
   _increase_time_range (_decrease_time_range p) = p) /\
  (1 <= ui_window_size p < ui_buffer_size p ->
   _decrease_time_range (_increase_time_range p) = p).
Proof.
  destruct p as [ws bs [sr wws buf wbs seen d]]. split; intros Hr; simpl in Hr.
  - unfold _decrease_time_range. cbn [ui_window_size].
    destruct (Z.ltb_spec 1 ws); [|lia].
    unfold _increase_time_range. cbn [ui_window_size ui_buffer_size worker sample_rate
      window_size window_buffer _buffer_size samples_seen _downsampling_factor].
    destruct (Z.ltb_spec (ws - 1) bs); [|lia].
    replace (ws - 1 + 1) with ws by lia. replace (wws - 1 + 1) with wws by lia.
    reflexivity.
  - unfold _increase_time_range. cbn [ui_window_size ui_buffer_size].
    destruct (Z.ltb_spec ws bs); [|lia].
    unfold _decrease_time_range. cbn [ui_window_size ui_buffer_size worker sample_rate
      window_size window_buffer _buffer_size samples_seen _downsampling_factor].
    destruct (Z.ltb_spec 1 (ws + 1)); [|lia].
    replace (ws + 1 - 1) with ws by lia. replace (wws + 1 - 1) with wws by lia.
    reflexivity.
Qed.

Lemma iter_increase p (n : nat) :
  1 <= ui_window_size p <= ui_buffer_size p ->
  ui_window_size (Nat.iter n _increase_time_range p)
    = Z.min (ui_window_size p + Z.of_nat n) (ui_buffer_size p) /\
  ui_buffer_size (Nat.iter n _increase_time_range p) = ui_buffer_size p /\
  window_size (worker (Nat.iter n _increase_time_range p)) - window_size (worker p)
    = ui_window_size (Nat.iter n _increase_time_range p) - ui_window_size p.
Proof.
  intros Hr. induction n as [|n IH]; [simpl; lia|].
  destruct IH as (IH1 & IH2 & IH3).
  change (Nat.iter (S n) _increase_time_range p)
    with (_increase_time_range (Nat.iter n _increase_time_range p)).
  set (q := Nat.iter n _increase_time_range p) in *.
  rewrite increase_resized.
  destruct (Z.leb_spec (ui_window_size q + 1) (ui_buffer_size q));
    unfold resized; cbn [ui_window_size ui_buffer_size worker window_size]; lia.
Qed.

Lemma iter_decrease p (n : nat) :
  1 <= ui_window_size p <= ui_buffer_size p ->
  ui_window_size (Nat.iter n _decrease_time_range p)
    = Z.max (ui_window_size p - Z.of_nat n) 1 /\
  window_size (worker (Nat.iter n _decrease_time_range p)) - window_size (worker p)
    = ui_window_size (Nat.iter n _decrease_time_range p) - ui_window_size p.
Proof.
  intros Hr. induction n as [|n IH]; [simpl; lia|].
  destruct IH as (IH1 & IH3).
  change (Nat.iter (S n) _decrease_time_range p)
    with (_decrease_time_range (Nat.iter n _decrease_time_range p)).
  set (q := Nat.iter n _decrease_time_range p) in *.
  rewrite decrease_resized.
  destruct (Z.leb_spec 1 (ui_window_size q - 1));
    unfold resized; cbn [ui_window_size ui_buffer_size worker window_size]; lia.
Qed.

(** X9: clicking a button [n] times moves the window by [n] seconds, stopping
    at the buffer duration on the way up and at one second on the way
    down; the window of the worker moves by the same amount. *)
Theorem time_range_buttons_saturate p (n : nat) :
  1 <= ui_window_size p <= ui_buffer_size p ->
  let up := Nat.iter n _increase_time_range p in
  let down := Nat.iter n _decrease_time_range p in
  ui_window_size up = Z.min (ui_window_size p + Z.of_nat n) (ui_buffer_size p) /\
  window_size (worker up) - window_size (worker p) = ui_window_size up - ui_window_size p /\
  ui_window_size down = Z.max (ui_window_size p - Z.of_nat n) 1 /\
  window_size (worker down) - window_size (worker p)
    = ui_window_size down - ui_window_size p.
Proof.
  intros Hr. cbv zeta.
  destruct (iter_increase p n Hr) as (H1 & _ & H2).
  destruct (iter_decrease p n Hr) as (H3 & H4).
  repeat split; assumption.
Qed.
End BufferEdges.

Section DrainFacts.
Context {F : Type} (nan : F).
Implicit Types (w : @SamplingThread F) (sd : @SampleData F).

Lemma frames_app (ev1 ev2 : list (@event F)) : frames (ev1 ++ ev2) = frames ev1 + frames ev2.
Proof.
  induction ev1 as [|e ev1 IH]; [reflexivity|].
  cbn [app]. unfold frames in *. cbn [foldr]. destruct e; lia.
Qed.

Lemma slept_app (ev1 ev2 : list (@event F)) : slept (ev1 ++ ev2) = slept ev1 + slept ev2.
Proof.
  induction ev1 as [|e ev1 IH]; [reflexivity|].
  cbn [app]. unfold slept in *. cbn [foldr]. destruct e; lia.
Qed.

Lemma update_samples_body_ok (lag : bool) (depth : Z) w sd :
  0 < ring_size w -> 0 < white_out w -> 2 <= window_len w ->
  0 < _downsampling_factor w -> rows_ok w -> block_ok w sd ->
  exists w' ev,
    update_samples_body nan lag depth depth w sd = Ok (update_lag lag depth depth, w', ev) /\
    write_block nan w sd = Ok w' /\ same_config w w' /\ rows_ok w' /\
    frames ev = (if update_lag lag depth depth then 0 else 1) /\
    slept ev = (if update_lag lag depth depth then 1 else 10).
Proof.
  intros HB Hwo HW Hd Hrows Hblk.
  destruct (write_block_ok nan w sd HB Hwo Hrows Hblk) as (w' & Hw' & Hcfg & Hrows' & _).
  destruct (same_config_sizes _ _ Hcfg) as (HB' & _ & HW').
  pose proof Hcfg as (_ & _ & _ & Hd' & _).
  destruct (render_slice_spec w') as (frame & Hframe & _); try lia; try assumption.
  unfold update_samples_body. rewrite Hw', bind_Ok.
  destruct (update_lag lag depth depth).
  - eexists _, _. split; [reflexivity|]. split; [reflexivity|].
    repeat (split; [assumption|]).
    rewrite frames_app, slept_app. destruct (10 <? depth); split; reflexivity.
  - rewrite Hframe, bind_Ok. eexists _, _. split; [reflexivity|].
    split; [reflexivity|]. repeat (split; [assumption|]).
    rewrite frames_app, slept_app. destruct (10 <? depth); split; reflexivity.
Qed.

Lemma drain_counts (q : list (@SampleData F)) : forall (lag : bool) w,
  0 < ring_size w -> 0 < white_out w -> 2 <= window_len w ->
  0 < _downsampling_factor w -> rows_ok w -> Forall (block_ok w) q ->
  exists lag' w' ev,
    drain nan lag w q = Ok (lag', w', ev) /\
    write_all nan w q = Ok w' /\
    frames ev = (if lag || (10 <? Z.of_nat (length q))
                 then Z.min (Z.of_nat (length q)) 5 else Z.of_nat (length q)) /\
    slept ev = 10 * frames ev + (Z.of_nat (length q) - frames ev) /\
    (q <> [] -> lag' = false).
Proof.
  induction q as [|sd q IH]; intros lag w HB Hwo HW Hd Hrows Hblks.
  - exists lag, w, []. split; [reflexivity|]. split; [reflexivity|].
    split; [destruct lag; reflexivity|]. split; [reflexivity|]. congruence.
  - apply Forall_cons in Hblks as [Hblk Hblks].
    set (depth := Z.of_nat (length (sd :: q))).
    destruct (update_samples_body_ok lag depth w sd HB Hwo HW Hd Hrows Hblk)
      as (w1 & ev1 & Hbody & Hw1 & Hcfg & Hrows1 & Hf1 & Hs1).
    destruct (same_config_sizes _ _ Hcfg) as (HB1 & Hwo1 & HW1).
    pose proof Hcfg as (_ & _ & _ & Hd1 & _).
    destruct (IH (update_lag lag depth depth) w1)
      as (lag2 & w2 & ev2 & Hdrain & Hwrite & Hf2 & Hs2 & Hlag2); try lia; try assumption.
    { eapply Forall_impl; [exact Hblks|]. intros sd'. apply block_ok_same_config.
      exact Hcfg. }
    exists lag2, w2, (ev1 ++ ev2).
    split.
    { cbn [drain]. fold depth. rewrite Hbody, bind_Ok. cbn beta iota.
      rewrite Hdrain, bind_Ok. reflexivity. }
    split; [cbn [write_all]; rewrite Hw1, bind_Ok; exact Hwrite|].
    assert (Hdepth : depth = Z.of_nat (length q) + 1) by (unfold depth; simpl; lia).
    assert (Hframes : frames (ev1 ++ ev2) =
              (if lag || (10 <? depth) then Z.min depth 5 else depth)).
    { rewrite frames_app, Hf1, Hf2. unfold update_lag.
      destruct lag; cbn [orb];
        destruct (Z.ltb_spec 10 depth), (Z.ltb_spec depth 6),
                 (Z.ltb_spec 10 (Z.of_nat (length q))); cbn [orb]; lia. }
    split; [exact Hframes|]. split.
    { rewrite slept_app, Hs1, Hs2, Hframes. rewrite frames_app, Hf1 in Hframes.
      rewrite <- Hframes. destruct (update_lag lag depth depth); lia. }
    intros _. destruct q as [|sd' q'].
    + injection Hdrain as <- _ _. unfold update_lag, depth. reflexivity.
    + apply Hlag2. discriminate.
Qed.

Lemma update_samples_body_events (lag : bool) (depth : Z) w sd :
  0 < ring_size w -> 0 < white_out w -> 2 <= window_len w ->
  0 < _downsampling_factor w -> rows_ok w -> block_ok w sd ->
  exists w' frame,
    write_block nan w sd = Ok w' /\ same_config w w' /\ rows_ok w' /\
    render_slice w' = Ok frame /\
    update_samples_body nan lag depth depth w sd
    = Ok (update_lag lag depth depth, w',
          (if 10 <? depth then [Print] else []) ++
          (if update_lag lag depth depth then [Sleep 1] else [Emit frame; Sleep 10])).
Proof.
  intros HB Hwo HW Hd Hrows Hblk.
  destruct (write_block_ok nan w sd HB Hwo Hrows Hblk) as (w' & Hw' & Hcfg & Hrows' & _).
  destruct (same_config_sizes _ _ Hcfg) as (HB' & _ & HW').
  pose proof Hcfg as (_ & _ & _ & Hd' & _).
  destruct (render_slice_spec w') as (frame & Hframe & _); try lia; try assumption.
  exists w', frame. repeat (split; [assumption|]).
  unfold update_samples_body. rewrite Hw', bind_Ok.
  destruct (update_lag lag depth depth); [reflexivity|].
  rewrite Hframe, bind_Ok. reflexivity.
Qed.

Lemma update_lag_lagging (lag : bool) (n : Z) : update_lag lag n n = lagging lag n 0.
Proof.
  unfold update_lag, lagging. rewrite Z.sub_0_r.
  destruct (Z.ltb_spec 10 n), (Z.ltb_spec n 6), (Z.ltb_spec 5 n), lag;
    cbn [andb orb]; try reflexivity; lia.
Qed.

Lemma lagging_next (lag : bool) (n i : Z) :
  0 <= i -> lagging (update_lag lag (n + 1) (n + 1)) n i = lagging lag (n + 1) (i + 1).
Proof.
  intros Hi. unfold lagging, update_lag.
  replace (n + 1 - (i + 1)) with (n - i) by lia.
  destruct (Z.ltb_spec 5 (n - i)); cbn [andb]; [|reflexivity].
  destruct (Z.ltb_spec 10 (n + 1)), (Z.ltb_spec (n + 1) 6), (Z.ltb_spec 10 n), lag;
    cbn [orb]; try reflexivity; lia.
Qed.

Lemma frame_after_cons w sd w1 (sds : list (@SampleData F)) :
  write_block nan w sd = Ok w1 ->
  frame_after nan w (sd :: sds) = frame_after nan w1 sds.
Proof.
  intros Hw1. unfold frame_after. cbn [write_all]. rewrite Hw1, bind_Ok. reflexivity.
Qed.

Lemma turn_events_next (lag : bool) w sd w1 (q : list (@SampleData F)) (i : nat) :
  write_block nan w sd = Ok w1 ->
  turn_events nan
    (update_lag lag (Z.of_nat (length (sd :: q))) (Z.of_nat (length (sd :: q)))) w1 q i
  = turn_events nan lag w (sd :: q) (S i).
Proof.
  intros Hw1. unfold turn_events. cbv zeta.
  replace (Z.of_nat (length (sd :: q))) with (Z.of_nat (length q) + 1)
    by (cbn [length]; lia).
  replace (Z.of_nat (S i)) with (Z.of_nat i + 1) by lia.
  rewrite lagging_next by lia.
  replace (Z.of_nat (length q) + 1 - (Z.of_nat i + 1)) with (Z.of_nat (length q) - Z.of_nat i)
    by lia.
  cbn [take]. rewrite (frame_after_cons w sd w1) by assumption. reflexivity.
Qed.

Lemma drain_events (q : list (@SampleData F)) : forall (lag : bool) w,
  0 < ring_size w -> 0 < white_out w -> 2 <= window_len w ->
  0 < _downsampling_factor w -> rows_ok w -> Forall (block_ok w) q ->
  exists lag' w',
    drain nan lag w q
    = Ok (lag', w', concat (turn_events nan lag w q <$> seq 0 (length q))) /\
    forall i : nat, (i < length q)%nat ->
      exists w_i, write_all nan w (take (S i) q) = Ok w_i /\
                  render_slice w_i = Ok (frame_after nan w (take (S i) q)).
Proof.
  induction q as [|sd q IH]; intros lag w HB Hwo HW Hd Hrows Hblks.
  - exists lag, w. split; [reflexivity|]. intros i Hi. simpl in Hi. lia.
  - apply Forall_cons in Hblks as [Hblk Hblks].
    set (depth := Z.of_nat (length (sd :: q))).
    destruct (update_samples_body_events lag depth w sd HB Hwo HW Hd Hrows Hblk)
      as (w1 & frame & Hw1 & Hcfg & Hrows1 & Hframe & Hbody).
    destruct (same_config_sizes _ _ Hcfg) as (HB1 & Hwo1 & HW1).
    pose proof Hcfg as (_ & _ & _ & Hd1 & _).
    destruct (IH (update_lag lag depth depth) w1) as (lag2 & w2 & Hdrain & Hframes);
      try lia; try assumption.
    { eapply Forall_impl; [exact Hblks|]. intros sd'. apply block_ok_same_config.
      exact Hcfg. }
    assert (Hfirst : frame_after nan w (take 1 (sd :: q)) = frame).
    { change (take 1 (sd :: q)) with [sd]. unfold frame_after. cbn [write_all].
      rewrite Hw1, !bind_Ok, Hframe. reflexivity. }
    exists lag2, w2. split.
    + cbn [drain]. fold depth. rewrite Hbody, bind_Ok. cbn beta iota.
      rewrite Hdrain, bind_Ok. do 2 f_equal.
      cbn [length seq fmap list_fmap concat]. f_equal.
      * unfold turn_events at 1. cbv zeta. fold depth.
        rewrite Z.sub_0_r, <- update_lag_lagging. change (Z.of_nat 0) with 0.
        rewrite Hfirst. reflexivity.
      * f_equal. rewrite <- fmap_S_seq, <- list_fmap_compose.
        apply list_fmap_ext. intros _ i _. cbn [compose].
        apply turn_events_next. exact Hw1.
    + intros [|i] Hi.
      * exists w1. rewrite Hfirst. cbn [take write_all]. rewrite Hw1, bind_Ok.
        split; [reflexivity|exact Hframe].
      * cbn [length] in Hi. destruct (Hframes i) as (w_i & Hw_i & Hr_i); [lia|].
        exists w_i. cbn [take]. rewrite (frame_after_cons w sd w1) by assumption.
        cbn [write_all]. rewrite Hw1, bind_Ok. split; assumption.
Qed.

(** X7: the inner loop on a queue of [n] well-formed blocks, when nothing is
    added meanwhile, writes every block and never raises.  Its events are,
    block after block in the order of the queue: the message while more
    than 10 blocks are left, then either 1 ms of sleep (lag mode) or the
    frame of the buffer as it is after this block, followed by 10 ms of
    sleep.  It is in lag mode at block [i] exactly when more than 5 blocks
    are left and it was lagging or found more than 10 blocks: out of lag
    mode and with at most 10 blocks every block gets its frame, and
    otherwise only the last 5 blocks do (all of them when there are fewer).
    Hence the number of frames and the time slept; the loop has left lag
    mode when the queue is empty. *)
Theorem drain_frames (q : list (@SampleData F)) (lag : bool) w :
  0 < ring_size w -> 0 < white_out w -> 2 <= window_len w ->
  0 < _downsampling_factor w -> rows_ok w -> Forall (block_ok w) q ->
  exists lag' w' ev,
    drain nan lag w q = Ok (lag', w', ev) /\
    write_all nan w q = Ok w' /\
    ev = concat (turn_events nan lag w q <$> seq 0 (length q)) /\
    (forall i : nat, (i < length q)%nat ->
       lagging lag (Z.of_nat (length q)) (Z.of_nat i)
       = (Z.of_nat i + 5 <? Z.of_nat (length q)) && (lag || (10 <? Z.of_nat (length q))) /\
       exists w_i, write_all nan w (take (S i) q) = Ok w_i /\
                   render_slice w_i = Ok (frame_after nan w (take (S i) q))) /\
    frames ev = (if lag || (10 <? Z.of_nat (length q))
                 then Z.min (Z.of_nat (length q)) 5 else Z.of_nat (length q)) /\
    slept ev = 10 * frames ev + (Z.of_nat (length q) - frames ev) /\
    (q <> [] -> lag' = false).
Proof.
  intros HB Hwo HW Hd Hrows Hblks.
  destruct (drain_counts q lag w HB Hwo HW Hd Hrows Hblks)
    as (lag' & w' & ev & Hdrain & Hwrite & Hframes & Hslept & Hlag).
  destruct (drain_events q lag w HB Hwo HW Hd Hrows Hblks)
    as (lag2 & w2 & Hdrain2 & Hturns).
  rewrite Hdrain in Hdrain2. injection Hdrain2 as _ _ Hev.
  exists lag', w', ev. split; [exact Hdrain|]. split; [exact Hwrite|].
  split; [exact Hev|]. split; [|repeat split; assumption].
  intros i Hi. split; [|apply Hturns; exact Hi].
  unfold lagging. f_equal.
  destruct (Z.ltb_spec 5 (Z.of_nat (length q) - Z.of_nat i)),
           (Z.ltb_spec (Z.of_nat i + 5) (Z.of_nat (length q))); try reflexivity; lia.
Qed.
End DrainFacts.

(** * The channel selection of the real-time plot *)

Section ChannelSelection.
Import RealTimePlotGui.

Lemma index_absent (x : Z) (l : list Z) : x ∉ l -> index x l = Raise ValueError.
Proof.
  induction l as [|y l IH]; intros Hx; [reflexivity|].
  apply not_elem_of_cons in Hx as [Hne Hx]. cbn [index].
  destruct (Z.eqb_spec x y); [contradiction|]. rewrite IH by assumption. reflexivity.
Qed.

Lemma index_first (x : Z) (pre post : list Z) :
  x ∉ pre -> index x (pre ++ x :: post) = Ok (length pre).
Proof.
  induction pre as [|y pre IH]; intros Hx.
  - cbn [app index length]. rewrite Z.eqb_refl. reflexivity.
  - apply not_elem_of_cons in Hx as [Hne Hx]. cbn [app index length].
    destruct (Z.eqb_spec x y); [contradiction|]. rewrite IH by assumption. reflexivity.
Qed.

Lemma cut_at_status_absent (status : Z) (todo current : list Z) :
  status ∉ todo -> cut_at_status status todo current = Ok current.
Proof.
  revert current. induction todo as [|i todo IH]; intros current Hs; [reflexivity|].
  apply not_elem_of_cons in Hs as [Hne Hs]. cbn [cut_at_status].
  destruct (Z.eqb_spec i status); [congruence|]. apply IH. assumption.
Qed.

Lemma cut_at_status_once (status : Z) (t1 t2 c1 c2 : list Z) :
  status ∉ t1 -> status ∉ t2 -> status ∉ c1 ->
  cut_at_status status (t1 ++ status :: t2) (c1 ++ status :: c2) = Ok c1.
Proof.
  intros Ht1 Ht2 Hc1. induction t1 as [|i t1 IH].
  - cbn [app cut_at_status]. rewrite Z.eqb_refl, index_first, bind_Ok by assumption.
    rewrite take_app_length. apply cut_at_status_absent. assumption.
  - apply not_elem_of_cons in Ht1 as [Hne Ht1]. cbn [app cut_at_status].
    destruct (Z.eqb_spec i status); [congruence|]. apply IH. assumption.
Qed.

Lemma cut_at_status_twice (status : Z) (t1 t2 t3 c1 c2 : list Z) :
  status ∉ t1 -> status ∉ t2 -> status ∉ c1 ->
  cut_at_status status (t1 ++ status :: t2 ++ status :: t3) (c1 ++ status :: c2)
  = Raise ValueError.
Proof.
  intros Ht1 Ht2 Hc1. induction t1 as [|i t1 IH].
  - cbn [app cut_at_status]. rewrite Z.eqb_refl, index_first, bind_Ok by assumption.
    rewrite take_app_length. clear Ht1. induction t2 as [|i t2 IH2].
    + cbn [app cut_at_status]. rewrite Z.eqb_refl, index_absent by assumption.
      reflexivity.
    + apply not_elem_of_cons in Ht2 as [Hne Ht2]. cbn [app cut_at_status].
      destruct (Z.eqb_spec i status); [congruence|]. apply IH2. assumption.
  - apply not_elem_of_cons in Ht1 as [Hne Ht1]. cbn [app cut_at_status].
    destruct (Z.eqb_spec i status); [congruence|]. apply IH. assumption.
Qed.

(** X10: the channel selection of a plot for a device with [channels]
    channels, whose STATUS channel has the index [channels - 2]: without a
    selection every channel but the last one (COUNTER) is shown; a
    selection that does not name the STATUS channel is kept and the STATUS
    channel is appended; a selection that names it once is cut there, so
    that the channels listed after it are dropped; a selection that names
    it twice raises [ValueError]. *)
Theorem init_channel_selection_cases (channels : Z) :
  let status := channels - 2 in
  init_channel_selection channels None = Ok (seqZ 0 (channels - 1)) /\
  init_channel_selection channels (Some []) = Ok (seqZ 0 (channels - 1)) /\
  (forall selection, selection <> [] -> status ∉ selection ->
     init_channel_selection channels (Some selection) = Ok (selection ++ [status])) /\
  (forall before after, status ∉ before -> status ∉ after ->
     init_channel_selection channels (Some (before ++ status :: after))
     = Ok (before ++ [status])) /\
  (forall before between after, status ∉ before -> status ∉ between ->
     init_channel_selection channels (Some (before ++ status :: between ++ status :: after))
     = Raise ValueError).
Proof.
  cbv zeta. unfold init_channel_selection, Np.arange.
  replace (channels - 1 - 0) with (channels - 1) by lia.
  split; [reflexivity|]. split; [reflexivity|]. split; [|split].
  - intros selection Hne Hs. destruct selection as [|i selection]; [contradiction|].
    rewrite cut_at_status_absent by assumption. reflexivity.
  - intros before after Hb Ha.
    destruct (before ++ (channels - 2) :: after) as [|i l] eqn:Heq.
    { destruct before; discriminate. }
    rewrite <- Heq, cut_at_status_once by assumption. reflexivity.
  - intros before between after Hb Hm.
    destruct (before ++ (channels - 2) :: between ++ (channels - 2) :: after)
      as [|i l] eqn:Heq.
    { destruct before; discriminate. }
    rewrite <- Heq.
    rewrite (cut_at_status_twice (channels - 2) before between after before
               (between ++ (channels - 2) :: after)) by assumption.
    reflexivity.
Qed.
End ChannelSelection.

(** * The construction of the real-time plot *)

Section Construction.
Context {F : Type} (nan : F).

Lemma channel_at_ok (n : nat) (i : Z) :
  index_ok n i -> exists p, channel_at n int64 i = Ok p.
Proof.
  unfold index_ok, channel_at. intros Hi.
  destruct (Z.leb_spec 0 i), (Z.ltb_spec i (Z.of_nat n)); cbn [andb];
    try (eexists; reflexivity); try lia.
  destruct (Z.leb_spec (- Z.of_nat n) i), (Z.ltb_spec i 0); cbn [andb];
    try (eexists; reflexivity); lia.
Qed.

Lemma channel_at_raise (n : nat) (i : Z) :
  ~ index_ok n i -> channel_at n int64 i = Raise IndexError.
Proof.
  unfold index_ok, channel_at. intros Hi.
  destruct (Z.leb_spec 0 i), (Z.ltb_spec i (Z.of_nat n)); cbn [andb]; try lia;
    destruct (Z.leb_spec (- Z.of_nat n) i), (Z.ltb_spec i 0); cbn [andb];
    try reflexivity; lia.
Qed.

Lemma traverse_channel_at_ok (n : nat) (l : list Z) :
  Forall (index_ok n) l -> exists ps, traverse (channel_at n int64) l = Ok ps.
Proof.
  induction 1 as [|i l Hi _ [ps IH]]; [exists []; reflexivity|].
  destruct (channel_at_ok n i Hi) as [p Hp].
  exists (p :: ps). cbn [traverse]. rewrite Hp, bind_Ok, IH, bind_Ok. reflexivity.
Qed.

Lemma traverse_channel_at_raise (n : nat) (l : list Z) :
  Exists (fun i => ~ index_ok n i) l ->
  traverse (channel_at n int64) l = Raise IndexError.
Proof.
  induction 1 as [i l Hi|i l _ IH]; cbn [traverse].
  - rewrite channel_at_raise by assumption. reflexivity.
  - destruct (decide (index_ok n i)) as [Hi|Hi].
    + destruct (channel_at_ok n i Hi) as [p Hp]. rewrite Hp, bind_Ok, IH. reflexivity.
    + rewrite channel_at_raise by assumption. reflexivity.
Qed.

Lemma initUI_int64 (channels : nat) (selection : list Z) (rate : Z) :
  selection <> [] ->
  (Forall (index_ok channels) selection ->
   initUI nan channels {| dtype_of := int64; items := selection |} rate
   = init_window_buffer nan rate channels) /\
  (Exists (fun i => ~ index_ok channels i) selection ->
   initUI nan channels {| dtype_of := int64; items := selection |} rate
   = Raise IndexError).
Proof.
  intros Hne. unfold initUI. cbn [items dtype_of].
  destruct selection as [|i l]; [contradiction|]. cbn [length Nat.eqb].
  split.
  - intros Hok. destruct (traverse_channel_at_ok channels _ Hok) as [ps Hps].
    rewrite Hps, bind_Ok. reflexivity.
  - intros Hbad. rewrite traverse_channel_at_raise by assumption. reflexivity.
Qed.

Lemma init_kept (channels : nat) (selection kept : list Z) (rate : Z) :
  selection <> [] -> kept <> [] ->
  RealTimePlotGui.cut_at_status (Z.of_nat channels - 2) selection selection = Ok kept ->
  (Forall (index_ok channels) kept ->
   RealTimePlotGui.__init__ nan channels (Some selection) rate = init_window_buffer nan rate channels) /\
  (Exists (fun i => ~ index_ok channels i) kept ->
   RealTimePlotGui.__init__ nan channels (Some selection) rate = Raise IndexError).
Proof.
  intros Hsel Hkept Hcut. unfold RealTimePlotGui.__init__, RealTimePlotGui._channel_selection.
  destruct selection as [|s0 sel]; [contradiction|].
  rewrite Hcut, !bind_Ok.
  destruct kept as [|k0 kept]; [contradiction|].
  destruct (initUI_int64 channels ((k0 :: kept) ++ [Z.of_nat channels - 2]) rate)
    as [Hok Hbad]; [discriminate|].
  split.
  - intros Hall. apply Hok. apply Forall_app. split; [exact Hall|].
    apply Forall_cons in Hall as [H0 _]. constructor; [|constructor].
    unfold index_ok in *. lia.
  - intros Hex. apply Hbad. apply Exists_app. left. exact Hex.
Qed.

(** X6: the construction of the plot.  The array [_channel_selection]
    holds the numbers that [init_channel_selection] gives.  Without a
    selection, a device with fewer than two channels shows no channel and
    [initUI] raises [IndexError]; a selection that starts with the index of
    the STATUS channel is cut to the empty list, the array becomes a float
    array and [initUI] raises [TypeError]; a selection that is kept (up to
    the STATUS channel) raises [IndexError] when one of its entries is not
    an index of the channel list.  In every other case the result is the
    one of [init_window_buffer], which refuses a negative sample rate and
    otherwise builds a fresh buffer of NaN rows of the length of the ring;
    for a sample rate of at least 500 every later write and render is well
    defined in it: a positive white-out width, a window of at least two
    samples that fits the ring, and a positive downsampling factor.  A plot
    is only ever built this way. *)
Theorem initUI_establishes (channels : nat) (rate : Z) :
  let status := Z.of_nat channels - 2 in
  (forall channel_selection,
     RealTimePlotGui.init_channel_selection (Z.of_nat channels) channel_selection
     = (a ← RealTimePlotGui._channel_selection (Z.of_nat channels) channel_selection; Ok (items a))) /\
  (forall channel_selection, channel_selection = None \/ channel_selection = Some [] ->
     RealTimePlotGui.__init__ nan channels channel_selection rate
     = if (channels <=? 1)%nat then Raise IndexError
       else init_window_buffer nan rate channels) /\
  (forall after, status ∉ after ->
     RealTimePlotGui.__init__ nan channels (Some (status :: after)) rate = Raise TypeError) /\
  (forall selection, selection <> [] -> status ∉ selection ->
     (Forall (index_ok channels) selection ->
      RealTimePlotGui.__init__ nan channels (Some selection) rate = init_window_buffer nan rate channels) /\
     (Exists (fun i => ~ index_ok channels i) selection ->
      RealTimePlotGui.__init__ nan channels (Some selection) rate = Raise IndexError)) /\
  (forall before after, before <> [] -> status ∉ before -> status ∉ after ->
     (Forall (index_ok channels) before ->
      RealTimePlotGui.__init__ nan channels (Some (before ++ status :: after)) rate
      = init_window_buffer nan rate channels) /\
     (Exists (fun i => ~ index_ok channels i) before ->
      RealTimePlotGui.__init__ nan channels (Some (before ++ status :: after)) rate = Raise IndexError)) /\
  (rate < 0 -> init_window_buffer nan rate channels = Raise ValueError) /\
  (0 <= rate ->
   exists p, init_window_buffer nan rate channels = Ok p /\
     window_inv p /\
     length (window_buffer (worker p)) = channels /\
     fresh_buffer nan (worker p) /\ rows_ok (worker p) /\
     ring_size (worker p) = rate * 10 /\
     white_out (worker p) = rate / 5 /\
     (500 <= rate ->
      0 < white_out (worker p) /\
      2 <= window_len (worker p) <= ring_size (worker p) /\
      0 < _downsampling_factor (worker p))) /\
  (forall channel_selection p,
     RealTimePlotGui.__init__ nan channels channel_selection rate = Ok p ->
     init_window_buffer nan rate channels = Ok p /\ (1 <= channels)%nat /\ 0 <= rate).
Proof.
  cbv zeta. split; [|split; [|split; [|split; [|split; [|split; [|split]]]]]].
  - intros [[|i l]|]; unfold RealTimePlotGui.init_channel_selection, RealTimePlotGui._channel_selection;
      try reflexivity.
    destruct (RealTimePlotGui.cut_at_status _ _ _); reflexivity.
  - intros cs Hcs. unfold RealTimePlotGui.__init__.
    assert (Harr : RealTimePlotGui._channel_selection (Z.of_nat channels) cs
                   = Ok {| dtype_of := int64;
                           items := Np.arange 0 (Z.of_nat channels - 1) |}).
    { destruct Hcs as [-> | ->]; reflexivity. }
    rewrite Harr, bind_Ok. destruct (Nat.leb_spec channels 1) as [Hfew|Hmany].
    + unfold initUI. cbn [items dtype_of]. unfold Np.arange.
      rewrite length_seqZ.
      replace (Z.to_nat (Z.of_nat channels - 1 - 0)) with 0%nat by lia. reflexivity.
    + apply initUI_int64.
      * unfold Np.arange. intros Hnil. apply (f_equal length) in Hnil.
        rewrite length_seqZ in Hnil. simpl in Hnil. lia.
      * apply Forall_forall. intros i Hi. unfold Np.arange in Hi.
        apply elem_of_seqZ in Hi. unfold index_ok. lia.
  - intros after Hafter. unfold RealTimePlotGui.__init__, RealTimePlotGui._channel_selection.
    cbn [RealTimePlotGui.cut_at_status RealTimePlotGui.index].
    rewrite Z.eqb_refl, bind_Ok. cbn [take].
    rewrite cut_at_status_absent by assumption. rewrite !bind_Ok. reflexivity.
  - intros selection Hne Hs. apply init_kept; [assumption|assumption|].
    apply cut_at_status_absent. assumption.
  - intros before after Hne Hb Ha. apply init_kept; [|assumption|].
    + destruct before; discriminate.
    + apply cut_at_status_once; assumption.
  - intros Hneg. unfold init_window_buffer.
    destruct (Z.ltb_spec (rate * 10) 0); [reflexivity|lia].
  - intros Hrate. unfold init_window_buffer. destruct (Z.ltb_spec (rate * 10) 0); [lia|].
    eexists. split; [reflexivity|].
    cbn [worker window_buffer]. unfold window_inv, fresh_buffer, rows_ok, ring_size,
      white_out, window_len.
    cbn [worker ui_window_size ui_buffer_size window_size _buffer_size sample_rate
         window_buffer samples_seen _downsampling_factor].
    assert (Hwo : 5 * rate * 4 / 100 = rate / 5).
    { replace (5 * rate * 4) with (rate * 20) by lia. change 100 with (5 * 20).
      apply Z.div_mul_cancel_r; lia. }
    rewrite Hwo.
    split; [lia|]. split; [apply length_replicate|].
    split; [split; [reflexivity|apply Forall_replicate; reflexivity]|].
    split; [apply Forall_replicate; rewrite length_replicate; lia|].
    split; [reflexivity|]. split; [reflexivity|].
    intros Hhigh. assert (0 < rate / 5) by (apply Z.div_str_pos; lia).
    split; [assumption|].
    split; [lia|]. unfold downsampling_factor. apply Z.quot_str_pos. lia.
  - intros cs p H. unfold RealTimePlotGui.__init__ in H.
    apply bind_Ok_inv in H as (a & Harr & H). unfold initUI in H.
    destruct (length (items a) =? 0)%nat eqn:Hlen; [discriminate|].
    apply bind_Ok_inv in H as (ps & Hps & H).
    split; [exact H|]. split.
    + destruct channels as [|n]; [|lia]. exfalso.
      destruct (items a) as [|i l]; [discriminate|]. cbn [traverse] in Hps.
      destruct (dtype_of a); [|discriminate Hps].
      rewrite channel_at_raise in Hps by (unfold index_ok; lia). discriminate Hps.
    + unfold init_window_buffer in H. destruct (Z.ltb_spec (rate * 10) 0); [discriminate|lia].
Qed.
End Construction.

(** * The ticks of the time axis *)

Section BottomTicks.
Import RealTimePlotGui.

(** X12: for a window of [window_size] seconds the time axis has one tick for
    each of the last [window_size] seconds up to [t_end]; the tick of
    second [val] is at position [val mod window_size], every position from
    0 to [window_size - 1] carries exactly one tick. *)
Theorem bottom_ticks_cover_window (t_end window_size : Z) :
  1 <= window_size ->
  let ticks := bottom_ticks t_end window_size in
  ticks.*2 = seqZ (t_end - window_size + 1) window_size /\
  (forall position label, (position, label) ∈ ticks ->
     position = label mod window_size /\ 0 <= position < window_size) /\
  NoDup ticks.*1 /\
  (forall position, 0 <= position < window_size ->
     exists label, (position, label) ∈ ticks).
Proof.
  intros Hws. cbv zeta. unfold bottom_ticks, Np.arange.
  replace (t_end + 1 - (t_end - (window_size - 1))) with window_size by lia.
  replace (t_end - (window_size - 1)) with (t_end - window_size + 1) by lia.
  set (first := t_end - window_size + 1).
  split; [|split; [|split]].
  - rewrite <- list_fmap_compose. apply list_fmap_id.
  - intros position label Hin. apply list_elem_of_fmap in Hin as (val & Heq & _).
    injection Heq as -> ->. rewrite mod_pos by lia.
    split; [reflexivity|]. apply Z.mod_pos_bound. lia.
  - rewrite <- list_fmap_compose. apply NoDup_fmap_2_strong; [|apply NoDup_seqZ].
    intros x y Hx Hy Heq. cbn in Heq. rewrite !mod_pos in Heq by lia.
    apply elem_of_seqZ in Hx. apply elem_of_seqZ in Hy.
    apply (mod_window_inj window_size); lia.
  - intros position Hpos.
    exists (first + (position - first) mod window_size).
    apply list_elem_of_fmap.
    exists (first + (position - first) mod window_size). split.
    + f_equal. rewrite mod_pos by lia. rewrite Z.add_mod_idemp_r by lia.
      replace (first + (position - first)) with position by lia.
      symmetry. apply Z.mod_small. lia.
    + apply elem_of_seqZ.
      pose proof (Z.mod_pos_bound (position - first) window_size ltac:(lia)). lia.
Qed.
End BottomTicks.

(** * The final index of [update_plot] *)

Section FinalIndex.
Import RealTimePlotGui.

Lemma elem_of_where_false (con : list bool) : forall (i g : Z),
  g ∈ where_false i con <-> i <= g /\ con !! Z.to_nat (g - i) = Some false.
Proof.
  induction con as [|b con IH]; intros i g.
  - cbn [where_false]. rewrite elem_of_nil, lookup_nil. split; [tauto|intros [_ H]; discriminate].
  - assert (Hrec : g ∈ where_false (i + 1) con <->
                   i < g /\ (b :: con) !! Z.to_nat (g - i) = Some false).
    { rewrite IH. split; intros [Hle Hg].
      - split; [lia|]. replace (Z.to_nat (g - i)) with (S (Z.to_nat (g - (i + 1)))) by lia.
        exact Hg.
      - split; [lia|]. replace (Z.to_nat (g - i)) with (S (Z.to_nat (g - (i + 1)))) in Hg by lia.
        exact Hg. }
    cbn [where_false]. destruct b.
    + rewrite Hrec. split; [intros [Hlt Hg]; split; [lia|exact Hg]|].
      intros [Hle Hg]. split; [|exact Hg].
      destruct (Z.eq_dec g i) as [->|]; [|lia].
      rewrite Z.sub_diag in Hg. discriminate.
    + rewrite elem_of_cons, Hrec. split.
      * intros [->|[Hlt Hg]]; [|split; [lia|exact Hg]].
        split; [lia|]. rewrite Z.sub_diag. reflexivity.
      * intros [Hle Hg]. destruct (Z.eq_dec g i) as [->|]; [left; reflexivity|].
        right. split; [lia|exact Hg].
Qed.

Lemma where_false_range (con : list bool) (g : Z) :
  g ∈ where_false 0 con -> 0 <= g < Z.of_nat (length con).
Proof.
  intros Hg. apply elem_of_where_false in Hg as [Hle Hg].
  apply lookup_lt_Some in Hg. lia.
Qed.

Lemma any_false_iff (a : list Z) : any a = false <-> forall g, g ∈ a -> g = 0.
Proof.
  unfold any. induction a as [|x a IH]; cbn [existsb].
  - split; [intros _ g Hg; inversion Hg|reflexivity].
  - rewrite orb_false_iff, IH. split.
    + intros [Hx Ha] g Hg. apply elem_of_cons in Hg as [->|Hg]; [|auto].
      destruct (Z.eqb_spec x 0); [assumption|discriminate].
    + intros H. split.
      * rewrite (H x) by left. reflexivity.
      * intros g Hg. apply H. right. exact Hg.
Qed.

Lemma last_elem_of (l : list Z) (x : Z) : List.last (x :: l) x ∈ x :: l.
Proof.
  revert x. induction l as [|y l IH]; intros x; [left|].
  change (List.last (x :: y :: l) x) with (List.last (y :: l) x). right.
  assert (H : forall d, List.last (y :: l) d = List.last (y :: l) y).
  { clear. revert y. induction l as [|z l IH]; intros y d; [reflexivity|].
    change (List.last (y :: z :: l) d) with (List.last (z :: l) d).
    change (List.last (y :: z :: l) y) with (List.last (z :: l) y).
    rewrite (IH z d), (IH z y). reflexivity. }
  rewrite H. apply IH.
Qed.

(** X11: the search for the final index returns without a result exactly when
    the first row has no gap except possibly in column 0.  When the first
    gap is not in column 0, the result is the column before it, which
    holds a sample.  For a frame of more than 10 columns that has exactly
    [window_size * sample_rate / d] columns, the search never raises and
    every index it yields is a column of the frame. *)
Theorem final_index_cases (con0 : list bool) (window_size sample_rate d : Z) :
  (final_index con0 window_size sample_rate d = Return <->
     forall g, g ∈ where_false 0 con0 -> g = 0) /\
  (forall (n : nat) (rest : list bool), (0 < n)%nat ->
     con0 = replicate n true ++ false :: rest ->
     final_index con0 window_size sample_rate d = Final (Z.of_nat n - 1) /\
     con0 !! Z.to_nat (Z.of_nat n - 1) = Some true) /\
  (0 < d -> Z.of_nat (length con0) * d = window_size * sample_rate ->
   (10 < length con0)%nat ->
   match final_index con0 window_size sample_rate d with
   | Return => True
   | Final idx_final => 0 <= idx_final < Z.of_nat (length con0)
   | Fail _ => False
   end).
Proof.
  split; [|split].
  - unfold final_index. rewrite <- any_false_iff.
    destruct (any (where_false 0 con0)) eqn:Hany; cbn [negb].
    + split; [|discriminate].
      destruct (where_false 0 con0) as [|first gaps]; [discriminate|].
      destruct (negb (first =? 0)); [discriminate|].
      destruct (d =? 0); [discriminate|].
      destruct (negb _); [discriminate|]. destruct (find _ _); discriminate.
    + split; reflexivity.
  - intros n rest Hn ->. split.
    + assert (Hgaps : exists gaps, where_false 0 (replicate n true ++ false :: rest)
                                   = Z.of_nat n :: gaps).
      { assert (H : forall i, where_false i (replicate n true ++ false :: rest)
                    = i + Z.of_nat n :: where_false (i + Z.of_nat n + 1) rest).
        { clear Hn. induction n as [|n IH]; intros i.
          - cbn [replicate app where_false]. rewrite Z.add_0_r. reflexivity.
          - cbn [replicate app where_false]. rewrite IH.
            replace (i + 1 + Z.of_nat n) with (i + Z.of_nat (S n)) by lia.
            reflexivity. }
        rewrite H. eexists. reflexivity. }
      destruct Hgaps as [gaps Hgaps]. unfold final_index. rewrite Hgaps.
      unfold any. cbn [existsb].
      destruct (Z.eqb_spec (Z.of_nat n) 0); [lia|]. reflexivity.
    + rewrite lookup_app_l by (rewrite length_replicate; lia).
      apply lookup_replicate_2. lia.
  - intros Hd Hlen Hmany. unfold final_index.
    destruct (any (where_false 0 con0)) eqn:Hany; cbn [negb]; [|exact I].
    destruct (where_false 0 con0) as [|first gaps] eqn:Hgaps; [discriminate|].
    assert (Hin : forall g, g ∈ first :: gaps -> 0 <= g < Z.of_nat (length con0)).
    { intros g Hg. apply where_false_range. rewrite Hgaps. exact Hg. }
    destruct (Z.eqb_spec first 0) as [Hzero|Hnz]; cbn [negb].
    + destruct (Z.eqb_spec d 0); [lia|].
      destruct (Z.eqb_spec ((List.last (first :: gaps) first + 1) * d)
                  (window_size * sample_rate)) as [Hlast|Hlast]; cbn [negb].
      * destruct (Z.ltb_spec 0 d); [|lia].
        destruct (find _ (first :: gaps)) as [g|] eqn:Hfind.
        -- apply find_some in Hfind as [Hg Hbeyond]. apply list_elem_of_In in Hg.
           apply Hin in Hg. apply Z.ltb_lt in Hbeyond. nia.
        -- pose proof (last_elem_of gaps first) as Hl.
           apply list_elem_of_In in Hl.
           apply (find_none _ _ Hfind) in Hl. apply Z.ltb_ge in Hl. nia.
      * rewrite <- Hlen.
        replace (Z.of_nat (length con0) * d - d)
          with ((Z.of_nat (length con0) - 1) * d) by lia.
        rewrite Z.quot_mul by lia. lia.
    + pose proof (Hin first ltac:(left)). lia.
Qed.
End FinalIndex.

(** * The show-all and hide-all buttons *)

Section ShowHide.
Import RealTimePlotGui.
Context {ChannelType : Type} `{EqDecision ChannelType}.

Lemma set_all_unchanged (type : ChannelType) (state : bool)
    (boxes : list (bool * ChannelType)) :
  forallb (fun box : bool * ChannelType =>
             if decide (box.2 = type) then eqb box.1 state else true) boxes = true
  <-> (fun box : bool * ChannelType =>
         if decide (box.2 = type) then (state, box.2) else box) <$> boxes = boxes.
Proof.
  induction boxes as [|[checked T] boxes IH]; [split; reflexivity|].
  cbn [forallb fmap list_fmap]. rewrite andb_true_iff, IH. cbn [fst snd].
  destruct (decide (T = type)) as [->|Hne].
  - rewrite eqb_true_iff. split.
    + intros [-> Heq]. rewrite Heq. reflexivity.
    + intros Heq. split; congruence.
  - split; [intros [_ Heq]; rewrite Heq; reflexivity|].
    intros Heq. split; [reflexivity|congruence].
Qed.

Lemma set_all_settled (type : ChannelType) (state : bool)
    (boxes : list (bool * ChannelType)) :
  forallb (fun box : bool * ChannelType =>
             if decide (box.2 = type) then eqb box.1 state else true)
    ((fun box : bool * ChannelType =>
        if decide (box.2 = type) then (state, box.2) else box) <$> boxes) = true.
Proof.
  induction boxes as [|[checked T] boxes IH]; [reflexivity|].
  cbn [forallb fmap list_fmap]. rewrite IH, andb_true_r. cbn [fst snd].
  destruct (decide (T = type)) as [->|Hne]; cbn [fst snd].
  - destruct (decide (type = type)); [apply eqb_reflx|contradiction].
  - destruct (decide (T = type)); [contradiction|reflexivity].
Qed.

Lemma set_all_pending (type : ChannelType) (state : bool)
    (boxes : list (bool * ChannelType)) :
  forallb (fun box : bool * ChannelType =>
             if decide (box.2 = type) then eqb box.1 state else true) boxes = false ->
  exists (i : nat) (checked : bool),
    boxes !! i = Some (checked, type) /\ checked <> state.
Proof.
  induction boxes as [|[checked T] boxes IH]; [discriminate|].
  cbn [forallb]. intros Hforall. apply andb_false_iff in Hforall as [Hhead|Htail].
  - cbn [fst snd] in Hhead. destruct (decide (T = type)) as [->|]; [|discriminate].
    exists O, checked. split; [reflexivity|].
    intros ->. rewrite eqb_reflx in Hhead. discriminate.
  - destruct (IH Htail) as (i & c & Hi & Hne). exists (S i), c. split; assumption.
Qed.

(** X13: a show-all or hide-all button sets every checkbox of its type to its
    state and leaves the checkboxes of the other types alone; it calls
    [_update_channel_display] exactly when some checkbox of the type was
    in the other state, so a second click changes nothing and does not
    redraw. *)
Theorem set_all_spec (type : ChannelType) (state : bool)
    (_checkboxes : list (bool * ChannelType)) :
  let result := set_all type state _checkboxes in
  result.1 = (fun box => if decide (box.2 = type) then (state, box.2) else box)
               <$> _checkboxes /\
  (result.2 = true <->
     exists (i : nat) (checked : bool),
       _checkboxes !! i = Some (checked, type) /\ checked <> state) /\
  set_all type state result.1 = (result.1, false).
Proof.
  cbv zeta. remember (set_all type state _checkboxes) as result eqn:Hres.
  unfold set_all in Hres.
  destruct (forallb _ _checkboxes) eqn:Hforall; subst result; cbn [fst snd].
  - apply set_all_unchanged in Hforall as Hsame.
    split; [symmetry; exact Hsame|]. split.
    + split; [discriminate|]. intros (i & checked & Hi & Hne). exfalso.
      apply (f_equal (fun l => l !! i)) in Hsame.
      rewrite list_lookup_fmap, Hi in Hsame. cbn in Hsame.
      destruct (decide (type = type)); [|contradiction].
      injection Hsame as Heq. congruence.
    + unfold set_all. rewrite Hforall. reflexivity.
  - split; [reflexivity|]. split.
    + split; [intros _; apply set_all_pending; exact Hforall|reflexivity].
    + unfold set_all. rewrite set_all_settled. reflexivity.
Qed.
End ShowHide.

(** * The impedance plot *)

Section ImpedanceLayout.
Import ImpedancePlotGui.

Lemma spots_from_closed (n : Z) (todo : nat) : forall (i row_count : Z),
  0 <= i -> i + Z.of_nat todo <= n ->
  (1 <= i -> row_count = (i - 2) / 8) -> (i = 0 -> row_count = -1) ->
  spots_from n i todo row_count = spot n <$> seqZ i (Z.of_nat todo).
Proof.
  induction todo as [|todo IH]; intros i rc Hi Hn Hrc Hrc0; [reflexivity|].
  rewrite seqZ_cons by lia. cbn [fmap list_fmap].
  replace (Z.pred (Z.of_nat (S todo))) with (Z.of_nat todo) by lia.
  replace (Z.succ i) with (i + 1) by lia.
  cbn [spots_from]. unfold spot at 1.
  destruct (Z.eqb_spec i 0) as [->|Hnz].
  { f_equal. apply IH; [lia|lia| |lia]. intros _. rewrite Hrc0 by reflexivity. reflexivity. }
  assert (Hnext : forall rc', rc' = (i - 1) / 8 ->
            spots_from n (i + 1) todo rc' = spot n <$> seqZ (i + 1) (Z.of_nat todo)).
  { intros rc' ->. apply IH; [lia|lia| |lia]. intros _. f_equal. lia. }
  assert (Hdiv : (i - 1) / 8 = (i - 2) / 8 + (if (i - 1) mod 8 =? 0 then 1 else 0)).
  { pose proof (Z.div_mod (i - 1) 8 ltac:(lia)) as H1.
    pose proof (Z.mod_pos_bound (i - 1) 8 ltac:(lia)) as H2.
    pose proof (Z.div_mod (i - 2) 8 ltac:(lia)) as H3.
    pose proof (Z.mod_pos_bound (i - 2) 8 ltac:(lia)) as H4.
    destruct (Z.eqb_spec ((i - 1) mod 8) 0); lia. }
  destruct (Z.eqb_spec i (n - 1)).
  - f_equal. destruct todo as [|todo']; [reflexivity|lia].
  - destruct (Z.eqb_spec ((i - 1) mod 8) 0) as [Hz|Hz].
    + rewrite Hdiv, <- Hrc by lia. f_equal. apply Hnext. rewrite Hdiv, Hrc by lia. reflexivity.
    + rewrite Hdiv, <- Hrc, Z.add_0_r by lia. f_equal. apply Hnext.
      rewrite Hdiv, Hrc by lia. lia.
Qed.

Lemma spot_inj (n i j : Z) :
  n <= 69 -> 0 <= i < n -> 0 <= j < n -> spot n i = spot n j -> i = j.
Proof.
  intros Hn Hi Hj. unfold spot.
  pose proof (Z.div_mod (i - 1) 8 ltac:(lia)) as Hdi.
  pose proof (Z.mod_pos_bound (i - 1) 8 ltac:(lia)) as Hmi.
  pose proof (Z.div_mod (j - 1) 8 ltac:(lia)) as Hdj.
  pose proof (Z.mod_pos_bound (j - 1) 8 ltac:(lia)) as Hmj.
  destruct (Z.eqb_spec i 0), (Z.eqb_spec j 0), (Z.eqb_spec i (n - 1)),
    (Z.eqb_spec j (n - 1)); intros Heq; inversion Heq; lia.
Qed.

(** X14: in the normal layout the first indicator sits at (3, 8), the last one
    at (4, 8), and indicator [i] between them at column [(i - 1) mod 8] of
    row [(i - 1) / 8]; no two indicators share a position exactly when
    there are at most 69 impedance channels. *)
Theorem normal_layout_positions (imp_channels : nat) :
  normal_layout imp_channels
    = spot (Z.of_nat imp_channels) <$> seqZ 0 (Z.of_nat imp_channels) /\
  (NoDup (normal_layout imp_channels) <-> (imp_channels <= 69)%nat).
Proof.
  assert (Hclosed : normal_layout imp_channels
            = spot (Z.of_nat imp_channels) <$> seqZ 0 (Z.of_nat imp_channels)).
  { unfold normal_layout. apply spots_from_closed; lia. }
  split; [exact Hclosed|]. rewrite Hclosed. split.
  - intros Hnodup. destruct (Nat.le_gt_cases imp_channels 69) as [|Hbig]; [assumption|].
    exfalso.
    assert (H0 : (spot (Z.of_nat imp_channels) <$> seqZ 0 (Z.of_nat imp_channels)) !! 0%nat
                 = Some (3, 8)).
    { rewrite list_lookup_fmap, lookup_seqZ_lt by lia. reflexivity. }
    assert (H68 : (spot (Z.of_nat imp_channels) <$> seqZ 0 (Z.of_nat imp_channels)) !! 68%nat
                  = Some (3, 8)).
    { rewrite list_lookup_fmap, lookup_seqZ_lt by lia. cbn [fmap option_fmap option_map].
      unfold spot. destruct (Z.eqb_spec (0 + Z.of_nat 68) 0); [lia|].
      destruct (Z.eqb_spec (0 + Z.of_nat 68) (Z.of_nat imp_channels - 1)); [lia|].
      reflexivity. }
    pose proof (NoDup_lookup _ _ _ _ Hnodup H0 H68). discriminate.
  - intros Hsmall. apply NoDup_fmap_2_strong; [|apply NoDup_seqZ].
    intros i j Hi Hj. apply elem_of_seqZ in Hi. apply elem_of_seqZ in Hj.
    apply spot_inj; lia.
Qed.

Lemma legend_brushes :
  _generate_legend.*2 =
  [ ImpedancePlot.rgb 0 255 0; ImpedancePlot.rgb 0 204 0; ImpedancePlot.rgb 0 153 0;
    ImpedancePlot.rgb 0 102 0; ImpedancePlot.rgb 255 255 0; ImpedancePlot.rgb 204 128 0;
    ImpedancePlot.rgb 255 0 0; ImpedancePlot.rgb 153 0 0; ImpedancePlot.rgb 102 66 33;
    ImpedancePlot.rgb 128 128 128; ImpedancePlot.rgb 204 0 102; ImpedancePlot.rgb 0 0 179 ].
Proof. reflexivity. Qed.

Ltac colour_in_legend :=
  rewrite legend_brushes; apply list_elem_of_In;
  repeat first [left; reflexivity | right].

(** X15: the legend and the colour table agree: every colour the table
    returns is the brush of a legend entry, every legend brush is returned
    for some value, and the twelve brushes are pairwise different. *)
Theorem legend_matches_lookup_table :
  (forall value color, ImpedancePlot._lookup_table value = Ok color ->
     color ∈ _generate_legend.*2) /\
  (forall color, color ∈ _generate_legend.*2 ->
     exists value, ImpedancePlot._lookup_table value = Ok color) /\
  NoDup _generate_legend.*2 /\
  length _generate_legend = 12%nat.
Proof.
  split; [|split; [|split; [|reflexivity]]].
  - intros value color. unfold ImpedancePlot._lookup_table.
    repeat (branch_on_test; [solve [intros [= <-]; colour_in_legend] | ]).
    all: try solve [intros [= <-]; colour_in_legend].
    all: repeat (branch_on_test; try solve [intros [= <-]; colour_in_legend]).
    all: discriminate.
  - intros color Hin. rewrite legend_brushes in Hin. apply list_elem_of_In in Hin.
    cbn [In] in Hin.
    repeat (destruct Hin as [<-|Hin];
            [first [ exists 0; reflexivity | exists 5; reflexivity
                   | exists 10; reflexivity | exists 30; reflexivity
                   | exists 50; reflexivity | exists 100; reflexivity
                   | exists 200; reflexivity | exists 400; reflexivity
                   | exists 500; reflexivity | exists 5000; reflexivity
                   | exists 5100; reflexivity | exists 5200; reflexivity ]|]).
    contradiction.
  - rewrite legend_brushes.
    repeat (apply NoDup_cons; split;
            [intros Hin; apply list_elem_of_In in Hin; cbn [In] in Hin;
             repeat (destruct Hin as [Hin|Hin]; [discriminate Hin|]); contradiction|]).
    apply NoDup_nil. exact I.
Qed.
End ImpedanceLayout.

Section ImpedanceLoop.
Context {F : Type} (int : F -> res Z).

Lemma traverse_refused (values : list F) (e : exn) :
  refused int values e -> traverse int values = Raise e.
Proof.
  intros (pre & x & post & -> & Hpre & Hx).
  induction Hpre as [|y pre [z Hz] _ IH]; cbn [app traverse].
  - rewrite Hx. reflexivity.
  - rewrite Hz, bind_Ok, IH. reflexivity.
Qed.

(** The body in terms of the sample set that is current after the [for]
    loop. *)
Lemma update_samples_body_current (sample_set : option (list F)) (sd : @SampleData F) :
  ImpedancePlot.update_samples_body int sample_set sd
  = match (match num_sample_sets sd with
           | O => sample_set
           | S _ => Some (last_sample_set sd)
           end) with
    | None => Raise UnboundLocalError
    | Some values =>
        impedance_values ← traverse int values;
        Ok (Some values, [ImpedancePlot.Emit impedance_values])
    end.
Proof.
  unfold ImpedancePlot.update_samples_body, last_sample_set.
  destruct (num_sample_sets sd) as [|i]; [destruct sample_set; reflexivity|].
  replace (S i - 1)%nat with i by lia. reflexivity.
Qed.

Lemma drain_converted (q : list (@SampleData F)) : forall sample_set zss,
  Forall (fun sd => (1 <= num_sample_sets sd)%nat) q ->
  Forall2 (fun sd zs => converted int (last_sample_set sd) zs) q zss ->
  ImpedancePlot.drain int sample_set q
  = Ok (match last q with Some sd => Some (last_sample_set sd) | None => sample_set end,
        ImpedancePlot.Emit <$> zss).
Proof.
  induction q as [|sd q IH]; intros sample_set zss Hk Hconv.
  - inversion Hconv. reflexivity.
  - inversion Hconv as [|? zs ? zss' Hzs Hrest]; subst.
    apply Forall_cons in Hk as [Hsd Hk].
    cbn [ImpedancePlot.drain]. rewrite update_samples_body_current.
    destruct (num_sample_sets sd) as [|i] eqn:Hi; [lia|].
    apply traverse_Ok_Forall2 in Hzs. rewrite Hzs, !bind_Ok. cbn beta iota.
    rewrite (IH _ zss' Hk Hrest), bind_Ok. cbn [fmap list_fmap app].
    destruct q as [|sd' q']; [reflexivity|].
    change (last (sd :: sd' :: q')) with (last (sd' :: q')).
    destruct (last (sd' :: q')) eqn:Hlast; [reflexivity|].
    apply last_None in Hlast. discriminate Hlast.
Qed.

(** X16: a turn of the impedance loop converts one sample set with [int]:
    for a block with [k >= 1] sample sets of [n] values it is the last
    sample set of the block, the values [samples[(k - 1) * n + c]], which
    is the last column of the array the real-time plotter makes of the
    same block; for a block without sample sets it is the sample set of
    the previous turn, and the turn raises [UnboundLocalError] when there
    was no previous turn.  The turn emits the integers when [int] converts
    every value, and otherwise raises the exception of the first value
    that [int] refuses (for a NaN, [ValueError]); it emits nothing else.
    The inner loop emits one list per block, in the order of the queue,
    as long as the last sample sets can be converted, and raises at the
    first block whose last sample set cannot, leaving the blocks behind it
    in the queue unhandled. *)
Theorem impedance_emits_last_sample_set (sample_set : option (list F))
    (sd : @SampleData F) :
  let n := num_samples_per_sample_set sd in
  let k := num_sample_sets sd in
  let current := match k with O => sample_set | S _ => Some (last_sample_set sd) end in
  ((1 <= k)%nat -> length (samples sd) = (n * k)%nat ->
   length (last_sample_set sd) = n /\
   forall c : nat, (c < n)%nat ->
     last_sample_set sd !! c = samples sd !! ((k - 1) * n + c)%nat /\
     last_sample_set sd !! c = block_channel sd c !! (k - 1)%nat) /\
  (current = None ->
   ImpedancePlot.update_samples_body int sample_set sd = Raise UnboundLocalError) /\
  (forall values impedance_values,
     current = Some values -> converted int values impedance_values ->
     ImpedancePlot.update_samples_body int sample_set sd
     = Ok (Some values, [ImpedancePlot.Emit impedance_values])) /\
  (forall values e,
     current = Some values -> refused int values e ->
     ImpedancePlot.update_samples_body int sample_set sd = Raise e) /\
  (forall sample_set' ev,
     ImpedancePlot.update_samples_body int sample_set sd = Ok (sample_set', ev) ->
     sample_set' = current /\
     exists values impedance_values,
       current = Some values /\ converted int values impedance_values /\
       ev = [ImpedancePlot.Emit impedance_values]) /\
  (forall q zss,
     Forall (fun sd' => (1 <= num_sample_sets sd')%nat) q ->
     Forall2 (fun sd' zs => converted int (last_sample_set sd') zs) q zss ->
     ImpedancePlot.drain int sample_set q
     = Ok (match last q with Some sd' => Some (last_sample_set sd') | None => sample_set end,
           ImpedancePlot.Emit <$> zss)) /\
  (forall q1 sd' q2 zss e,
     Forall (fun sd' => (1 <= num_sample_sets sd')%nat) q1 ->
     Forall2 (fun sd' zs => converted int (last_sample_set sd') zs) q1 zss ->
     (1 <= num_sample_sets sd')%nat -> refused int (last_sample_set sd') e ->
     ImpedancePlot.drain int sample_set (q1 ++ sd' :: q2) = Raise e).
Proof.
  cbv zeta. rewrite update_samples_body_current.
  split; [|split; [|split; [|split; [|split; [|split]]]]].
  - intros Hk Hlen. unfold last_sample_set. split.
    + rewrite length_take, length_drop, Hlen. nia.
    + intros c Hc. rewrite lookup_take_lt, lookup_drop by assumption.
      split; [f_equal; lia|].
      destruct (reshape_F_spec (samples sd) (num_samples_per_sample_set sd)
                  (num_sample_sets sd)) as (block & Hblock & Hrows & Hrow); [exact Hlen|].
      unfold block_channel. rewrite Hblock.
      destruct (lookup_lt_is_Some_2 block c) as [row Hr]; [lia|].
      rewrite Hr. cbn [default]. destruct (Hrow c row Hr) as [_ Hget].
      rewrite Hget by lia. f_equal. lia.
  - intros ->. reflexivity.
  - intros values zs -> Hzs. apply traverse_Ok_Forall2 in Hzs.
    rewrite Hzs, bind_Ok. reflexivity.
  - intros values e -> Hbad. rewrite (traverse_refused values e Hbad). reflexivity.
  - intros s' ev H.
    destruct (match num_sample_sets sd with
              | O => sample_set
              | S _ => Some (last_sample_set sd)
              end) as [values|]; [|discriminate].
    apply bind_Ok_inv in H as (zs & Hzs & H). injection H as <- <-.
    split; [reflexivity|]. exists values, zs. split; [reflexivity|].
    split; [apply traverse_Ok_Forall2; exact Hzs|reflexivity].
  - intros q zss. apply drain_converted.
  - intros q1 sd' q2 zss e Hk Hconv Hsd' Hbad. clear sd.
    revert sample_set zss Hconv.
    induction q1 as [|sd q1 IH]; intros sample_set zss Hconv.
    + cbn [app ImpedancePlot.drain]. rewrite update_samples_body_current.
      destruct (num_sample_sets sd') as [|i] eqn:Hi; [lia|].
      rewrite (traverse_refused _ e Hbad). reflexivity.
    + inversion Hconv as [|? zs ? zss' Hzs Hrest]; subst.
      apply Forall_cons in Hk as [Hsd Hk].
      cbn [app ImpedancePlot.drain]. rewrite update_samples_body_current.
      destruct (num_sample_sets sd) as [|i] eqn:Hi; [lia|].
      apply traverse_Ok_Forall2 in Hzs. rewrite Hzs, !bind_Ok. cbn beta iota.
      rewrite (IH Hk _ zss' Hrest). reflexivity.
Qed.
End ImpedanceLoop.

(** * The further properties at concrete inputs *)

Lemma write_all_keeps_shape_witness :
  exists w', write_all Scenario.NaN (worker (Scenario.plot 500 1)) (Scenario.blocks 0 3 1)
             = Ok w' /\ rows_ok w'.
Proof.
  destruct (one_channel_ring 500 3 1) as (w' & Hw' & _); [lia|lia|].
  exists w'. split; [exact Hw'|].
  apply (write_all_keeps_shape Scenario.NaN _ _ _ Hw'). exact plot_500_rows_ok.
Defined.

Lemma render_slice_short_window_witness :
  render_slice (worker (Nat.iter 4 _decrease_time_range (Scenario.plot 1 1)))
  = Raise IndexError.
Proof. apply render_slice_short_window. vm_compute. discriminate. Defined.

Lemma write_block_without_white_out_witness :
  write_block Scenario.NaN (worker (Scenario.plot 4 1)) (Scenario.block 0 2)
  = Raise ValueError.
Proof.
  apply (write_block_without_white_out Scenario.NaN (worker (Scenario.plot 4 1))
           (Scenario.block 0 2)).
  - reflexivity.
  - reflexivity.
  - repeat constructor.
  - split; reflexivity.
  - discriminate.
  - simpl. lia.
Defined.

Lemma render_slice_density_witness :
  exists frame, render_slice (worker (Scenario.plot 500 1)) = Ok frame /\
    forall out, out ∈ frame -> 2500 <= Z.of_nat (length out) <= 4995.
Proof.
  destruct (render_slice_density (worker (Scenario.plot 500 1)))
    as (frame & Hframe & _ & Hlen).
  - vm_compute. discriminate.
  - vm_compute. discriminate.
  - reflexivity.
  - exact plot_500_rows_ok.
  - reflexivity.
  - exists frame. split; [exact Hframe|]. exact Hlen.
Defined.

Lemma time_range_buttons_saturate_witness :
  ui_window_size (Nat.iter 20 _increase_time_range (Scenario.plot 500 1)) = 10 /\
  ui_window_size (Nat.iter 20 _decrease_time_range (Scenario.plot 500 1)) = 1.
Proof.
  destruct (time_range_buttons_saturate (Scenario.plot 500 1) 20) as (Hup & _ & Hdown & _).
  - vm_compute. split; discriminate.
  - split; [exact Hup|exact Hdown].
Defined.

Lemma drain_frames_witness :
  exists lag' w' ev,
    drain Scenario.NaN false (worker (Scenario.plot 500 1)) (Scenario.blocks 0 3 12)
      = Ok (lag', w', ev) /\
    take 2 ev = [Print; Sleep 1] /\
    frames ev = 5 /\
    lagging false 12 6 = true /\ lagging false 12 7 = false.
Proof.
  destruct (drain_frames Scenario.NaN (Scenario.blocks 0 3 12) false
              (worker (Scenario.plot 500 1)))
    as (lag' & w' & ev & Hdrain & _ & Hev & _ & Hframes & _).
  - reflexivity.
  - reflexivity.
  - vm_compute. discriminate.
  - reflexivity.
  - exact plot_500_rows_ok.
  - apply (blocks_one_channel (worker (Scenario.plot 500 1)) 3 12 0); [lia|reflexivity].
  - exists lag', w', ev. split; [exact Hdrain|].
    split; [rewrite Hev; reflexivity|]. split; [exact Hframes|]. split; reflexivity.
Defined.

Lemma initUI_establishes_witness :
  RealTimePlotGui.__init__ Scenario.NaN 5 (Some [0; 1; 2]) 4000
    = Ok (Scenario.plot 4000 5) /\
  RealTimePlotGui.__init__ Scenario.NaN 1 None 4000 = Raise IndexError /\
  RealTimePlotGui.__init__ Scenario.NaN 5 (Some [3; 0]) 4000 = Raise TypeError.
Proof.
  destruct (initUI_establishes Scenario.NaN 5 4000)
    as (_ & _ & Hfloat & Hkept & _).
  destruct (initUI_establishes Scenario.NaN 1 4000) as (_ & Hnone & _).
  split; [|split].
  - destruct (Hkept [0; 1; 2]) as [Hok _].
    + discriminate.
    + rewrite !not_elem_of_cons. repeat split; try discriminate. apply not_elem_of_nil.
    + rewrite Hok.
      * apply init_window_buffer_plot. lia.
      * repeat constructor; discriminate.
  - apply (Hnone None). left. reflexivity.
  - apply (Hfloat [0]). rewrite not_elem_of_cons. split; [discriminate|].
    apply not_elem_of_nil.
Defined.

Lemma impedance_emits_last_sample_set_witness :
  ImpedancePlot.update_samples_body Scenario.int None Scenario.block_with_nan
  = Raise ValueError.
Proof.
  destruct (impedance_emits_last_sample_set Scenario.int None Scenario.block_with_nan)
    as (_ & _ & _ & Hrefused & _).
  apply (Hrefused [Scenario.val 3; Scenario.NaN]); [reflexivity|].
  exists [Scenario.val 3], Scenario.NaN, []. split; [reflexivity|].
  split; [|reflexivity]. constructor; [|constructor]. exists 3. reflexivity.
Defined.

Lemma bottom_ticks_cover_window_witness :
  (RealTimePlotGui.bottom_ticks 12 5).*2 = seqZ 8 5.
Proof.
  destruct (bottom_ticks_cover_window 12 5) as (Hlabels & _); [lia|]. exact Hlabels.
Defined.
